(** * base_fhirpy.lib: a shallow embedding of the client-side FHIR object model

    The development follows [base_fhirpy/lib.py]: the [Client] with its
    resource cache and request layer, the [SearchSet] query builder, and the
    [Resource] entity.  Python objects that are mutated in place (parameter
    dictionaries, their value lists, resources) live in stores indexed by
    location, so that aliasing is visible; everything that can raise returns
    an outcome that carries the exception and the state reached so far.

    Scope of the model:
    - numbers are integers (no floats); the items of a parameter list are
      scalars; the resource type of a SearchSet is a string;
    - the fields of a resource are JSON documents; entity objects nested in
      them are seen only through the two conversions of the binding
      ([convert_kwargs], [convert_serialize]);
    - a state has one client; [Reference], whose members are abstract in
      this module, is not modelled;
    - exceptions carry their class and, where the module builds it, their
      message; the message of a [KeyError] or [TypeError] is left out. *)

From Stdlib Require Import ZArith String Ascii List Bool Lia DecimalString.
From stdpp Require Import base list.
Import ListNotations.
Local Open Scope string_scope.

(** ** Python values *)

(** Hashable, immutable values: [None], [bool], [int], [str].  Floats are
    outside the model. *)
Inductive scalar : Type :=
| SNone
| SBool (b : bool)
| SInt (n : Z)
| SStr (s : string).

(** JSON documents as produced by [json.loads]. *)
#[local] Set Warnings "-register-all".
Inductive value : Type :=
| VScalar (a : scalar)
| VList (xs : list value)
| VDict (kvs : list (string * value)).

Abbreviation VNone := (VScalar SNone).
Abbreviation VBool b := (VScalar (SBool b)).
Abbreviation VInt n := (VScalar (SInt n)).
Abbreviation VStr s := (VScalar (SStr s)).

(** [bool(x)] *)
Definition truthy_scalar (a : scalar) : bool :=
  match a with
  | SNone => false
  | SBool b => b
  | SInt n => negb (Z.eqb n 0)
  | SStr s => negb (String.eqb s EmptyString)
  end.

Definition truthy (v : value) : bool :=
  match v with
  | VScalar a => truthy_scalar a
  | VList xs => match xs with [] => false | _ => true end
  | VDict kvs => match kvs with [] => false | _ => true end
  end.

(** [a == b] on hashable values; this is also the equality of dict keys.
    In Python [True == 1] and [False == 0]. *)
Definition scalar_eqb (a b : scalar) : bool :=
  match a, b with
  | SNone, SNone => true
  | SBool x, SBool y => Bool.eqb x y
  | SInt n, SInt m => Z.eqb n m
  | SBool x, SInt n => Z.eqb n (if x then 1 else 0)
  | SInt n, SBool x => Z.eqb n (if x then 1 else 0)
  | SStr s, SStr t => String.eqb s t
  | _, _ => false
  end.

(** [str(x)], as used by [str.format]. *)
Definition str_scalar (a : scalar) : string :=
  match a with
  | SNone => "None"
  | SBool true => "True"
  | SBool false => "False"
  | SInt n => NilZero.string_of_int (Z.to_int n)
  | SStr s => s
  end.

Definition join (sep : string) (parts : list string) : string :=
  String.concat sep parts.

(** [repr(x)]; strings are quoted without escape sequences. *)
Definition repr_scalar (a : scalar) : string :=
  match a with
  | SStr s => "'" ++ s ++ "'"
  | _ => str_scalar a
  end.

Fixpoint repr (v : value) : string :=
  match v with
  | VScalar a => repr_scalar a
  | VList xs => "[" ++ join ", " (map repr xs) ++ "]"
  | VDict kvs =>
      "{" ++ join ", " (map (fun kv => "'" ++ fst kv ++ "': " ++ repr (snd kv)) kvs) ++ "}"
  end.

Definition str (v : value) : string :=
  match v with
  | VScalar a => str_scalar a
  | _ => repr v
  end.

(** ** Dictionaries

    A [dict] keeps insertion order; assignment to an existing key keeps its
    position. *)
Section Dict.
Context {K V : Type} (eqb : K -> K -> bool).

Fixpoint dict_get (k : K) (d : list (K * V)) : option V :=
  match d with
  | [] => None
  | (k', v) :: d' => if eqb k k' then Some v else dict_get k d'
  end.

Fixpoint dict_set (k : K) (v : V) (d : list (K * V)) : list (K * V) :=
  match d with
  | [] => [(k, v)]
  | (k', v') :: d' =>
      if eqb k k' then (k', v) :: d' else (k', v') :: dict_set k v d'
  end.

(** [del d[k]]; [None] stands for the [KeyError] of a missing key.  The
    keys of a dict are pairwise different, so no entry for [k] is left. *)
Definition dict_del (k : K) (d : list (K * V)) : option (list (K * V)) :=
  match dict_get k d with
  | Some _ => Some (List.filter (fun kv => negb (eqb k kv.1)) d)
  | None => None
  end.
End Dict.

Abbreviation sget := (dict_get String.eqb).
Abbreviation sset := (dict_set String.eqb).

(** [d.get(k, default)] on a string-keyed dict. *)
Definition get_default {V : Type} (k : string) (d : list (string * V)) (default : V) : V :=
  match sget k d with Some v => v | None => default end.

(** ** Exceptions and results *)

Inductive exn : Type :=
| KeyError
| TypeError
| AttributeError
| ValueError
| NotImplementedError
| ResourceNotFound (msg : string)
| InvalidResponse (msg : string)
| OperationOutcome (msg : string)
| RequestException (msg : string).

Inductive result (A : Type) : Type :=
| Ok (a : A)
| Err (e : exn).
Arguments Ok {A} a.
Arguments Err {A} e.

Definition result_bind {A B : Type} (r : result A) (k : A -> result B) : result B :=
  match r with
  | Ok a => k a
  | Err e => Err e
  end.

(** A value used as a dict key must be hashable. *)
Definition as_key (v : value) : result scalar :=
  match v with
  | VScalar a => Ok a
  | _ => Err TypeError
  end.

(** ** Stores *)

Abbreviation loc := nat.

(** A keyword argument or a dictionary entry of a SearchSet: a scalar, or a
    reference to a list object. *)
Inductive pval : Type :=
| PScalar (a : scalar)
| PList (l : loc).

(** Objects of the query builder: value lists and parameter dictionaries. *)
Inductive qobj : Type :=
| OList (items : list scalar)
| ODict (entries : list (string * pval)).

(** A parameter dictionary with its lists read out of the store: what
    [encode_params] sees. *)
Inductive pview : Type :=
| One (a : scalar)
| Many (items : list scalar).

Record resource : Type := {
  resource_type : value;                 (* the [resource_type] attribute *)
  fields : list (string * value);        (* the dict contents *)
}.

Record client : Type := {
  url : string;
  authorization : option string;
  without_cache : bool;
  schema : option (list (string * list string));
  resources_cache : list (scalar * list (scalar * loc));
}.

Record request : Type := {
  method : string;
  req_url : string;
  req_json : option value;
  req_authorization : option string;
}.

Record reply : Type := {
  status_code : Z;
  content : string;
}.

(** What the module leaves to its environment: the HTTP library and the
    server behind it, [json.loads], the helpers of [utils] and the abstract
    hooks of the protocol binding. *)
Class Binding : Type := {
  server : Type;
  (** [requests.request(method, url, json=..., headers=...)] *)
  requests_request : request -> server -> result reply * server;
  (** [json.loads]; [None] when the content is not JSON ([ValueError]) *)
  json_loads : string -> option value;
  (** [utils.encode_params] *)
  encode_params : list (string * pview) -> string;
  (** [convert_values(kwargs, convert_fn)] in [Resource.__init__], where
      [convert_fn] uses the abstract [is_reference] and [Client.reference] *)
  convert_kwargs : list (string * value) -> result (list (string * value));
  (** [convert_values(dict(self.items()), convert_fn)] in [serialize] *)
  convert_serialize : list (string * value) -> result value;
  (** iteration order of a [set] of strings built from the given elements *)
  set_order : list string -> list string;
}.

Section Monad.
Context {B : Binding}.

Record state : Type := {
  st_heap : list qobj;
  st_resources : list resource;
  st_client : client;
  st_server : server;
  st_sent : list request;              (* every call of [requests.request] so far *)
}.

(** The outcome of running a method. [Fault] is a dangling location (no
    Python counterpart); [Diverge] is a loop that has used up its fuel. *)
Inductive outcome (A : Type) : Type :=
| Ret (a : A) (st : state)
| Raise (e : exn) (st : state)
| Fault
| Diverge.

Definition M (A : Type) : Type := state -> outcome A.
End Monad.

Arguments Ret {B A} a st.
Arguments Raise {B A} e st.
Arguments Fault {B A}.
Arguments Diverge {B A}.

Section MonadOps.
Context {B : Binding}.

#[export] Instance M_ret : MRet M := fun A a st => Ret a st.

#[export] Instance M_bind : MBind M :=
  fun A C k m st =>
    match m st with
    | Ret a st' => k a st'
    | Raise e st' => Raise e st'
    | Fault => Fault
    | Diverge => Diverge
    end.

Definition ret {A : Type} (a : A) : M A := mret a.

Definition raise {A : Type} (e : exn) : M A := fun st => Raise e st.
Definition fault {A : Type} : M A := fun _ => Fault.

Definition lift {A : Type} (r : result A) : M A :=
  match r with
  | Ok a => ret a
  | Err e => raise e
  end.

(** The state an outcome ends in, when it has one. *)
Definition final_state {A : Type} (o : outcome A) : option state :=
  match o with
  | Ret _ st => Some st
  | Raise _ st => Some st
  | _ => None
  end.
End MonadOps.

(** ** Store primitives *)

Section Store.
Context {B : Binding}.

Definition set_heap (h : list qobj) (st : state) : state :=
  {| st_heap := h; st_resources := st_resources st; st_client := st_client st;
     st_server := st_server st; st_sent := st_sent st |}.

Definition set_resources (rs : list resource) (st : state) : state :=
  {| st_heap := st_heap st; st_resources := rs; st_client := st_client st;
     st_server := st_server st; st_sent := st_sent st |}.

Definition set_client (c : client) (st : state) : state :=
  {| st_heap := st_heap st; st_resources := st_resources st; st_client := c;
     st_server := st_server st; st_sent := st_sent st |}.

Definition set_cache (cache : list (scalar * list (scalar * loc))) (c : client) : client :=
  {| url := url c; authorization := authorization c; without_cache := without_cache c;
     schema := schema c; resources_cache := cache |}.

(** Object creation: the new object gets the next free location. *)
Definition alloc (o : qobj) : M loc :=
  fun st => Ret (length (st_heap st)) (set_heap (st_heap st ++ [o]) st).

Definition read (l : loc) : M qobj :=
  fun st => match st_heap st !! l with Some o => Ret o st | None => Fault end.

Definition write (l : loc) (o : qobj) : M unit :=
  fun st =>
    match st_heap st !! l with
    | Some _ => Ret tt (set_heap (<[l := o]> (st_heap st)) st)
    | None => Fault
    end.

Definition read_list (l : loc) : M (list scalar) :=
  o ← read l;
  match o with OList xs => ret xs | ODict _ => fault end.

Definition read_dict (l : loc) : M (list (string * pval)) :=
  o ← read l;
  match o with ODict d => ret d | OList _ => fault end.

Definition new_resource (r : resource) : M loc :=
  fun st => Ret (length (st_resources st)) (set_resources (st_resources st ++ [r]) st).

Definition read_resource (l : loc) : M resource :=
  fun st => match st_resources st !! l with Some r => Ret r st | None => Fault end.

Definition write_resource (l : loc) (r : resource) : M unit :=
  fun st =>
    match st_resources st !! l with
    | Some _ => Ret tt (set_resources (<[l := r]> (st_resources st)) st)
    | None => Fault
    end.

Definition get_client : M client := fun st => Ret (st_client st) st.

Definition put_cache (cache : list (scalar * list (scalar * loc))) : M unit :=
  fun st => Ret tt (set_client (set_cache cache (st_client st)) st).

(** Running a list of actions in order ([for x in xs: ...]). *)
Fixpoint for_each {A : Type} (xs : list A) (body : A -> M unit) : M unit :=
  match xs with
  | [] => ret tt
  | x :: xs' => body x ;; for_each xs' body
  end.

Fixpoint map_m {A C : Type} (f : A -> M C) (xs : list A) : M (list C) :=
  match xs with
  | [] => ret []
  | x :: xs' => y ← f x; ys ← map_m f xs'; ret (y :: ys)
  end.

End Store.

(** ** AbstractResource and the read-only members of Resource

    The store holds [Resource] instances only, so the overridable members
    ([get_root_keys], [id], [reference]) are those of class [Resource]. *)

Definition _get_schema (c : client) : option (list (string * list string)) := schema c.

(** [if not schema] *)
Definition schema_truthy (s : option (list (string * list string))) : bool :=
  match s with
  | Some (_ :: _) => true
  | _ => false
  end.

Definition always_root_keys : list string := ["resourceType"; "id"; "meta"; "extension"].

(** [schema.get(self.resource_type, [])]: the key must be hashable; only a
    string can equal one of the schema's keys. *)
Definition schema_get (s : list (string * list string)) (rt : value) : result (list string) :=
  result_bind (as_key rt) (fun k =>
    match k with
    | SStr name => Ok (get_default name s [])
    | _ => Ok []
    end).

Definition get_root_keys (c : client) (r : resource) : result (list string) :=
  match _get_schema c with
  | Some (e :: s) =>
      result_bind (schema_get (e :: s) (resource_type r)) (fun declared =>
        Ok (declared ++ always_root_keys)%list)
  | _ => Ok []
  end.

Definition str_in (k : string) (ks : list string) : bool := existsb (String.eqb k) ks.

Definition _raise_error_if_invalid_keys (c : client) (r : resource) (keys : list string)
  : result unit :=
  if negb (schema_truthy (_get_schema c)) then Ok tt
  else
    result_bind (get_root_keys c r) (fun root_attrs =>
      if forallb (fun key => str_in key root_attrs) keys then Ok tt else Err KeyError).

Definition _raise_error_if_invalid_key (c : client) (r : resource) (key : string) : result unit :=
  _raise_error_if_invalid_keys c r [key].

(** [AbstractResource.get(key, default)] *)
Definition AbstractResource_get (c : client) (r : resource) (key : string) (default : value)
  : result value :=
  result_bind (_raise_error_if_invalid_key c r key) (fun _ =>
    Ok (get_default key (fields r) default)).

(** [AbstractResource.__getitem__(key)] *)
Definition AbstractResource_getitem (c : client) (r : resource) (key : string)
  : result value :=
  result_bind (_raise_error_if_invalid_key c r key) (fun _ =>
    match sget key (fields r) with
    | Some v => Ok v
    | None => Err KeyError
    end).

(** The [id] property. *)
Definition Resource_id (c : client) (r : resource) : result value :=
  AbstractResource_get c r "id" VNone.

Definition format2 (a b : value) : string := str a ++ "/" ++ str b.

(** The [reference] property: [None] when the id is missing or falsy. *)
Definition reference (c : client) (r : resource) : result (option string) :=
  result_bind (Resource_id c r) (fun i =>
    if truthy i then
      result_bind (Resource_id c r) (fun i' => Ok (Some (format2 (resource_type r) i')))
    else Ok None).

Definition is_str (v : value) (s : string) : bool :=
  match v with
  | VStr t => String.eqb t s
  | _ => false
  end.

Definition _get_path (c : client) (r : resource) : result value :=
  result_bind (Resource_id c r) (fun i =>
    if truthy i then
      result_bind (Resource_id c r) (fun i' => Ok (VStr (format2 (resource_type r) i')))
    else if is_str (resource_type r) "Bundle" then Ok (VStr EmptyString)
    else Ok (resource_type r)).

Definition option_string_eqb (a b : option string) : bool :=
  match a, b with
  | None, None => true
  | Some s, Some t => String.eqb s t
  | _, _ => false
  end.

(** [AbstractResource.__eq__] between two resources of one client. *)
Definition Resource_eq (c : client) (r1 r2 : resource) : result bool :=
  result_bind (reference c r1) (fun a =>
    result_bind (reference c r2) (fun b => Ok (option_string_eqb a b))).

(** ** Client: the resource cache and the request layer *)

(** [Client.__init__(url, authorization=None, with_cache=False, schema=None)]:
    a falsy [schema] leaves the class attribute [None] in place. *)
Definition Client_init (url : string) (authorization : option string) (with_cache : bool)
    (schema : option (list (string * list string))) : client :=
  {| url := url;
     authorization := authorization;
     without_cache := negb with_cache;
     schema := if schema_truthy schema then schema else None;
     resources_cache := [] |}.

Section Client.
Context {B : Binding}.

(** [self.resources_cache[resource_type]] on the [defaultdict(dict)]: the key
    is hashed, and a missing key is inserted with an empty dict. *)
Definition cache_getitem (rt : value) : M (scalar * list (scalar * loc)) :=
  k ← lift (as_key rt);
  c ← get_client;
  match dict_get scalar_eqb k (resources_cache c) with
  | Some inner => ret (k, inner)
  | None => put_cache (resources_cache c ++ [(k, [])]);; ret (k, [])
  end.

Definition _add_resource_to_cache (l : loc) : M unit :=
  c ← get_client;
  if without_cache c then ret tt
  else
    r ← read_resource l;
    entry ← cache_getitem (resource_type r);
    i ← lift (Resource_id c r);
    ki ← lift (as_key i);
    c' ← get_client;
    put_cache (dict_set scalar_eqb entry.1 (dict_set scalar_eqb ki l entry.2)
                 (resources_cache c')).

Definition _remove_resource_from_cache (l : loc) : M unit :=
  c ← get_client;
  if without_cache c then ret tt
  else
    r ← read_resource l;
    entry ← cache_getitem (resource_type r);
    i ← lift (Resource_id c r);
    ki ← lift (as_key i);
    match dict_del scalar_eqb ki entry.2 with
    | Some inner' =>
        c' ← get_client;
        put_cache (dict_set scalar_eqb entry.1 inner' (resources_cache c'))
    | None => raise KeyError
    end.

Definition _get_resource_from_cache (rt : value) (i : value) : M (option loc) :=
  c ← get_client;
  if without_cache c then ret None
  else
    entry ← cache_getitem rt;
    ki ← lift (as_key i);
    ret (dict_get scalar_eqb ki entry.2).

Definition clear_resources_cache (rt : value) : M unit :=
  c ← get_client;
  if without_cache c then ret tt
  else if truthy rt then
    k ← lift (as_key rt);
    put_cache (dict_set scalar_eqb k [] (resources_cache c))
  else put_cache [].

(** The call of [requests.request]: the server answers and moves on; the
    call is recorded. *)
Definition send (req : request) : M reply :=
  fun st =>
    let ans := requests_request req (st_server st) in
    let st' := {| st_heap := st_heap st; st_resources := st_resources st;
                  st_client := st_client st; st_server := ans.2;
                  st_sent := st_sent st ++ [req] |} in
    match ans.1 with
    | Ok r => Ret r st'
    | Err e => Raise e st'
    end.

Definition view_entry (e : string * pval) : M (string * pview) :=
  match e.2 with
  | PScalar a => ret (e.1, One a)
  | PList l => xs ← read_list l; ret (e.1, Many xs)
  end.

(** The contents of a parameter dictionary, lists read through. *)
Definition view_dict (p : loc) : M (list (string * pview)) :=
  d ← read_dict p;
  map_m view_entry d.

(** [params or {}] *)
Definition params_or_new (params : option loc) : M loc :=
  match params with
  | None => alloc (ODict [])
  | Some p =>
      d ← read_dict p;
      match d with
      | [] => alloc (ODict [])
      | _ :: _ => ret p
      end
  end.

(** What [_do_request] makes of the server's answer. *)
Definition decode_reply (r : reply) : result value :=
  if (200 <=? status_code r)%Z && (status_code r <? 300)%Z then
    if String.eqb (content r) EmptyString then Ok VNone
    else
      match json_loads (content r) with
      | Some doc => Ok doc
      | None => Err ValueError
      end
  else if (status_code r =? 404)%Z then Err (ResourceNotFound (content r))
  else Err (OperationOutcome (content r)).

Definition _do_request (method : string) (path : value) (data : option value)
    (params : option loc) : M value :=
  p ← params_or_new params;
  d ← read_dict p;
  write p (ODict (sset "_format" (PScalar (SStr "json")) d));;
  v ← view_dict p;
  c ← get_client;
  let url := url c ++ "/" ++ str path ++ "?" ++ encode_params v in
  r ← send {| method := method; req_url := url; req_json := data;
              req_authorization := authorization c |};
  lift (decode_reply r).

Definition _fetch_resource (path : value) (params : option loc) : M value :=
  _do_request "get" path None params.

End Client.

(** ** Resource: construction, field assignment, persistence *)

Section Resource.
Context {B : Binding}.

(** [AbstractResource.__setitem__] *)
Definition AbstractResource_setitem (l : loc) (key : string) (v : value) : M unit :=
  c ← get_client;
  r ← read_resource l;
  lift (_raise_error_if_invalid_key c r key);;
  write_resource l {| resource_type := resource_type r; fields := sset key v (fields r) |}.

Definition contains (key : string) (d : list (string * value)) : bool :=
  match sget key d with Some _ => true | None => false end.

(** [Resource.__setitem__] *)
Definition Resource_setitem (l : loc) (key : string) (v : value) : M unit :=
  r ← read_resource l;
  if String.eqb key "resourceType" && negb (contains "resourceType" (fields r))
  then raise KeyError
  else AbstractResource_setitem l key v.

(** A keyword argument that collides with a named parameter of the callee
    is a [TypeError] at the call. *)
Definition collides (names : list string) (kwargs : list (string * value)) : bool :=
  existsb (fun kv => str_in kv.1 names) kwargs.

(** [Resource.__init__(client, resource_type, **kwargs)], followed through
    [AbstractResource.__init__]; the object enters the store once it is
    initialised. *)
Definition Resource_init (rt : value) (kwargs : list (string * value)) : M loc :=
  let kwargs' := sset "resourceType" rt kwargs in
  converted_kwargs ← lift (convert_kwargs kwargs');
  if collides ["self"; "client"] converted_kwargs then raise TypeError
  else
    c ← get_client;
    let self := {| resource_type := rt; fields := converted_kwargs |} in
    lift (_raise_error_if_invalid_keys c self (map fst converted_kwargs));;
    new_resource self.

(** [Client.resource(resource_type=None, **kwargs)], followed into the call of
    [resource_class]: a keyword that names a parameter of one of the two
    calls is refused like a missing [resource_type], with [TypeError]. *)
Definition Client_resource (rt : value) (kwargs : list (string * value)) : M loc :=
  match rt with
  | VNone => raise TypeError
  | _ =>
      if collides ["self"; "client"; "resource_type"] kwargs then raise TypeError
      else Resource_init rt kwargs
  end.

Definition serialize (r : resource) : result value := convert_serialize (fields r).

Definition save (l : loc) : M unit :=
  c ← get_client;
  r ← read_resource l;
  i ← lift (Resource_id c r);
  path ← lift (_get_path c r);
  body ← lift (serialize r);
  data ← _do_request (if truthy i then "put" else "post") path (Some body) None;
  match data with
  | VDict d =>
      Resource_setitem l "meta" (get_default "meta" d (VDict []));;
      Resource_setitem l "id" (get_default "id" d VNone);;
      _add_resource_to_cache l
  | _ => raise AttributeError
  end.

Definition delete (l : loc) : M value :=
  _remove_resource_from_cache l;;
  c ← get_client;
  r ← read_resource l;
  path ← lift (_get_path c r);
  _do_request "delete" path None None.

(** [AbstractResource.setdefault(key, default=None)]; the insertion is that of
    [dict], it does not go through [__setitem__]. *)
Definition setdefault (l : loc) (key : string) (default : value) : M value :=
  c ← get_client;
  r ← read_resource l;
  lift (_raise_error_if_invalid_key c r key);;
  match sget key (fields r) with
  | Some v => ret v
  | None =>
      write_resource l {| resource_type := resource_type r;
                          fields := sset key default (fields r) |};;
      ret default
  end.

End Resource.

(** ** SearchSet *)

(** The [resource_type] of a SearchSet is a resource type name; its
    [params] attribute refers to a [defaultdict(list)] in the store. *)
Record searchset : Type := {
  ss_resource_type : string;
  ss_params : loc;
}.

(** Modelled from the spec: [utils.chunks(args, 2)], which is not part of
    this module; the positional arguments of [has] alternate type and
    attribute, so the chunks are the consecutive pairs. *)
Fixpoint chunks2 (args : list string) : list (list string) :=
  match args with
  | a :: b :: rest => [a; b] :: chunks2 rest
  | [a] => [[a]]
  | [] => []
  end.

(** The refinement operations with their arguments. *)
Inductive refinement : Type :=
| RClone (override : bool) (kwargs : list (string * pval))
| RSearch (kwargs : list (string * pval))
| RLimit (limit : pval)
| RPage (page : pval)
| RSort (keys : list string)
| RElements (attrs : list string) (exclude : bool)
| RInclude (resource_type attr : string) (target_resource_type : option string)
    (recursive : bool)
| RHas (args : list string) (kwargs : list (string * pval)).

Section SearchSet.
Context {B : Binding}.

(** [SearchSet.__init__]: [defaultdict(list, params or {})] is a new
    dictionary with the entries of [params]. *)
Definition SearchSet_init (rt : string) (params : option loc) : M searchset :=
  d ← match params with
      | None => ret []
      | Some p => read_dict p
      end;
  p' ← alloc (ODict d);
  ret {| ss_resource_type := rt; ss_params := p' |}.

(** [Client.resources(resource_type)] *)
Definition resources (rt : string) : M searchset := SearchSet_init rt None.

(** [copy.deepcopy] of the entries of a parameter dictionary: every list is
    copied once; the memo keeps lists that were shared, shared. *)
Fixpoint deepcopy_entries (d : list (string * pval)) (memo : list (loc * loc))
  : M (list (string * pval)) :=
  match d with
  | [] => ret []
  | (k, PScalar a) :: d' =>
      rest ← deepcopy_entries d' memo;
      ret ((k, PScalar a) :: rest)
  | (k, PList l) :: d' =>
      match dict_get Nat.eqb l memo with
      | Some l' =>
          rest ← deepcopy_entries d' memo;
          ret ((k, PList l') :: rest)
      | None =>
          xs ← read_list l;
          l' ← alloc (OList xs);
          rest ← deepcopy_entries d' ((l, l') :: memo);
          ret ((k, PList l') :: rest)
      end
  end.

Definition deepcopy (p : loc) : M loc :=
  d ← read_dict p;
  d' ← deepcopy_entries d [];
  alloc (ODict d').

(** One turn of the loop of [clone] over [kwargs.items()]. *)
Definition clone_step (override : bool) (new_params : loc) (kv : string * pval) : M unit :=
  value ← match kv.2 with
          | PList l => read_list l;; ret l
          | PScalar a => alloc (OList [a])
          end;
  d ← read_dict new_params;
  if override then write new_params (ODict (sset kv.1 (PList value) d))
  else
    target ← match sget kv.1 d with
             | Some pv => ret pv
             | None =>
                 l0 ← alloc (OList []);
                 write new_params (ODict (sset kv.1 (PList l0) d));;
                 ret (PList l0)
             end;
    match target with
    | PScalar _ => raise AttributeError
    | PList t =>
        items ← read_list value;
        cur ← read_list t;
        write t (OList (cur ++ items))
    end.

Definition clone (s : searchset) (override : bool) (kwargs : list (string * pval))
  : M searchset :=
  new_params ← deepcopy (ss_params s);
  for_each kwargs (clone_step override new_params);;
  SearchSet_init (ss_resource_type s) (Some new_params).

(** [bool(x)] of an argument. *)
Definition truthy_pval (v : pval) : M bool :=
  match v with
  | PScalar a => ret (truthy_scalar a)
  | PList l => xs ← read_list l; ret (match xs with [] => false | _ => true end)
  end.

Definition drop_key (k : string) (kwargs : list (string * pval)) : list (string * pval) :=
  List.filter (fun kv => negb (String.eqb kv.1 k)) kwargs.

(** [search] hands its keyword arguments to [clone]: a keyword named
    [override] binds the parameter of [clone]. *)
Definition search (s : searchset) (kwargs : list (string * pval)) : M searchset :=
  if existsb (fun kv => String.eqb kv.1 "self") kwargs then raise TypeError
  else
    match sget "override" kwargs with
    | Some flag =>
        override ← truthy_pval flag;
        clone s override (drop_key "override" kwargs)
    | None => clone s false kwargs
    end.

Definition limit (s : searchset) (limit : pval) : M searchset :=
  clone s true [("_count", limit)].

Definition page (s : searchset) (page : pval) : M searchset :=
  clone s true [("page", page)].

Definition sort (s : searchset) (keys : list string) : M searchset :=
  let sort_keys := join "," keys in
  clone s true [("_sort", PScalar (SStr sort_keys))].

Definition elements (s : searchset) (attrs : list string) (exclude : bool) : M searchset :=
  let attrs := if exclude then attrs else (attrs ++ ["id"; "resourceType"])%list in
  let attrs := set_order attrs in
  clone s true
    [("_elements", PScalar (SStr ((if exclude then "-" else EmptyString) ++ join "," attrs)))].

(** The key that [include] builds. *)
Definition include_key (recursive : bool) : string :=
  let key_params := (["_include"] ++ if recursive then ["recursive"] else [])%list in
  join ":" key_params.

Definition include (s : searchset) (resource_type attr : string)
    (target_resource_type : option string) (recursive : bool) : M searchset :=
  let key := include_key recursive in
  let value_params :=
    ([resource_type; attr] ++
     match target_resource_type with
     | Some t => if String.eqb t EmptyString then [] else [t]
     | None => []
     end)%list in
  let value := join ":" value_params in
  clone s false [(key, PScalar (SStr value))].

(** The keyword arguments that [has] hands to [clone]. *)
Definition has_kwargs (args : list string) (kwargs : list (string * pval))
  : list (string * pval) :=
  let key_part := join ":" (map (fun pair => "_has:" ++ join ":" pair) (chunks2 args)) in
  map (fun kv => (join ":" [key_part; kv.1], kv.2)) kwargs.

Definition has (s : searchset) (args : list string) (kwargs : list (string * pval))
  : M searchset :=
  if negb (Nat.eqb (length args mod 2) 0) then raise TypeError
  else clone s false (has_kwargs args kwargs).

Definition revinclude (s : searchset) (resource_type attr : string) (recursive : bool)
  : M searchset :=
  raise NotImplementedError.

Definition refine (r : refinement) (s : searchset) : M searchset :=
  match r with
  | RClone override kwargs => clone s override kwargs
  | RSearch kwargs => search s kwargs
  | RLimit n => limit s n
  | RPage n => page s n
  | RSort keys => sort s keys
  | RElements attrs exclude => elements s attrs exclude
  | RInclude rt attr target recursive => include s rt attr target recursive
  | RHas args kwargs => has s args kwargs
  end.

(** [for x in v] *)
Definition iterate (v : value) : result (list value) :=
  match v with
  | VList xs => Ok xs
  | VDict kvs => Ok (map (fun kv => VStr kv.1) kvs)
  | VStr s => Ok (map (fun ch => VStr (String ch EmptyString)) (list_ascii_of_string s))
  | _ => Err TypeError
  end.

(** [v[key]] with a string key *)
Definition getitem (v : value) (key : string) : result value :=
  match v with
  | VDict kvs =>
      match sget key kvs with
      | Some x => Ok x
      | None => Err KeyError
      end
  | _ => Err TypeError
  end.

Fixpoint map_result {A C : Type} (f : A -> result C) (xs : list A) : result (list C) :=
  match xs with
  | [] => Ok []
  | x :: xs' =>
      result_bind (f x) (fun y => result_bind (map_result f xs') (fun ys => Ok (y :: ys)))
  end.

Definition _perform_resource (s : searchset) (data : value) (skip_caching : bool) : M loc :=
  match data with
  | VDict kvs =>
      let resource_type := get_default "resourceType" kvs VNone in
      resource ← Client_resource resource_type kvs;
      (if skip_caching then ret tt else _add_resource_to_cache resource);;
      ret resource
  | _ => raise AttributeError
  end.

(** The loop of [fetch] over [resources_data]. *)
Fixpoint fetch_loop (s : searchset) (skip_caching : bool) (resources_data : list value)
    (resources : list loc) : M (list loc) :=
  match resources_data with
  | [] => ret resources
  | data :: rest =>
      l ← _perform_resource s data skip_caching;
      r ← read_resource l;
      fetch_loop s skip_caching rest
        (if is_str (resource_type r) (ss_resource_type s) then resources ++ [l]
         else resources)
  end.

Definition fetch (s : searchset) (skip_caching : bool) : M (list loc) :=
  bundle_data ← _fetch_resource (VStr (ss_resource_type s)) (Some (ss_params s));
  match bundle_data with
  | VDict bd =>
      let bundle_resource_type := get_default "resourceType" bd VNone in
      if negb (is_str bundle_resource_type "Bundle") then
        raise (InvalidResponse
                 ("Expected to receive Bundle but " ++ str bundle_resource_type ++ " received"))
      else
        entries ← lift (iterate (get_default "entry" bd (VList [])));
        resources_data ← lift (map_result (fun res => getitem res "resource") entries);
        fetch_loop s skip_caching resources_data []
  | _ => raise AttributeError
  end.

(** The [while True] loop of [fetch_all]; [fuel] bounds the number of
    pages requested. *)
Fixpoint fetch_all_loop (fuel : nat) (s : searchset) (skip_caching : bool) (page_no : Z)
    (resources : list loc) : M (list loc) :=
  match fuel with
  | O => fun _ => Diverge
  | S fuel' =>
      s' ← page s (PScalar (SInt page_no));
      new_resources ← fetch s' skip_caching;
      match new_resources with
      | [] => ret resources
      | _ :: _ =>
          fetch_all_loop fuel' s skip_caching (page_no + 1) (resources ++ new_resources)
      end
  end.

Definition fetch_all (fuel : nat) (s : searchset) (skip_caching : bool) : M (list loc) :=
  fetch_all_loop fuel s skip_caching 1 [].

Definition first (s : searchset) : M (option loc) :=
  s' ← limit s (PScalar (SInt 1));
  result ← fetch s' false;
  ret (head result).

(** [SearchSet.get(id, skip_caching=False)] *)
Definition SearchSet_get (s : searchset) (id : value) (skip_caching : bool) : M loc :=
  res_data ← _fetch_resource (VStr (format2 (VStr (ss_resource_type s)) id)) None;
  received ← lift (getitem res_data "resourceType");
  if negb (is_str received (ss_resource_type s)) then
    raise (InvalidResponse
             ("Expected to receive " ++ ss_resource_type s ++ " but " ++ str received ++
              " received"))
  else _perform_resource s res_data skip_caching.

(** [new_params[key] = value] with a scalar value *)
Definition setitem_scalar (p : loc) (key : string) (a : scalar) : M unit :=
  d ← read_dict p;
  write p (ODict (sset key (PScalar a) d)).

(** [SearchSet.count()] *)
Definition count (s : searchset) : M value :=
  new_params ← deepcopy (ss_params s);
  setitem_scalar new_params "_count" (SInt 1);;
  setitem_scalar new_params "_totalMethod" (SStr "count");;
  doc ← _fetch_resource (VStr (ss_resource_type s)) (Some new_params);
  lift (getitem doc "total").

(** [SearchSet.__iter__]: the resources of one [fetch], in order. *)
Definition SearchSet_iter (s : searchset) : M (list loc) := fetch s false.

End SearchSet.

(** ** A scripted environment for concrete runs

    The server answers from a script, one reply per request; documents are
    looked up by the text of the reply; the binding converts nothing. *)

Definition documents : list (string * value) :=
  [("patient-42",
    VDict [("resourceType", VStr "Patient"); ("id", VStr "42");
           ("meta", VDict [("versionId", VStr "1")])]);
   ("bundle-mixed",
    VDict [("resourceType", VStr "Bundle");
           ("entry",
            VList [VDict [("resource",
                           VDict [("resourceType", VStr "Patient"); ("id", VStr "1")])];
                   VDict [("resource",
                           VDict [("resourceType", VStr "Observation"); ("id", VStr "7")])]])]);
   ("bundle-empty", VDict [("resourceType", VStr "Bundle")]);
   ("transaction-response",
    VDict [("resourceType", VStr "Bundle"); ("id", VStr "tx-1");
           ("type", VStr "transaction-response")]);
   ("outcome", VDict [("resourceType", VStr "OperationOutcome")])].

Definition show_param (e : string * pview) : string :=
  match e.2 with
  | One a => e.1 ++ "=" ++ str_scalar a
  | Many items => join "&" (map (fun a => e.1 ++ "=" ++ str_scalar a) items)
  end.

#[export] Instance scripted : Binding := {|
  server := list (result reply);
  requests_request := fun _ script =>
    match script with
    | [] => (Err (RequestException "connection refused"), [])
    | r :: rest => (r, rest)
    end;
  json_loads := fun text => sget text documents;
  encode_params := fun params => join "&" (map show_param params);
  convert_kwargs := Ok;
  convert_serialize := fun kvs => Ok (VDict kvs);
  set_order := fun xs => xs;
|}.

Definition answer (code : Z) (text : string) : result reply :=
  Ok {| status_code := code; content := text |}.

(** A second scripted environment, whose server answers a search with the
    summary of a Bundle: nothing but a total. *)
Definition summaries : Binding := {|
  server := list (result reply);
  requests_request := fun _ script =>
    match script with
    | [] => (Err (RequestException "connection refused"), [])
    | r :: rest => (r, rest)
    end;
  json_loads := fun text =>
    match index 0 "total-" text with
    | Some 0%nat =>
        Some (VDict [("resourceType", VStr "Bundle");
                     ("total", VInt (Z.of_nat (String.length text - 6)))])
    | _ => None
    end;
  encode_params := fun params => join "&" (map show_param params);
  convert_kwargs := Ok;
  convert_serialize := fun kvs => Ok (VDict kvs);
  set_order := fun xs => xs;
|}.

Definition example_client (caching : bool) : client :=
  {| url := "http://fhir.test"; authorization := None; without_cache := negb caching;
     schema := None; resources_cache := [] |}.

Definition example_state (caching : bool) (rs : list resource) (script : list (result reply))
  : state :=
  {| st_heap := []; st_resources := rs; st_client := example_client caching;
     st_server := script; st_sent := [] |}.

Definition patient_1 : resource :=
  {| resource_type := VStr "Patient";
     fields := [("resourceType", VStr "Patient"); ("id", VStr "1")] |}.

Definition unsaved_patient : resource :=
  {| resource_type := VStr "Patient";
     fields := [("resourceType", VStr "Patient"); ("name", VStr "Ann")] |}.

Definition unsaved_observation : resource :=
  {| resource_type := VStr "Observation";
     fields := [("resourceType", VStr "Observation")] |}.

Definition unsaved_bundle : resource :=
  {| resource_type := VStr "Bundle";
     fields := [("resourceType", VStr "Bundle"); ("type", VStr "transaction")] |}.

(** ** Vocabulary for the statements *)

(** Key equality is equality of the integer a [bool] stands for. *)
Definition key_code (a : scalar) : scalar :=
  match a with
  | SBool b => SInt (if b then 1 else 0)
  | _ => a
  end.

(** The cache read as a finite map from (type, id) to a resource. *)
Definition cache_lookup (kt ki : scalar) (cache : list (scalar * list (scalar * loc)))
  : option loc :=
  match dict_get scalar_eqb kt cache with
  | Some inner => dict_get scalar_eqb ki inner
  | None => None
  end.

(** The cache after [cache[kt][ki] = l]. *)
Definition cache_put (kt ki : scalar) (l : loc) (cache : list (scalar * list (scalar * loc)))
  : list (scalar * list (scalar * loc)) :=
  dict_set scalar_eqb kt
    (dict_set scalar_eqb ki l
       (match dict_get scalar_eqb kt cache with Some inner => inner | None => [] end))
    cache.

(** The cache after [cache[kt]] has been read: the [defaultdict] holds an
    entry for [kt]. *)
Definition vivify (kt : scalar) (cache : list (scalar * list (scalar * loc)))
  : list (scalar * list (scalar * loc)) :=
  match dict_get scalar_eqb kt cache with
  | Some _ => cache
  | None => cache ++ [(kt, [])]
  end.

(** The cache after [del cache[kt][ki]]. *)
Definition cache_del (kt ki : scalar) (cache : list (scalar * list (scalar * loc)))
  : list (scalar * list (scalar * loc)) :=
  match dict_get scalar_eqb kt cache with
  | Some inner =>
      dict_set scalar_eqb kt (List.filter (fun kv => negb (scalar_eqb ki kv.1)) inner) cache
  | None => cache
  end.

Section Vocabulary.
Context {B : Binding}.

Definition with_cache (cache : list (scalar * list (scalar * loc))) (st : state) : state :=
  set_client (set_cache cache (st_client st)) st.

(** The request that [_do_request] sends when it is called without
    parameters: the query string carries [_format=json] only. *)
Definition plain_request (c : client) (method : string) (path : value) (data : option value)
  : request :=
  {| method := method;
     req_url := url c ++ "/" ++ str path ++ "?" ++
                encode_params [("_format", One (SStr "json"))];
     req_json := data;
     req_authorization := authorization c |}.

(** The state right after such a request: the dictionary made for it, the
    server's next state, the request on record. *)
Definition requested (st : state) (req : request) (srv : server) : state :=
  {| st_heap := st_heap st ++ [ODict [("_format", PScalar (SStr "json"))]];
     st_resources := st_resources st;
     st_client := st_client st;
     st_server := srv;
     st_sent := st_sent st ++ [req] |}.

(** One page of [fetch_all]: [self.page(n).fetch(skip_caching=...)]. *)
Definition page_fetch (s : searchset) (skip_caching : bool) (n : Z) : M (list loc) :=
  s' ← page s (PScalar (SInt n));
  fetch s' skip_caching.

(** The pages from number [n] on, fetched one after the other up to and
    including the first empty one; the non-empty results are collected. *)
Inductive pages_until_empty (s : searchset) (skip_caching : bool)
  : Z -> state -> list (list loc) -> state -> Prop :=
| pages_stop (n : Z) (st st' : state) :
    page_fetch s skip_caching n st = Ret [] st' ->
    pages_until_empty s skip_caching n st [] st'
| pages_next (n : Z) (st st1 st' : state) (rs : list loc) (rss : list (list loc)) :
    page_fetch s skip_caching n st = Ret rs st1 ->
    rs <> [] ->
    pages_until_empty s skip_caching (n + 1) st1 rss st' ->
    pages_until_empty s skip_caching n st (rs :: rss) st'.

(** The resource at [l] has the declared type of the SearchSet. *)
Definition declared_at (s : searchset) (rs : list resource) (l : loc) : bool :=
  match rs !! l with
  | Some r => is_str (resource_type r) (ss_resource_type s)
  | None => false
  end.

(** The key under which the cache files a resource. *)
Definition cache_key (c : client) (r : resource) : option (scalar * scalar) :=
  match resource_type r, Resource_id c r with
  | VScalar kt, Ok (VScalar ki) => Some (kt, ki)
  | _, _ => None
  end.

Definition same_key (k k' : scalar * scalar) : bool :=
  scalar_eqb k.1 k'.1 && scalar_eqb k.2 k'.2.

(** The resource at [l] is filed in the cache: its key leads to [l] or to a
    later resource with an equal key, which has replaced it. *)
Definition cached (st : state) (l : loc) : Prop :=
  exists r k l' r' k',
    st_resources st !! l = Some r /\
    cache_key (st_client st) r = Some k /\
    cache_lookup k.1 k.2 (resources_cache (st_client st)) = Some l' /\
    l <= l' /\
    st_resources st !! l' = Some r' /\
    cache_key (st_client st) r' = Some k' /\
    same_key k k' = true.

(** The location holds a list object. *)
Definition valid_list (h : list qobj) (l : loc) : Prop :=
  exists xs, h !! l = Some (OList xs).

(** An argument is well formed when a list argument refers to a list. *)
Definition wf_pval (h : list qobj) (v : pval) : Prop :=
  match v with
  | PScalar _ => True
  | PList l => valid_list h l
  end.

Definition wf_kwargs (h : list qobj) (kwargs : list (string * pval)) : Prop :=
  Forall (fun kv => wf_pval h kv.2) kwargs.

(** The [params] of a SearchSet is a dictionary whose list entries refer to
    lists. *)
Definition wf_searchset (h : list qobj) (s : searchset) : Prop :=
  exists d, h !! ss_params s = Some (ODict d) /\
            forall k l, In (k, PList l) d -> valid_list h l.

Definition wf_refinement (h : list qobj) (r : refinement) : Prop :=
  match r with
  | RClone _ kwargs => wf_kwargs h kwargs
  | RSearch kwargs => wf_kwargs h kwargs
  | RLimit v => wf_pval h v
  | RPage v => wf_pval h v
  | RHas _ kwargs => wf_kwargs h kwargs
  | _ => True
  end.

(** Every object of [st] is in [st'] as it was, and nothing but the store of
    query objects differs: no object that existed has been mutated. *)
Definition heap_kept (st st' : state) : Prop :=
  (forall l o, st_heap st !! l = Some o -> st_heap st' !! l = Some o) /\
  st_resources st' = st_resources st /\
  st_client st' = st_client st /\
  st_server st' = st_server st /\
  st_sent st' = st_sent st.

(** The state of [clone] while it fills [new_params]: the objects of the
    start [st0] are as they were; [new_params] is a new dictionary whose list
    entries refer to lists, new ones as long as nothing is overridden. *)
Definition building (st0 : state) (override : bool) (np : loc) (st : state) : Prop :=
  heap_kept st0 st /\
  length (st_heap st0) <= np /\
  exists d, st_heap st !! np = Some (ODict d) /\
            forall k t, In (k, PList t) d ->
              valid_list (st_heap st) t /\
              (override = false -> length (st_heap st0) <= t).

(** [e'] is the deep copy of the entry [e]: the same key; the same scalar,
    or a list object from location [n] on with the items of the original. *)
Definition copied (n : nat) (h : list qobj) (e e' : string * pval) : Prop :=
  e.1 = e'.1 /\
  match e.2, e'.2 with
  | PScalar a, PScalar a' => a = a'
  | PList l, PList l' =>
      n <= l' /\ exists xs, h !! l = Some (OList xs) /\ h !! l' = Some (OList xs)
  | _, _ => False
  end.

(** The entry for [k] is a scalar: [clone] cannot extend it. *)
Definition scalar_entry (d : list (string * pval)) (k : string) : bool :=
  match sget k d with
  | Some (PScalar _) => true
  | _ => false
  end.

Definition extends_scalar (d : list (string * pval)) (kwargs : list (string * pval)) : bool :=
  existsb (fun kv => scalar_entry d kv.1) kwargs.

(** A sufficient condition for a refinement to return: no scalar entry has
    to be extended, [has] gets type and attribute in pairs, and [search] is
    given no keyword that binds a parameter of [clone]. *)
Definition accepts (d : list (string * pval)) (r : refinement) : bool :=
  match r with
  | RClone override kwargs => override || negb (extends_scalar d kwargs)
  | RSearch kwargs =>
      negb (existsb (fun kv => String.eqb kv.1 "self") kwargs) &&
      match sget "override" kwargs with Some _ => false | None => true end &&
      negb (extends_scalar d kwargs)
  | RLimit _ | RPage _ | RSort _ | RElements _ _ => true
  | RInclude _ _ _ recursive => negb (scalar_entry d (include_key recursive))
  | RHas args kwargs =>
      Nat.eqb (length args mod 2) 0 && negb (extends_scalar d (has_kwargs args kwargs))
  end.

(** What a refinement of [s] started in [st] may end in: a SearchSet of the
    same type whose [params] is an object that did not exist in [st], or an
    exception; either way every object of [st] is as it was. *)
Definition refined (st : state) (s : searchset) (o : outcome searchset) : Prop :=
  match o with
  | Ret s' st' =>
      heap_kept st st' /\
      length (st_heap st) <= ss_params s' /\
      ss_resource_type s' = ss_resource_type s /\
      wf_searchset (st_heap st') s'
  | Raise e st' => heap_kept st st' /\ (e = TypeError \/ e = AttributeError)
  | _ => False
  end.

(** The value list stored under [k] in the dictionary at [p]. *)
Definition lookup_items (h : list qobj) (p : loc) (k : string) : option (list scalar) :=
  match h !! p with
  | Some (ODict d) =>
      match sget k d with
      | Some (PList l) =>
          match h !! l with
          | Some (OList xs) => Some xs
          | _ => None
          end
      | _ => None
      end
  | _ => None
  end.

(** The values an argument contributes: a scalar counts as a one-element
    list. *)
Definition arg_items (h : list qobj) (v : pval) : list scalar :=
  match v with
  | PScalar a => [a]
  | PList l =>
      match h !! l with
      | Some (OList xs) => xs
      | _ => []
      end
  end.

(** [keeps R m]: every run of [m] that ends in a state is related to its
    start by [R]. *)
Definition keeps {A : Type} (R : state -> state -> Prop) (m : M A) : Prop :=
  forall st st', final_state (m st) = Some st' -> R st st'.

(** The client (with its cache) and the resources are the same. *)
Definition same_entities (st st' : state) : Prop :=
  st_client st' = st_client st /\ st_resources st' = st_resources st.

End Vocabulary.

(** ** Vocabulary for the further properties *)

(** What [encode_params] is given for the entries [d] in the store [h]. *)
Definition view_of (h : list qobj) (d : list (string * pval)) : list (string * pview) :=
  map (fun e =>
         (e.1, match e.2 with
               | PScalar a => One a
               | PList l => Many (match h !! l with Some (OList xs) => xs | _ => [] end)
               end)) d.

Section Vocabulary2.
Context {B : Binding}.

(** The request that [_do_request] sends for a parameter view. *)
Definition request_for (c : client) (method : string) (path : value) (data : option value)
    (view : list (string * pview)) : request :=
  {| method := method;
     req_url := url c ++ "/" ++ str path ++ "?" ++ encode_params view;
     req_json := data;
     req_authorization := authorization c |}.

(** The state after a request: the store of query objects as given, the
    server's next state, the request on record. *)
Definition after_request (st : state) (h : list qobj) (req : request) (srv : server)
  : state :=
  {| st_heap := h;
     st_resources := st_resources st;
     st_client := st_client st;
     st_server := srv;
     st_sent := st_sent st ++ [req] |}.

(** Every query object of [st] is in [st'] as it was. *)
Definition objects_kept (st st' : state) : Prop :=
  forall l o, st_heap st !! l = Some o -> st_heap st' !! l = Some o.

(** The parameters of a SearchSet as [encode_params] would see them. *)
Definition params_view (h : list qobj) (s : searchset) : option (list (string * pview)) :=
  match h !! ss_params s with
  | Some (ODict d) => Some (view_of h d)
  | _ => None
  end.

(** [ends R m st]: the run of [m] from [st] ends in a state, by return or by
    exception, and [R] relates [st] to that state. *)
Definition ends {A : Type} (R : state -> state -> Prop) (m : M A) (st : state) : Prop :=
  exists st', final_state (m st) = Some st' /\ R st st'.

(** What making resources out of documents may do to the state: resources
    are added at the end of the store; of the client only the cache may
    differ, and not even that when caching is skipped or disabled; the query
    objects, the server and the record of requests are as they were. *)
Definition materialised (skip_caching : bool) (st st' : state) : Prop :=
  st_heap st' = st_heap st /\
  st_server st' = st_server st /\
  st_sent st' = st_sent st /\
  (exists news, st_resources st' = st_resources st ++ news)%list /\
  set_cache [] (st_client st') = set_cache [] (st_client st) /\
  (skip_caching || without_cache (st_client st) = true -> st_client st' = st_client st).

End Vocabulary2.

(** * Properties *)

Local Open Scope list_scope.

(** ** The schema gate *)

Lemma str_in_app (k : string) (xs ys : list string) :
  str_in k (xs ++ ys) = str_in k xs || str_in k ys.
Proof. unfold str_in. apply existsb_app. Qed.

(** The gate looks at the resource only through its [resource_type]. *)
Lemma gate_resource_type (c : client) (r r' : resource) (keys : list string) :
  resource_type r = resource_type r' ->
  _raise_error_if_invalid_keys c r keys = _raise_error_if_invalid_keys c r' keys.
Proof.
  intros Hrt. unfold _raise_error_if_invalid_keys, get_root_keys. now rewrite Hrt.
Qed.

(** For an identity field the gate passes or fails with the root keys; it
    never rejects the key itself. *)
Lemma gate_identity_field (c : client) (r : resource) (key : string) :
  str_in key always_root_keys = true ->
  _raise_error_if_invalid_key c r key =
    if schema_truthy (_get_schema c)
    then result_bind (get_root_keys c r) (fun _ => Ok tt)
    else Ok tt.
Proof.
  intros Hk. unfold _raise_error_if_invalid_key, _raise_error_if_invalid_keys.
  destruct (schema_truthy (_get_schema c)) eqn:Hs; cbn [negb]; [|reflexivity].
  unfold get_root_keys. unfold _get_schema in *.
  destruct (schema c) as [[|e s]|]; try discriminate.
  destruct (schema_get (e :: s) (resource_type r)) as [declared|err]; cbn; [|reflexivity].
  rewrite str_in_app, Hk, orb_true_r. reflexivity.
Qed.

Lemma gate_identity_fields_agree (c : client) (r : resource) (k1 k2 : string) :
  str_in k1 always_root_keys = true ->
  str_in k2 always_root_keys = true ->
  _raise_error_if_invalid_key c r k1 = _raise_error_if_invalid_key c r k2.
Proof. intros H1 H2. now rewrite !gate_identity_field. Qed.

Lemma Resource_id_inv (c : client) (r : resource) (i : value) :
  Resource_id c r = Ok i ->
  _raise_error_if_invalid_key c r "id" = Ok tt /\ i = get_default "id" (fields r) VNone.
Proof.
  unfold Resource_id, AbstractResource_get.
  destruct (_raise_error_if_invalid_key c r "id") as [[]|e]; cbn; [|discriminate].
  intros [= <-]. split; reflexivity.
Qed.

Lemma reference_of_id (c : client) (r : resource) (i : value) :
  Resource_id c r = Ok i ->
  reference c r = Ok (if truthy i then Some (format2 (resource_type r) i) else None).
Proof.
  intros Hi. unfold reference. rewrite Hi. cbn.
  destruct (truthy i); reflexivity.
Qed.

Lemma _get_path_of_id (c : client) (r : resource) (i : value) :
  Resource_id c r = Ok i ->
  _get_path c r =
    Ok (if truthy i then VStr (format2 (resource_type r) i)
        else if is_str (resource_type r) "Bundle" then VStr EmptyString
        else resource_type r).
Proof.
  intros Hi. unfold _get_path. rewrite Hi. cbn.
  destruct (truthy i); [reflexivity|].
  destruct (is_str (resource_type r) "Bundle"); reflexivity.
Qed.

Lemma option_string_eqb_eq (a b : option string) :
  option_string_eqb a b = true <-> a = b.
Proof.
  destruct a as [s|], b as [t|]; cbn; try (split; congruence).
  rewrite String.eqb_eq. split; congruence.
Qed.

(** ** Equality of resources *)

(** C9 (as amended): two resources are equal exactly when their [reference]
    properties are equal, where the reference is the string
    "{resourceType}/{id}" for a truthy id and [None] otherwise; a resource
    without an id has no reference string. *)
Theorem Resource_eq_reference (c : client) (r1 r2 : resource) (i1 i2 : value) :
  Resource_id c r1 = Ok i1 ->
  Resource_id c r2 = Ok i2 ->
  let ref1 := if truthy i1 then Some (format2 (resource_type r1) i1) else None in
  let ref2 := if truthy i2 then Some (format2 (resource_type r2) i2) else None in
  reference c r1 = Ok ref1 /\
  reference c r2 = Ok ref2 /\
  (exists b : bool, Resource_eq c r1 r2 = Ok b /\ (b = true <-> ref1 = ref2)) /\
  (sget "id" (fields r1) = None -> reference c r1 = Ok None).
Proof.
  intros H1 H2 ref1 ref2.
  pose proof (reference_of_id _ _ _ H1) as E1.
  pose proof (reference_of_id _ _ _ H2) as E2.
  repeat split; try assumption.
  - exists (option_string_eqb ref1 ref2). split.
    + unfold Resource_eq. rewrite E1, E2. reflexivity.
    + apply option_string_eqb_eq.
  - intros Hnone. rewrite E1.
    apply Resource_id_inv in H1 as [_ ->].
    unfold get_default. rewrite Hnone. reflexivity.
Qed.

Lemma Resource_eq_reference_witness :
  exists b : bool,
    Resource_eq (example_client true) patient_1 unsaved_patient = Ok b /\
    (b = true <-> Some "Patient/1" = None).
Proof.
  destruct (Resource_eq_reference (example_client true) patient_1 unsaved_patient
              (VStr "1") VNone eq_refl eq_refl) as (_ & _ & Hb & _).
  exact Hb.
Defined.

(** Two unsaved resources of different types compare equal although
    neither has a reference string. *)
Lemma unsaved_resources_equal :
  Resource_eq (example_client true) unsaved_patient unsaved_observation = Ok true /\
  reference (example_client true) unsaved_patient = Ok None /\
  reference (example_client true) unsaved_observation = Ok None /\
  ~ (exists s : string,
        reference (example_client true) unsaved_patient = Ok (Some s) /\
        reference (example_client true) unsaved_observation = Ok (Some s)).
Proof.
  repeat split; try reflexivity.
  intros (s & H & _). discriminate H.
Qed.

(** ** Dictionaries: lookup after update *)

Section DictFacts.
Context {K V : Type} (eqb : K -> K -> bool).
Hypothesis eqb_refl : forall k, eqb k k = true.
Hypothesis eqb_sym : forall a b, eqb a b = eqb b a.
Hypothesis eqb_trans : forall a b c, eqb a b = true -> eqb b c = true -> eqb a c = true.

Lemma dict_get_set_same (k : K) (v : V) (d : list (K * V)) :
  dict_get eqb k (dict_set eqb k v d) = Some v.
Proof using eqb_refl.
  induction d as [|[k' v'] d IH]; cbn.
  - now rewrite eqb_refl.
  - destruct (eqb k k') eqn:E; cbn; rewrite E; [reflexivity | exact IH].
Qed.

Lemma dict_get_set_eqb (k k2 : K) (v : V) (d : list (K * V)) :
  eqb k2 k = true ->
  dict_get eqb k2 (dict_set eqb k v d) = Some v.
Proof using eqb_sym eqb_trans.
  intros Hk. induction d as [|[k' v'] d IH]; cbn.
  - now rewrite Hk.
  - destruct (eqb k k') eqn:E; cbn.
    + now rewrite (eqb_trans _ _ _ Hk E).
    + destruct (eqb k2 k') eqn:E2; [|exact IH].
      assert (eqb k k' = true) as E'
        by (apply eqb_trans with k2; [rewrite eqb_sym|]; assumption).
      congruence.
Qed.

Lemma dict_get_set_other (k k2 : K) (v : V) (d : list (K * V)) :
  eqb k2 k = false ->
  dict_get eqb k2 (dict_set eqb k v d) = dict_get eqb k2 d.
Proof using eqb_sym eqb_trans.
  intros Hk. induction d as [|[k' v'] d IH]; cbn.
  - now rewrite Hk.
  - destruct (eqb k k') eqn:E; cbn.
    + destruct (eqb k2 k') eqn:E2; [|reflexivity].
      assert (eqb k2 k = true) as E'
        by (apply eqb_trans with k'; [|rewrite eqb_sym]; assumption).
      congruence.
    + destruct (eqb k2 k'); [reflexivity | exact IH].
Qed.

Lemma dict_get_filter_out (k : K) (d : list (K * V)) :
  dict_get eqb k (List.filter (fun kv => negb (eqb k kv.1)) d) = None.
Proof using Type.
  induction d as [|[k' v'] d IH]; cbn; [reflexivity|].
  destruct (eqb k k') eqn:E; cbn; [exact IH|]. now rewrite E.
Qed.

End DictFacts.

Lemma scalar_eqb_refl (a : scalar) : scalar_eqb a a = true.
Proof.
  destruct a as [|b|n|s]; cbn; auto using Z.eqb_refl, String.eqb_refl.
  now destruct b.
Qed.

Lemma scalar_eqb_code (a b : scalar) : scalar_eqb a b = true <-> key_code a = key_code b.
Proof.
  destruct a as [|x|n|s], b as [|y|m|t]; cbn; try (split; congruence).
  - destruct x, y; cbn; split; congruence.
  - rewrite Z.eqb_eq. split; [intros <-; reflexivity | now intros [= ->]].
  - rewrite Z.eqb_eq. split; congruence.
  - rewrite Z.eqb_eq. split; congruence.
  - rewrite String.eqb_eq. split; congruence.
Qed.

Lemma scalar_eqb_sym (a b : scalar) : scalar_eqb a b = scalar_eqb b a.
Proof.
  apply eq_true_iff_eq. rewrite !scalar_eqb_code. split; congruence.
Qed.

Lemma scalar_eqb_trans (a b c : scalar) :
  scalar_eqb a b = true -> scalar_eqb b c = true -> scalar_eqb a c = true.
Proof. rewrite !scalar_eqb_code. congruence. Qed.

Lemma sget_sset_same {V : Type} (k : string) (v : V) (d : list (string * V)) :
  sget k (sset k v d) = Some v.
Proof. apply dict_get_set_same, String.eqb_refl. Qed.

Lemma sget_sset_other {V : Type} (k k2 : string) (v : V) (d : list (string * V)) :
  k2 <> k -> sget k2 (sset k v d) = sget k2 d.
Proof.
  intros Hne. apply dict_get_set_other.
  - apply String.eqb_sym.
  - intros a b c. rewrite !String.eqb_eq. congruence.
  - now apply String.eqb_neq.
Qed.

(** ** Running monadic code *)

Section Run.
Context {B : Binding}.

Lemma bind_Ret {A C : Type} (m : M A) (k : A -> M C) (st st1 : state) (a : A) :
  m st = Ret a st1 -> (m ≫= k) st = k a st1.
Proof. intros H. unfold mbind, M_bind. now rewrite H. Qed.

Lemma bind_Raise {A C : Type} (m : M A) (k : A -> M C) (st st1 : state) (e : exn) :
  m st = Raise e st1 -> (m ≫= k) st = Raise e st1.
Proof. intros H. unfold mbind, M_bind. now rewrite H. Qed.

Lemma lift_Ok {A : Type} (r : result A) (a : A) (st : state) :
  r = Ok a -> lift r st = Ret a st.
Proof. now intros ->. Qed.

Lemma lift_Err {A : Type} (r : result A) (e : exn) (st : state) :
  r = Err e -> lift r st = Raise e st.
Proof. now intros ->. Qed.

Lemma read_resource_Ret (l : loc) (r : resource) (st : state) :
  st_resources st !! l = Some r -> read_resource l st = Ret r st.
Proof. intros H. unfold read_resource. now rewrite H. Qed.

Lemma write_resource_Ret (l : loc) (r r' : resource) (st : state) :
  st_resources st !! l = Some r ->
  write_resource l r' st = Ret tt (set_resources (<[l := r']> (st_resources st)) st).
Proof. intros H. unfold write_resource. now rewrite H. Qed.

End Run.

(** Rewrites the head of a sequence with the outcome of its first action. *)
Ltac mstep H := first [ rewrite (bind_Ret _ _ _ _ _ H) | rewrite (bind_Raise _ _ _ _ _ H) ].
Ltac mret := erewrite bind_Ret by reflexivity.

(** ** Field assignment *)

Section SetItem.
Context {B : Binding}.

Lemma AbstractResource_setitem_Ret (st : state) (l : loc) (r : resource) (key : string)
    (v : value) :
  st_resources st !! l = Some r ->
  _raise_error_if_invalid_key (st_client st) r key = Ok tt ->
  AbstractResource_setitem l key v st =
    Ret tt (set_resources
              (<[l := {| resource_type := resource_type r;
                         fields := sset key v (fields r) |}]> (st_resources st)) st).
Proof.
  intros Hl Hgate. unfold AbstractResource_setitem.
  mret. mstep (read_resource_Ret _ _ _ Hl).
  mstep (lift_Ok _ _ st Hgate).
  now apply (write_resource_Ret l r).
Qed.

Lemma Resource_setitem_Ret (st : state) (l : loc) (r : resource) (key : string) (v : value) :
  st_resources st !! l = Some r ->
  String.eqb key "resourceType" && negb (contains "resourceType" (fields r)) = false ->
  _raise_error_if_invalid_key (st_client st) r key = Ok tt ->
  Resource_setitem l key v st =
    Ret tt (set_resources
              (<[l := {| resource_type := resource_type r;
                         fields := sset key v (fields r) |}]> (st_resources st)) st).
Proof.
  intros Hl Hguard Hgate. unfold Resource_setitem.
  mstep (read_resource_Ret _ _ _ Hl). rewrite Hguard.
  now apply AbstractResource_setitem_Ret.
Qed.

(** C1 (what the code does): on a resource that holds [resourceType], an
    assignment to that key is accepted and replaces the stored value; the
    key error is raised only while the key is absent. *)
Theorem Resource_setitem_resourceType (st : state) (l : loc) (r : resource) (v : value) :
  st_resources st !! l = Some r ->
  _raise_error_if_invalid_key (st_client st) r "resourceType" = Ok tt ->
  (contains "resourceType" (fields r) = true ->
   exists st',
     Resource_setitem l "resourceType" v st = Ret tt st' /\
     exists r', st_resources st' !! l = Some r' /\
                sget "resourceType" (fields r') = Some v) /\
  (contains "resourceType" (fields r) = false ->
   Resource_setitem l "resourceType" v st = Raise KeyError st).
Proof.
  intros Hl Hgate. split; intros Hc.
  - eexists. split.
    + apply (Resource_setitem_Ret st l r); [assumption | now rewrite Hc | assumption].
    + eexists. split.
      * cbn. apply list_lookup_insert_eq. now apply lookup_lt_Some in Hl.
      * cbn. apply sget_sset_same.
  - unfold Resource_setitem. mstep (read_resource_Ret _ _ _ Hl).
    now rewrite Hc.
Qed.

End SetItem.

Lemma Resource_setitem_resourceType_witness :
  exists st',
    Resource_setitem 0 "resourceType" (VStr "Observation")
      (example_state true [patient_1] []) = Ret tt st' /\
    exists r', st_resources st' !! 0 = Some r' /\
               sget "resourceType" (fields r') = Some (VStr "Observation").
Proof.
  destruct (Resource_setitem_resourceType (example_state true [patient_1] []) 0 patient_1
              (VStr "Observation") eq_refl eq_refl) as [H _].
  exact (H eq_refl).
Defined.

(** ** The request layer *)

Section Requests.
Context {B : Binding}.

Lemma read_Ret (l : loc) (o : qobj) (st : state) :
  st_heap st !! l = Some o -> read l st = Ret o st.
Proof. intros H. unfold read. now rewrite H. Qed.

Lemma read_dict_Ret (l : loc) (d : list (string * pval)) (st : state) :
  st_heap st !! l = Some (ODict d) -> read_dict l st = Ret d st.
Proof. intros H. unfold read_dict. now mstep (read_Ret _ _ _ H). Qed.

Lemma read_list_Ret (l : loc) (xs : list scalar) (st : state) :
  st_heap st !! l = Some (OList xs) -> read_list l st = Ret xs st.
Proof. intros H. unfold read_list. now mstep (read_Ret _ _ _ H). Qed.

Lemma write_Ret (l : loc) (o o' : qobj) (st : state) :
  st_heap st !! l = Some o ->
  write l o' st = Ret tt (set_heap (<[l := o']> (st_heap st)) st).
Proof. intros H. unfold write. now rewrite H. Qed.

Lemma lookup_alloc (h : list qobj) (o : qobj) : (h ++ [o]) !! length h = Some o.
Proof. rewrite lookup_app_r, Nat.sub_diag by lia. reflexivity. Qed.

Lemma insert_alloc (h : list qobj) (o o' : qobj) : <[length h := o']> (h ++ [o]) = h ++ [o'].
Proof. rewrite insert_app_r_alt, Nat.sub_diag by lia. reflexivity. Qed.

Lemma _do_request_no_params (method : string) (path : value) (data : option value)
    (st : state) :
  _do_request method path data None st =
    let req := plain_request (st_client st) method path data in
    let ans := requests_request req (st_server st) in
    match ans.1 with
    | Ok r => lift (decode_reply r) (requested st req ans.2)
    | Err e => Raise e (requested st req ans.2)
    end.
Proof.
  unfold _do_request, params_or_new.
  assert (alloc (ODict []) st =
          Ret (length (st_heap st)) (set_heap (st_heap st ++ [ODict []]) st)) as H1
    by reflexivity.
  mstep H1.
  assert (read_dict (length (st_heap st)) (set_heap (st_heap st ++ [ODict []]) st) =
          Ret [] (set_heap (st_heap st ++ [ODict []]) st)) as H2
    by (apply read_dict_Ret, lookup_alloc).
  mstep H2.
  erewrite bind_Ret by (eapply write_Ret, lookup_alloc).
  cbn [st_heap set_heap]. rewrite insert_alloc. cbn [dict_set].
  erewrite bind_Ret; cycle 1.
  { unfold view_dict. erewrite bind_Ret by (apply read_dict_Ret, lookup_alloc).
    reflexivity. }
  mret. unfold send, mbind, M_bind, plain_request, requested. cbn.
  destruct (requests_request _ (st_server st)) as [[r|e] srv']; reflexivity.
Qed.

End Requests.

(** ** The resource cache *)

Lemma dict_set_after_default {K V : Type} (eqb : K -> K -> bool) (k : K) (v v0 : V)
    (d : list (K * V)) :
  eqb k k = true ->
  dict_get eqb k d = None ->
  dict_set eqb k v (d ++ [(k, v0)]) = dict_set eqb k v d.
Proof.
  intros Hrefl. induction d as [|[k' v'] d IH]; cbn.
  - now rewrite Hrefl.
  - destruct (eqb k k'); [discriminate|]. intros H. now rewrite IH.
Qed.

Lemma dict_get_app_none {K V : Type} (eqb : K -> K -> bool) (k : K) (d d' : list (K * V)) :
  dict_get eqb k d = None -> dict_get eqb k (d ++ d') = dict_get eqb k d'.
Proof.
  induction d as [|[k' v'] d IH]; cbn; [reflexivity|].
  destruct (eqb k k'); [discriminate | exact IH].
Qed.

Lemma dict_get_app_some {K V : Type} (eqb : K -> K -> bool) (k : K) (v : V)
    (d d' : list (K * V)) :
  dict_get eqb k d = Some v -> dict_get eqb k (d ++ d') = Some v.
Proof.
  induction d as [|[k' v'] d IH]; cbn; [discriminate|].
  destruct (eqb k k'); [trivial | exact IH].
Qed.

Lemma cache_put_vivify (kt ki : scalar) (l : loc) (cache : list (scalar * list (scalar * loc))) :
  dict_set scalar_eqb kt
    (dict_set scalar_eqb ki l
       (match dict_get scalar_eqb kt cache with Some inner => inner | None => [] end))
    (vivify kt cache) = cache_put kt ki l cache.
Proof.
  unfold cache_put, vivify. destruct (dict_get scalar_eqb kt cache) eqn:E; [reflexivity|].
  apply dict_set_after_default; [apply scalar_eqb_refl | exact E].
Qed.

Lemma cache_lookup_put_same (kt ki kt' ki' : scalar) (l : loc)
    (cache : list (scalar * list (scalar * loc))) :
  scalar_eqb kt' kt = true -> scalar_eqb ki' ki = true ->
  cache_lookup kt' ki' (cache_put kt ki l cache) = Some l.
Proof.
  intros Ht Hi. unfold cache_lookup, cache_put.
  rewrite (dict_get_set_eqb _ scalar_eqb_sym scalar_eqb_trans) by exact Ht.
  now apply (dict_get_set_eqb _ scalar_eqb_sym scalar_eqb_trans).
Qed.

Lemma cache_lookup_put_other (kt ki kt' ki' : scalar) (l : loc)
    (cache : list (scalar * list (scalar * loc))) :
  scalar_eqb kt' kt && scalar_eqb ki' ki = false ->
  cache_lookup kt' ki' (cache_put kt ki l cache) = cache_lookup kt' ki' cache.
Proof.
  intros H. unfold cache_lookup, cache_put.
  destruct (scalar_eqb kt' kt) eqn:Ht.
  - cbn in H.
    rewrite (dict_get_set_eqb _ scalar_eqb_sym scalar_eqb_trans) by exact Ht.
    rewrite (dict_get_set_other _ scalar_eqb_sym scalar_eqb_trans) by exact H.
    assert (dict_get scalar_eqb kt' cache = dict_get scalar_eqb kt cache) as ->.
    { clear -Ht. induction cache as [|[k v] cache IH]; cbn; [reflexivity|].
      destruct (scalar_eqb kt' k) eqn:E1, (scalar_eqb kt k) eqn:E2; auto.
      - rewrite scalar_eqb_sym in Ht.
        rewrite (scalar_eqb_trans _ _ _ Ht E1) in E2. discriminate.
      - rewrite (scalar_eqb_trans _ _ _ Ht E2) in E1. discriminate. }
    now destruct (dict_get scalar_eqb kt cache).
  - now rewrite (dict_get_set_other _ scalar_eqb_sym scalar_eqb_trans) by exact Ht.
Qed.

Section Cache.
Context {B : Binding}.

Lemma with_cache_same (st : state) : with_cache (resources_cache (st_client st)) st = st.
Proof. destruct st as [h rs [] srv sent]. reflexivity. Qed.

Lemma cache_getitem_Ret (kt : scalar) (st : state) :
  cache_getitem (VScalar kt) st =
    Ret (kt, match dict_get scalar_eqb kt (resources_cache (st_client st)) with
             | Some inner => inner
             | None => []
             end)
        (with_cache (vivify kt (resources_cache (st_client st))) st).
Proof.
  unfold cache_getitem, vivify. cbn [as_key]. mret. mret.
  destruct (dict_get scalar_eqb kt (resources_cache (st_client st))) eqn:E.
  - now rewrite with_cache_same.
  - reflexivity.
Qed.

Lemma _add_resource_to_cache_off (l : loc) (st : state) :
  without_cache (st_client st) = true -> _add_resource_to_cache l st = Ret tt st.
Proof. intros H. unfold _add_resource_to_cache. mret. now rewrite H. Qed.

Lemma _add_resource_to_cache_Ret (l : loc) (r : resource) (kt ki : scalar) (st : state) :
  without_cache (st_client st) = false ->
  st_resources st !! l = Some r ->
  resource_type r = VScalar kt ->
  Resource_id (st_client st) r = Ok (VScalar ki) ->
  _add_resource_to_cache l st =
    Ret tt (with_cache (cache_put kt ki l (resources_cache (st_client st))) st).
Proof.
  intros Hoff Hl Hrt Hid. unfold _add_resource_to_cache. mret. rewrite Hoff.
  mstep (read_resource_Ret _ _ _ Hl). rewrite Hrt.
  mstep (cache_getitem_Ret kt st).
  erewrite bind_Ret by (apply lift_Ok; exact Hid).
  mret. mret. unfold put_cache, with_cache. cbn.
  now rewrite cache_put_vivify.
Qed.

Lemma _get_resource_from_cache_off (rt i : value) (st : state) :
  without_cache (st_client st) = true -> _get_resource_from_cache rt i st = Ret None st.
Proof. intros H. unfold _get_resource_from_cache. mret. now rewrite H. Qed.

Lemma _get_resource_from_cache_Ret (kt ki : scalar) (st : state) :
  without_cache (st_client st) = false ->
  _get_resource_from_cache (VScalar kt) (VScalar ki) st =
    Ret (cache_lookup kt ki (resources_cache (st_client st)))
        (with_cache (vivify kt (resources_cache (st_client st))) st).
Proof.
  intros Hoff. unfold _get_resource_from_cache. mret. rewrite Hoff.
  mstep (cache_getitem_Ret kt st). mret. unfold cache_lookup. cbn.
  now destruct (dict_get scalar_eqb kt (resources_cache (st_client st))).
Qed.

(** A lookup that hits leaves the cache as it is. *)
Lemma _get_resource_from_cache_hit (kt ki : scalar) (l : loc) (st : state) :
  without_cache (st_client st) = false ->
  cache_lookup kt ki (resources_cache (st_client st)) = Some l ->
  _get_resource_from_cache (VScalar kt) (VScalar ki) st = Ret (Some l) st.
Proof.
  intros Hoff Hhit. rewrite _get_resource_from_cache_Ret, Hhit by exact Hoff.
  unfold vivify. unfold cache_lookup in Hhit.
  destruct (dict_get scalar_eqb kt (resources_cache (st_client st))); [|discriminate].
  now rewrite with_cache_same.
Qed.

End Cache.

(** ** Saving and deleting a resource *)

Section Persistence.
Context {B : Binding}.

Lemma gate_of_id (c : client) (r r' : resource) (i : value) (key : string) :
  Resource_id c r = Ok i ->
  resource_type r' = resource_type r ->
  str_in key always_root_keys = true ->
  _raise_error_if_invalid_key c r' key = Ok tt.
Proof.
  intros Hid Hrt Hkey. apply Resource_id_inv in Hid as [Hgate _].
  unfold _raise_error_if_invalid_key. rewrite (gate_resource_type c r' r) by exact Hrt.
  change (_raise_error_if_invalid_key c r key = Ok tt).
  now rewrite (gate_identity_fields_agree c r key "id").
Qed.

(** C2 (as amended): [save] sends one request, a POST when the id is
    missing or falsy and a PUT otherwise, to "{resourceType}/{id}" when the
    id is truthy, to the empty path for a Bundle without id, and to the bare
    resource type otherwise; when the answer is a document, [meta] and [id]
    are overwritten from it, and the resource is registered in the cache
    under the returned id when caching is enabled. *)
Theorem save_request_and_effect (st : state) (l : loc) (r : resource) (i body : value)
    (rep : reply) (srv' : server) (d : list (string * value)) :
  st_resources st !! l = Some r ->
  Resource_id (st_client st) r = Ok i ->
  serialize r = Ok body ->
  let c := st_client st in
  let verb := if truthy i then "put" else "post" in
  let path := if truthy i then VStr (format2 (resource_type r) i)
              else if is_str (resource_type r) "Bundle" then VStr EmptyString
              else resource_type r in
  let req := plain_request c verb path (Some body) in
  requests_request req (st_server st) = (Ok rep, srv') ->
  decode_reply rep = Ok (VDict d) ->
  let meta' := get_default "meta" d (VDict []) in
  let id' := get_default "id" d VNone in
  let r' := {| resource_type := resource_type r;
               fields := sset "id" id' (sset "meta" meta' (fields r)) |} in
  (without_cache c = false ->
   exists kt ki, resource_type r = VScalar kt /\ id' = VScalar ki) ->
  exists st',
    save l st = Ret tt st' /\
    st_sent st' = st_sent st ++ [req] /\
    st_resources st' = <[l := r']> (st_resources st) /\
    (without_cache c = true -> st_client st' = st_client st) /\
    (without_cache c = false ->
     _get_resource_from_cache (resource_type r) id' st' = Ret (Some l) st').
Proof.
  intros Hl Hid Hser c verb path req Hans Hdoc meta' id' r' Hkeys.
  pose proof (lookup_lt_Some _ _ _ Hl) as Hlt.
  set (st1 := requested st req srv').
  set (r1 := {| resource_type := resource_type r;
                fields := sset "meta" meta' (fields r) |}).
  set (st2 := set_resources (<[l := r1]> (st_resources st)) st1).
  set (st3 := set_resources (<[l := r']> (st_resources st)) st1).
  assert (Resource_setitem l "meta" meta' st1 = Ret tt st2) as Hmeta.
  { apply (Resource_setitem_Ret st1 l r); [exact Hl | reflexivity |].
    now apply (gate_of_id _ r r i). }
  assert (Resource_setitem l "id" id' st2 = Ret tt st3) as Hset.
  { unfold st3. rewrite <- (list_insert_insert_eq (st_resources st) l r' r1).
    apply (Resource_setitem_Ret st2 l r1).
    - cbn. now apply list_lookup_insert_eq.
    - reflexivity.
    - now apply (gate_of_id _ r r1 i). }
  assert (st_resources st3 !! l = Some r') as Hl3
    by (cbn; now apply list_lookup_insert_eq).
  assert (Resource_id (st_client st3) r' = Ok id') as Hid3.
  { unfold Resource_id, AbstractResource_get.
    rewrite (gate_of_id (st_client st) r r' i) by (assumption || reflexivity).
    cbn. unfold get_default. now rewrite sget_sset_same. }
  assert (forall k : M unit,
             (_do_request verb path (Some body) None ≫=
                fun data => match data with
                            | VDict d => Resource_setitem l "meta" (get_default "meta" d (VDict []));;
                                         Resource_setitem l "id" (get_default "id" d VNone);; k
                            | _ => raise AttributeError
                            end) st = k st3) as Hrun.
  { intros k. unfold mbind at 1, M_bind at 1.
    rewrite _do_request_no_params. cbv zeta.
    change (plain_request (st_client st) verb path (Some body)) with req.
    rewrite Hans. cbn [fst snd]. fold st1. rewrite (lift_Ok _ _ st1 Hdoc).
    mstep Hmeta. now mstep Hset. }
  assert (save l st = _add_resource_to_cache l st3) as Hsave.
  { unfold save. mret. mstep (read_resource_Ret _ _ _ Hl).
    mstep (lift_Ok _ _ st Hid).
    mstep (lift_Ok _ _ st (_get_path_of_id _ _ _ Hid)).
    mstep (lift_Ok _ _ st Hser). apply Hrun. }
  destruct (without_cache c) eqn:Hoff.
  - exists st3. rewrite Hsave.
    split; [now apply _add_resource_to_cache_off|].
    repeat split; try reflexivity. discriminate.
  - destruct (Hkeys eq_refl) as (kt & ki & Hkt & Hki).
    exists (with_cache (cache_put kt ki l (resources_cache (st_client st3))) st3).
    rewrite Hsave. split.
    { apply (_add_resource_to_cache_Ret l r'); try assumption. now rewrite <- Hki. }
    repeat split; try reflexivity; [discriminate|].
    intros _. rewrite Hkt, Hki. apply _get_resource_from_cache_hit; [exact Hoff|].
    cbn. apply cache_lookup_put_same; apply scalar_eqb_refl.
Qed.

Lemma _remove_resource_from_cache_Ret (l l0 : loc) (r : resource) (kt ki : scalar)
    (st : state) :
  without_cache (st_client st) = false ->
  st_resources st !! l = Some r ->
  resource_type r = VScalar kt ->
  Resource_id (st_client st) r = Ok (VScalar ki) ->
  cache_lookup kt ki (resources_cache (st_client st)) = Some l0 ->
  _remove_resource_from_cache l st =
    Ret tt (with_cache (cache_del kt ki (resources_cache (st_client st))) st).
Proof.
  intros Hoff Hl Hrt Hid Hhit. unfold _remove_resource_from_cache. mret. rewrite Hoff.
  mstep (read_resource_Ret _ _ _ Hl). rewrite Hrt.
  mstep (cache_getitem_Ret kt st).
  erewrite bind_Ret by (apply lift_Ok; exact Hid).
  mret. unfold cache_lookup in Hhit. unfold cache_del, vivify, dict_del.
  destruct (dict_get scalar_eqb kt (resources_cache (st_client st))) as [inner|];
    [|discriminate].
  cbn [fst snd]. rewrite Hhit. rewrite with_cache_same. now mret.
Qed.

Lemma cache_lookup_del (kt ki : scalar) (cache : list (scalar * list (scalar * loc))) :
  cache_lookup kt ki (cache_del kt ki cache) = None.
Proof.
  unfold cache_lookup, cache_del.
  destruct (dict_get scalar_eqb kt cache) as [inner|] eqn:E; [|now rewrite E].
  rewrite (dict_get_set_same _ scalar_eqb_refl). apply dict_get_filter_out.
Qed.

Lemma _get_resource_from_cache_miss (kt ki : scalar) (inner : list (scalar * loc))
    (st : state) :
  without_cache (st_client st) = false ->
  dict_get scalar_eqb kt (resources_cache (st_client st)) = Some inner ->
  dict_get scalar_eqb ki inner = None ->
  _get_resource_from_cache (VScalar kt) (VScalar ki) st = Ret None st.
Proof.
  intros Hoff Hkt Hki. rewrite _get_resource_from_cache_Ret by exact Hoff.
  unfold cache_lookup, vivify. rewrite Hkt, Hki. now rewrite with_cache_same.
Qed.

(** C8 (as amended): when caching is disabled, or the cache holds an entry
    under the resource's type and id, [delete] first evicts that entry and
    then issues the delete request from the evicted state: whatever the
    request layer returns or raises is the outcome of [delete], and when it
    raises the resource is absent from the cache. *)
Theorem delete_evicts_then_requests (st : state) (l : loc) (r : resource) (i path : value) :
  st_resources st !! l = Some r ->
  Resource_id (st_client st) r = Ok i ->
  _get_path (st_client st) r = Ok path ->
  (without_cache (st_client st) = true \/
   exists kt ki l0,
     resource_type r = VScalar kt /\ i = VScalar ki /\
     cache_lookup kt ki (resources_cache (st_client st)) = Some l0) ->
  exists st1,
    _remove_resource_from_cache l st = Ret tt st1 /\
    st_sent st1 = st_sent st /\
    st_server st1 = st_server st /\
    _get_resource_from_cache (resource_type r) i st1 = Ret None st1 /\
    delete l st = _do_request "delete" path None None st1 /\
    forall e st2,
      _do_request "delete" path None None st1 = Raise e st2 ->
      delete l st = Raise e st2 /\
      _get_resource_from_cache (resource_type r) i st2 = Ret None st2.
Proof.
  intros Hl Hid Hpath Hpre.
  assert (exists st1,
             _remove_resource_from_cache l st = Ret tt st1 /\
             st_sent st1 = st_sent st /\ st_server st1 = st_server st /\
             st_resources st1 = st_resources st /\
             schema (st_client st1) = schema (st_client st) /\
             (forall st2, st_client st2 = st_client st1 ->
                          _get_resource_from_cache (resource_type r) i st2 = Ret None st2))
    as (st1 & Hrm & Hsent & Hsrv & Hres & Hschema & Hgone).
  { destruct Hpre as [Hoff | (kt & ki & l0 & Hkt & Hki & Hhit)].
    - exists st. unfold _remove_resource_from_cache. mret. rewrite Hoff.
      repeat split; try reflexivity.
      intros st2 Hc. apply _get_resource_from_cache_off. now rewrite Hc.
    - destruct (without_cache (st_client st)) eqn:Hoff.
      + exists st. unfold _remove_resource_from_cache. mret. rewrite Hoff.
        repeat split; try reflexivity.
        intros st2 Hc. apply _get_resource_from_cache_off. now rewrite Hc.
      + subst i. eexists. split.
        { apply (_remove_resource_from_cache_Ret l l0 r kt ki); assumption. }
        repeat split; try reflexivity.
        intros st2 Hc. rewrite Hkt.
        pose proof (cache_lookup_del kt ki (resources_cache (st_client st))) as Hdel.
        unfold cache_lookup in Hdel.
        destruct (dict_get scalar_eqb kt (cache_del kt ki (resources_cache (st_client st))))
          as [inner|] eqn:E.
        * apply (_get_resource_from_cache_miss kt ki inner);
            [rewrite Hc; exact Hoff | rewrite Hc; exact E | exact Hdel].
        * exfalso. revert E. unfold cache_del, cache_lookup in *.
          destruct (dict_get scalar_eqb kt (resources_cache (st_client st))); [|discriminate].
          now rewrite (dict_get_set_same _ scalar_eqb_refl). }
  assert (delete l st = _do_request "delete" path None None st1) as Hdel.
  { unfold delete. mstep Hrm. mret.
    assert (st_resources st1 !! l = Some r) as Hl1 by now rewrite Hres.
    mstep (read_resource_Ret _ _ _ Hl1).
    assert (_get_path (st_client st1) r = Ok path) as Hpath1.
    { rewrite <- Hpath. unfold _get_path, Resource_id, AbstractResource_get,
        _raise_error_if_invalid_key, _raise_error_if_invalid_keys, get_root_keys, _get_schema.
      now rewrite Hschema. }
    now mstep (lift_Ok _ _ st1 Hpath1). }
  exists st1. repeat split; try assumption.
  - now apply Hgone.
  - now rewrite Hdel.
  - apply Hgone. revert H. rewrite _do_request_no_params. cbv zeta.
    destruct (requests_request _ (st_server st1)) as [[rep|e'] srv']; cbn [fst snd].
    + unfold lift. destruct (decode_reply rep); [discriminate|]. now intros [= _ <-].
    + now intros [= _ <-].
Qed.

End Persistence.

Lemma save_request_and_effect_witness :
  exists st',
    save 0 (example_state true [unsaved_patient] [answer 201 "patient-42"]) = Ret tt st' /\
    st_sent st' =
      [{| method := "post"; req_url := "http://fhir.test/Patient?_format=json";
          req_json := Some (VDict (fields unsaved_patient)); req_authorization := None |}] /\
    _get_resource_from_cache (VStr "Patient") (VStr "42") st' = Ret (Some 0) st'.
Proof.
  destruct (save_request_and_effect
              (example_state true [unsaved_patient] [answer 201 "patient-42"]) 0
              unsaved_patient VNone (VDict (fields unsaved_patient))
              {| status_code := 201; content := "patient-42" |} []
              [("resourceType", VStr "Patient"); ("id", VStr "42");
               ("meta", VDict [("versionId", VStr "1")])]
              eq_refl eq_refl eq_refl eq_refl eq_refl)
    as (st' & Hsave & Hsent & _ & _ & Hcache).
  - intros _. exists (SStr "Patient"), (SStr "42"). split; reflexivity.
  - exists st'. split; [exact Hsave|]. split; [exact Hsent|]. exact (Hcache eq_refl).
Defined.

(** A Bundle without id is posted to the empty path, not to "Bundle"; and
    with caching disabled (the default of [Client]) a successful [save]
    registers nothing. *)
Lemma save_unsaved_bundle :
  exists st',
    save 0 (example_state false [unsaved_bundle] [answer 200 "transaction-response"])
      = Ret tt st' /\
    map method (st_sent st') = ["post"] /\
    map req_url (st_sent st') = ["http://fhir.test/?_format=json"] /\
    map req_url (st_sent st') <> ["http://fhir.test/Bundle?_format=json"] /\
    resources_cache (st_client st') = [] /\
    _get_resource_from_cache (VStr "Bundle") (VStr "tx-1") st' = Ret None st'.
Proof.
  eexists. split; [vm_compute; reflexivity|].
  repeat split; try reflexivity. discriminate.
Qed.

Lemma delete_evicts_then_requests_witness :
  exists st1 st2,
    _remove_resource_from_cache 0
      (with_cache [(SStr "Patient", [(SStr "1", 0)])]
         (example_state true [patient_1] [answer 503 "unavailable"])) = Ret tt st1 /\
    delete 0
      (with_cache [(SStr "Patient", [(SStr "1", 0)])]
         (example_state true [patient_1] [answer 503 "unavailable"]))
      = Raise (OperationOutcome "unavailable") st2 /\
    _get_resource_from_cache (VStr "Patient") (VStr "1") st2 = Ret None st2.
Proof.
  destruct (delete_evicts_then_requests
              (with_cache [(SStr "Patient", [(SStr "1", 0)])]
                 (example_state true [patient_1] [answer 503 "unavailable"]))
              0 patient_1 (VStr "1") (VStr "Patient/1") eq_refl eq_refl eq_refl)
    as (st1 & Hrm & _ & _ & _ & Hdel & Hfail).
  - right. exists (SStr "Patient"), (SStr "1"), 0. repeat split; reflexivity.
  - exists st1. eexists. split; [exact Hrm|].
    apply Hfail. injection Hrm as <-. vm_compute. reflexivity.
Defined.

(** With caching enabled, deleting a resource that was never cached fails
    with a key error before any request is sent; the failure the server
    would have answered with is not what [delete] raises. *)
Lemma delete_uncached_resource :
  (exists st2,
      _do_request "delete" (VStr "Patient/1") None None
        (example_state true [patient_1] [answer 503 "unavailable"])
        = Raise (OperationOutcome "unavailable") st2) /\
  (exists st',
      delete 0 (example_state true [patient_1] [answer 503 "unavailable"])
        = Raise KeyError st' /\
      st_sent st' = [] /\
      st_server st' = [answer 503 "unavailable"]).
Proof.
  split; eexists; [vm_compute; reflexivity|].
  split; [vm_compute; reflexivity|]. split; reflexivity.
Qed.

(** ** Inversion of runs, and relations kept by every step *)

Section Frames.
Context {B : Binding}.

Lemma bind_Ret_inv {A C : Type} (m : M A) (k : A -> M C) (st st' : state) (b : C) :
  (m ≫= k) st = Ret b st' ->
  exists a st1, m st = Ret a st1 /\ k a st1 = Ret b st'.
Proof.
  unfold mbind, M_bind. destruct (m st) as [a st1|e st1| |]; try discriminate.
  intros H. now exists a, st1.
Qed.

Lemma lift_Ret_inv {A : Type} (r : result A) (a : A) (st st' : state) :
  lift r st = Ret a st' -> r = Ok a /\ st' = st.
Proof. destruct r; cbn; [intros [= -> ->]; now split | discriminate]. Qed.

Variable R : state -> state -> Prop.
Hypothesis R_refl : forall st, R st st.
Hypothesis R_trans : forall a b c, R a b -> R b c -> R a c.

Lemma keeps_ret {A : Type} (a : A) : keeps R (ret a).
Proof using R_refl. intros st st' [= <-]. apply R_refl. Qed.

Lemma keeps_raise {A : Type} (e : exn) : keeps R (raise (A := A) e).
Proof using R_refl. intros st st' [= <-]. apply R_refl. Qed.

Lemma keeps_fault {A : Type} : keeps R (fault (A := A)).
Proof using Type. intros st st' [=]. Qed.

Lemma keeps_lift {A : Type} (r : result A) : keeps R (lift r).
Proof using R_refl. destruct r; [apply keeps_ret | apply keeps_raise]. Qed.

Lemma keeps_bind {A C : Type} (m : M A) (k : A -> M C) :
  keeps R m -> (forall a, keeps R (k a)) -> keeps R (m ≫= k).
Proof using R_trans.
  intros Hm Hk st st'. unfold mbind, M_bind.
  specialize (Hm st). destruct (m st) as [a st1|e st1| |]; cbn; try discriminate.
  - intros H. apply (R_trans _ st1); [now apply Hm | now apply (Hk a)].
  - intros [= <-]. now apply Hm.
Qed.

Lemma keeps_get_client : keeps R get_client.
Proof using R_refl. intros st st' [= <-]. apply R_refl. Qed.

Lemma keeps_read (l : loc) : keeps R (read l).
Proof using R_refl.
  intros st st'. unfold read. destruct (st_heap st !! l); [|discriminate].
  intros [= <-]. apply R_refl.
Qed.

Lemma keeps_read_list (l : loc) : keeps R (read_list l).
Proof using R_refl R_trans.
  apply keeps_bind; [apply keeps_read|]. intros []; [apply keeps_ret | apply keeps_fault].
Qed.

Lemma keeps_read_dict (l : loc) : keeps R (read_dict l).
Proof using R_refl R_trans.
  apply keeps_bind; [apply keeps_read|]. intros []; [apply keeps_fault | apply keeps_ret].
Qed.

Lemma keeps_map_m {A C : Type} (f : A -> M C) (xs : list A) :
  (forall x, keeps R (f x)) -> keeps R (map_m f xs).
Proof using R_refl R_trans.
  intros Hf. induction xs as [|x xs IH]; cbn [map_m]; [apply keeps_ret|].
  apply keeps_bind; [apply Hf|]. intros y.
  apply keeps_bind; [apply IH|]. intros ys. apply keeps_ret.
Qed.

End Frames.

Section Entities.
Context {B : Binding}.

Lemma same_entities_refl (st : state) : same_entities st st.
Proof. now split. Qed.

Lemma same_entities_trans (a b c : state) :
  same_entities a b -> same_entities b c -> same_entities a c.
Proof. intros [H1 H2] [H3 H4]. split; congruence. Qed.

Lemma keeps_entities_alloc (o : qobj) : keeps same_entities (alloc o).
Proof. intros st st' [= <-]. now split. Qed.

Lemma keeps_entities_write (l : loc) (o : qobj) : keeps same_entities (write l o).
Proof.
  intros st st'. unfold write. destruct (st_heap st !! l); [|discriminate].
  intros [= <-]. now split.
Qed.

Lemma keeps_entities_send (req : request) : keeps same_entities (send req).
Proof.
  intros st st'. unfold send.
  destruct (requests_request req (st_server st)).1; intros [= <-]; now split.
Qed.

Lemma keeps_entities_do_request (method : string) (path : value) (data : option value)
    (params : option loc) :
  keeps same_entities (_do_request method path data params).
Proof.
  pose proof same_entities_refl as Hr. pose proof same_entities_trans as Ht.
  unfold _do_request.
  apply keeps_bind; [assumption| |].
  { unfold params_or_new. destruct params as [p|]; [|apply keeps_entities_alloc].
    apply keeps_bind; [assumption|now apply keeps_read_dict|].
    intros []; [apply keeps_entities_alloc | now apply keeps_ret]. }
  intros p. apply keeps_bind; [assumption|now apply keeps_read_dict|].
  intros d. apply keeps_bind; [assumption|apply keeps_entities_write|].
  intros _. apply keeps_bind; [assumption| |].
  { unfold view_dict. apply keeps_bind; [assumption|now apply keeps_read_dict|].
    intros d'. apply keeps_map_m; try assumption.
    intros [k []]; unfold view_entry; cbn [snd fst]; [now apply keeps_ret|].
    apply keeps_bind; [assumption|now apply keeps_read_list|].
    intros xs. now apply keeps_ret. }
  intros v. apply keeps_bind; [assumption|now apply keeps_get_client|].
  intros c. apply keeps_bind; [assumption|apply keeps_entities_send|].
  intros r. now apply keeps_lift.
Qed.

(** C5: when the document that [fetch] receives is not a Bundle, [fetch]
    fails with [InvalidResponse]; the cache, like the rest of the client and
    the resources, is as before the call. *)
Theorem fetch_non_bundle (st st1 : state) (s : searchset) (skip_caching : bool)
    (bd : list (string * value)) :
  _fetch_resource (VStr (ss_resource_type s)) (Some (ss_params s)) st = Ret (VDict bd) st1 ->
  is_str (get_default "resourceType" bd VNone) "Bundle" = false ->
  exists msg,
    fetch s skip_caching st = Raise (InvalidResponse msg) st1 /\
    resources_cache (st_client st1) = resources_cache (st_client st) /\
    st_client st1 = st_client st /\
    st_resources st1 = st_resources st.
Proof.
  intros Hdoc Hnot. eexists. split.
  - unfold fetch. mstep Hdoc. rewrite Hnot. reflexivity.
  - assert (same_entities st st1) as [Hc Hr].
    { apply (keeps_entities_do_request "get" (VStr (ss_resource_type s)) None
               (Some (ss_params s))).
      unfold _fetch_resource in Hdoc. now rewrite Hdoc. }
    now rewrite Hc.
Qed.

End Entities.

Lemma fetch_non_bundle_witness :
  exists msg st1,
    fetch {| ss_resource_type := "Patient"; ss_params := 0 |} false
      (set_heap [ODict []] (example_state true [] [answer 200 "outcome"]))
      = Raise (InvalidResponse msg) st1 /\
    resources_cache (st_client st1) = [].
Proof.
  destruct (fetch_non_bundle
              (set_heap [ODict []] (example_state true [] [answer 200 "outcome"]))
              (@Build_state scripted
                 [ODict []; ODict [("_format", PScalar (SStr "json"))]] []
                 (example_client true) []
                 [{| method := "get"; req_url := "http://fhir.test/Patient?_format=json";
                     req_json := None; req_authorization := None |}])
              {| ss_resource_type := "Patient"; ss_params := 0 |} false
              [("resourceType", VStr "OperationOutcome")] eq_refl eq_refl)
    as (msg & Hfetch & Hcache & _).
  exists msg. eexists. split; [exact Hfetch | exact Hcache].
Defined.

(** ** Materialising the entries of a Bundle *)

Section Fetch.
Context {B : Binding}.

Lemma is_str_true (v : value) (s : string) : is_str v s = true <-> v = VStr s.
Proof.
  destruct v as [[| | |t]| |]; cbn; try (split; congruence).
  rewrite String.eqb_eq. split; congruence.
Qed.

Lemma Resource_init_inv (rt : value) (kwargs : list (string * value)) (st st1 : state)
    (l : loc) :
  Resource_init rt kwargs st = Ret l st1 ->
  exists fs,
    l = length (st_resources st) /\
    st1 = set_resources (st_resources st ++ [{| resource_type := rt; fields := fs |}]) st.
Proof.
  unfold Resource_init. intros H.
  apply bind_Ret_inv in H as (fs & st0 & Hconv & H).
  apply lift_Ret_inv in Hconv as [_ ->].
  destruct (collides ["self"; "client"] fs); [discriminate|].
  apply bind_Ret_inv in H as (c & st0 & [= <- <-] & H).
  apply bind_Ret_inv in H as ([] & st0 & Hgate & H).
  apply lift_Ret_inv in Hgate as [_ ->].
  injection H as <- <-. now exists fs.
Qed.

Lemma Client_resource_inv (rt : value) (kwargs : list (string * value)) (st st1 : state)
    (l : loc) :
  Client_resource rt kwargs st = Ret l st1 ->
  exists fs,
    l = length (st_resources st) /\
    st1 = set_resources (st_resources st ++ [{| resource_type := rt; fields := fs |}]) st.
Proof.
  unfold Client_resource. intros H.
  destruct (collides ["self"; "client"; "resource_type"] kwargs).
  - destruct rt as [[]| |]; discriminate.
  - destruct rt as [[]| |]; try discriminate; now apply Resource_init_inv in H.
Qed.

Lemma _add_resource_to_cache_inv (l : loc) (r : resource) (st st1 : state) :
  _add_resource_to_cache l st = Ret tt st1 ->
  st_resources st !! l = Some r ->
  without_cache (st_client st) = false ->
  exists k,
    cache_key (st_client st) r = Some k /\
    st1 = with_cache (cache_put k.1 k.2 l (resources_cache (st_client st))) st.
Proof.
  intros H Hl Hoff. unfold cache_key.
  destruct (resource_type r) as [kt| |] eqn:Hrt.
  2,3: exfalso; revert H; unfold _add_resource_to_cache; mret; rewrite Hoff;
       mstep (read_resource_Ret _ _ _ Hl); rewrite Hrt; unfold cache_getitem; cbn [as_key];
       erewrite bind_Raise by reflexivity; discriminate.
  destruct (Resource_id (st_client st) r) as [[ki| |]|e] eqn:Hid.
  - exists (kt, ki). split; [reflexivity|].
    rewrite (_add_resource_to_cache_Ret l r kt ki st) in H by assumption.
    now injection H.
  - exfalso. revert H. unfold _add_resource_to_cache. mret. rewrite Hoff.
    mstep (read_resource_Ret _ _ _ Hl). rewrite Hrt. mstep (cache_getitem_Ret kt st).
    erewrite bind_Ret by (apply lift_Ok; exact Hid).
    erewrite bind_Raise by reflexivity. discriminate.
  - exfalso. revert H. unfold _add_resource_to_cache. mret. rewrite Hoff.
    mstep (read_resource_Ret _ _ _ Hl). rewrite Hrt. mstep (cache_getitem_Ret kt st).
    erewrite bind_Ret by (apply lift_Ok; exact Hid).
    erewrite bind_Raise by reflexivity. discriminate.
  - exfalso. revert H. unfold _add_resource_to_cache. mret. rewrite Hoff.
    mstep (read_resource_Ret _ _ _ Hl). rewrite Hrt. mstep (cache_getitem_Ret kt st).
    erewrite bind_Raise by (apply lift_Err; exact Hid). discriminate.
Qed.

Lemma lookup_new {A : Type} (xs : list A) (x : A) : (xs ++ [x]) !! length xs = Some x.
Proof. rewrite lookup_app_r, Nat.sub_diag by lia. reflexivity. Qed.

(** What one turn of the loop of [fetch] does to the state: one resource is
    added to the store and, with caching, filed in the cache. *)
Lemma _perform_resource_inv (s : searchset) (data : value) (skip_caching : bool)
    (st st1 : state) (l : loc) :
  _perform_resource s data skip_caching st = Ret l st1 ->
  exists r,
    l = length (st_resources st) /\
    (exists kvs, data = VDict kvs /\
                 resource_type r = get_default "resourceType" kvs VNone) /\
    ((skip_caching || without_cache (st_client st) = true /\
      st1 = set_resources (st_resources st ++ [r]) st) \/
     (skip_caching = false /\ without_cache (st_client st) = false /\
      exists k,
        cache_key (st_client st) r = Some k /\
        st1 = with_cache (cache_put k.1 k.2 l (resources_cache (st_client st)))
                (set_resources (st_resources st ++ [r]) st))).
Proof.
  unfold _perform_resource. destruct data as [a|xs|kvs]; try discriminate.
  intros H. apply bind_Ret_inv in H as (l0 & st0 & Hnew & H).
  apply Client_resource_inv in Hnew as (fs & -> & ->).
  apply bind_Ret_inv in H as ([] & st2 & Hadd & [= <- <-]).
  exists {| resource_type := get_default "resourceType" kvs VNone; fields := fs |}.
  split; [reflexivity|]. split; [exists kvs; split; reflexivity|].
  destruct skip_caching.
  - injection Hadd as <-. left. now split.
  - destruct (without_cache (st_client st)) eqn:Hoff.
    + rewrite _add_resource_to_cache_off in Hadd by exact Hoff.
      injection Hadd as <-. left. now split.
    + right. split; [reflexivity|]. split; [reflexivity|].
      eapply _add_resource_to_cache_inv in Hadd as (k & Hk & ->);
        [|apply lookup_new|exact Hoff].
      now exists k.
Qed.

Lemma cache_key_schema (c c' : client) (r : resource) :
  schema c' = schema c -> cache_key c' r = cache_key c r.
Proof.
  intros H. unfold cache_key, Resource_id, AbstractResource_get,
    _raise_error_if_invalid_key, _raise_error_if_invalid_keys, get_root_keys, _get_schema.
  now rewrite H.
Qed.

Lemma same_key_refl (k : scalar * scalar) : same_key k k = true.
Proof. unfold same_key. now rewrite !scalar_eqb_refl. Qed.

Lemma cached_intro (st : state) (l l' : loc) (r r' : resource) (k k' : scalar * scalar) :
  st_resources st !! l = Some r ->
  cache_key (st_client st) r = Some k ->
  cache_lookup k.1 k.2 (resources_cache (st_client st)) = Some l' ->
  l <= l' ->
  st_resources st !! l' = Some r' ->
  cache_key (st_client st) r' = Some k' ->
  same_key k k' = true ->
  cached st l.
Proof. intros. exists r, k, l', r', k'. tauto. Qed.

(** Filing a new resource keeps the earlier ones filed. *)
Lemma cached_step (st : state) (r : resource) (k : scalar * scalar) :
  cache_key (st_client st) r = Some k ->
  let lk := length (st_resources st) in
  let st1 := with_cache (cache_put k.1 k.2 lk (resources_cache (st_client st)))
               (set_resources (st_resources st ++ [r]) st) in
  (forall l, cached st l -> cached st1 l) /\ cached st1 lk.
Proof.
  intros Hk lk st1.
  assert (forall r0, cache_key (st_client st1) r0 = cache_key (st_client st) r0) as Hkey
    by (intros r0; now apply cache_key_schema).
  assert (st_resources st1 !! lk = Some r) as Hlk by apply lookup_new.
  split.
  - intros l (r0 & k0 & l' & r' & k' & Hl & Hk0 & Hhit & Hle & Hl' & Hk' & Hsame).
    pose proof (lookup_lt_Some _ _ _ Hl) as Hlt.
    destruct (same_key k0 k) eqn:Hs.
    + apply (cached_intro st1 l lk r0 r k0 k).
      * cbn. now apply lookup_app_l_Some.
      * now rewrite Hkey.
      * cbn. unfold same_key in Hs. apply andb_true_iff in Hs as [H1 H2].
        now apply cache_lookup_put_same.
      * unfold lk. lia.
      * exact Hlk.
      * now rewrite Hkey.
      * exact Hs.
    + apply (cached_intro st1 l l' r0 r' k0 k').
      * cbn. now apply lookup_app_l_Some.
      * now rewrite Hkey.
      * cbn. rewrite cache_lookup_put_other; assumption.
      * exact Hle.
      * cbn. now apply lookup_app_l_Some.
      * now rewrite Hkey.
      * exact Hsame.
  - apply (cached_intro st1 lk lk r r k k).
    + exact Hlk.
    + now rewrite Hkey.
    + cbn. apply cache_lookup_put_same; apply scalar_eqb_refl.
    + lia.
    + exact Hlk.
    + now rewrite Hkey.
    + apply same_key_refl.
Qed.

Lemma filter_seq_first (P : nat -> bool) (base n : nat) :
  List.filter P (seq base (S n)) =
    (if P base then [base] else []) ++ List.filter P (seq (S base) n).
Proof. cbn. now destruct (P base). Qed.

(** The loop of [fetch]: one new resource per entry, in order; the result
    collects the new resources of the declared type; with caching every new
    resource is filed. *)
Lemma fetch_loop_inv (s : searchset) (skip_caching : bool) (datas : list value) :
  forall (acc : list loc) (st st' : state) (rs : list loc),
    fetch_loop s skip_caching datas acc st = Ret rs st' ->
    (exists news, st_resources st' = st_resources st ++ news /\
                  length news = length datas) /\
    rs = acc ++ List.filter (declared_at s (st_resources st'))
                  (seq (length (st_resources st)) (length datas)) /\
    without_cache (st_client st') = without_cache (st_client st) /\
    (skip_caching = false -> without_cache (st_client st) = false ->
     forall base,
       (forall l, base <= l < length (st_resources st) -> cached st l) ->
       forall l, base <= l < length (st_resources st') -> cached st' l).
Proof.
  induction datas as [|data datas IH]; intros acc st st' rs H.
  - injection H as <- <-. split; [exists []; now rewrite app_nil_r|].
    split; [now rewrite app_nil_r|]. split; [reflexivity|]. auto.
  - cbn [fetch_loop] in H.
    apply bind_Ret_inv in H as (l & st1 & Hperf & H).
    apply _perform_resource_inv in Hperf as (r & -> & _ & Hst1).
    assert (st_resources st1 = st_resources st ++ [r] /\
            without_cache (st_client st1) = without_cache (st_client st)) as [Hres Hoff1].
    { destruct Hst1 as [[_ ->]|(_ & _ & k & _ & ->)]; now split. }
    assert (st_resources st1 !! length (st_resources st) = Some r) as Hl
      by (rewrite Hres; apply lookup_new).
    rewrite (bind_Ret _ _ _ _ _ (read_resource_Ret _ _ _ Hl)) in H.
    apply IH in H as ((news & Hnews & Hlen) & Hrs & Hoff & Hcached).
    assert (st_resources st' !! length (st_resources st) = Some r) as Hl'
      by (rewrite Hnews; now apply lookup_app_l_Some).
    split; [|split; [|split]].
    + exists (r :: news). rewrite Hnews, Hres, <- app_assoc. cbn. split; [reflexivity|lia].
    + rewrite Hrs, Hres, length_app. cbn [length].
      replace (length (st_resources st) + 1) with (S (length (st_resources st))) by lia.
      rewrite filter_seq_first. unfold declared_at at 2. rewrite Hl'.
      destruct (is_str (resource_type r) (ss_resource_type s)).
      * now rewrite <- app_assoc.
      * reflexivity.
    + congruence.
    + intros Hskip Hon base Hbase l Hl2.
      destruct Hst1 as [[Hor _]|(_ & _ & k & Hk & Hst1)].
      { rewrite Hskip, Hon in Hor. discriminate. }
      apply (Hcached Hskip) with base; [congruence| |exact Hl2].
      intros l0 Hl0. subst st1.
      destruct (cached_step st r k Hk) as [Hold Hnew].
      cbn in Hl0. rewrite length_app in Hl0. cbn in Hl0.
      destruct (decide (l0 = length (st_resources st))) as [->|Hne].
      * exact Hnew.
      * apply Hold, Hbase. lia.
Qed.

End Fetch.

Section FetchClaims.
Context {B : Binding}.

Lemma fetch_inv (s : searchset) (skip_caching : bool) (st st' : state) (rs : list loc) :
  fetch s skip_caching st = Ret rs st' ->
  exists bd st1 entries datas,
    _fetch_resource (VStr (ss_resource_type s)) (Some (ss_params s)) st = Ret (VDict bd) st1 /\
    is_str (get_default "resourceType" bd VNone) "Bundle" = true /\
    iterate (get_default "entry" bd (VList [])) = Ok entries /\
    map_result (fun res => getitem res "resource") entries = Ok datas /\
    fetch_loop s skip_caching datas [] st1 = Ret rs st'.
Proof.
  unfold fetch. intros H. apply bind_Ret_inv in H as (doc & st1 & Hdoc & H).
  destruct doc as [a|xs|bd]; try discriminate.
  destruct (is_str (get_default "resourceType" bd VNone) "Bundle") eqn:Hb; [|discriminate].
  cbn [negb] in H.
  apply bind_Ret_inv in H as (entries & st2 & Hentries & H).
  apply lift_Ret_inv in Hentries as [Hentries ->].
  apply bind_Ret_inv in H as (datas & st2 & Hdatas & H).
  apply lift_Ret_inv in Hdatas as [Hdatas ->].
  now exists bd, st1, entries, datas.
Qed.

Lemma map_result_length {A C : Type} (f : A -> result C) (xs : list A) (ys : list C) :
  map_result f xs = Ok ys -> length ys = length xs.
Proof.
  revert ys. induction xs as [|x xs IH]; cbn; intros ys.
  - now intros [= <-].
  - destruct (f x); cbn; [|discriminate].
    destruct (map_result f xs); cbn; [|discriminate].
    intros [= <-]. cbn. now rewrite (IH _ eq_refl).
Qed.

(** What [fetch] returns: of the resources it has added to the store, in
    order, those that have the declared type. *)
Lemma fetch_result (s : searchset) (skip_caching : bool) (st st' : state) (rs : list loc) :
  fetch s skip_caching st = Ret rs st' ->
  rs = List.filter (declared_at s (st_resources st'))
         (seq (length (st_resources st))
              (length (st_resources st') - length (st_resources st))).
Proof.
  intros H. apply fetch_inv in H as (bd & st1 & entries & datas & Hdoc & _ & _ & _ & Hloop).
  assert (same_entities st st1) as [_ Hres].
  { apply (keeps_entities_do_request "get" (VStr (ss_resource_type s)) None
             (Some (ss_params s))).
    unfold _fetch_resource in Hdoc. now rewrite Hdoc. }
  apply fetch_loop_inv in Hloop as ((news & Hnews & Hlen) & Hrs & _).
  cbn [app] in Hrs. rewrite Hres in Hrs, Hnews.
  assert (length (st_resources st') - length (st_resources st) = length datas) as ->
    by (rewrite Hnews, length_app; lia).
  exact Hrs.
Qed.

(** C6: the list that [fetch] returns holds only resources whose type is
    the declared type of the SearchSet; it is the list of the resources made
    from the Bundle, in order, with those of other types left out. *)
Theorem fetch_only_declared_type (s : searchset) (skip_caching : bool) (st st' : state)
    (rs : list loc) :
  fetch s skip_caching st = Ret rs st' ->
  (forall l, In l rs ->
     exists r, st_resources st' !! l = Some r /\
               resource_type r = VStr (ss_resource_type s)) /\
  rs = List.filter (declared_at s (st_resources st'))
         (seq (length (st_resources st))
              (length (st_resources st') - length (st_resources st))).
Proof.
  intros H. pose proof (fetch_result _ _ _ _ _ H) as Hrs.
  split; [|exact Hrs].
  intros l Hin. rewrite Hrs in Hin. apply filter_In in Hin as [_ Hd].
  unfold declared_at in Hd. destruct (st_resources st' !! l) as [r|]; [|discriminate].
  exists r. split; [reflexivity|]. now apply is_str_true.
Qed.

(** C10: with caching enabled and [skip_caching] false, [fetch] makes one
    resource per entry of the Bundle and files every one of them in the
    cache, whatever its type; the filter on the declared type bears on the
    returned list only. *)
Theorem fetch_caches_every_resource (s : searchset) (st st' : state) (rs : list loc) :
  without_cache (st_client st) = false ->
  fetch s false st = Ret rs st' ->
  (exists bd st1 entries,
     _fetch_resource (VStr (ss_resource_type s)) (Some (ss_params s)) st
       = Ret (VDict bd) st1 /\
     iterate (get_default "entry" bd (VList [])) = Ok entries /\
     length (st_resources st') = length (st_resources st) + length entries) /\
  (forall l, length (st_resources st) <= l < length (st_resources st') -> cached st' l) /\
  rs = List.filter (declared_at s (st_resources st'))
         (seq (length (st_resources st))
              (length (st_resources st') - length (st_resources st))).
Proof.
  intros Hon H. pose proof (fetch_result _ _ _ _ _ H) as Hrs.
  apply fetch_inv in H as (bd & st1 & entries & datas & Hdoc & _ & Hent & Hdatas & Hloop).
  assert (same_entities st st1) as [Hc Hres].
  { apply (keeps_entities_do_request "get" (VStr (ss_resource_type s)) None
             (Some (ss_params s))).
    unfold _fetch_resource in Hdoc. now rewrite Hdoc. }
  apply fetch_loop_inv in Hloop as ((news & Hnews & Hlen) & _ & _ & Hcached).
  apply map_result_length in Hdatas.
  split; [|split; [|exact Hrs]].
  - exists bd, st1, entries. split; [exact Hdoc|]. split; [exact Hent|].
    rewrite Hnews, length_app, Hres. lia.
  - intros l Hl. apply (Hcached eq_refl) with (length (st_resources st)).
    + now rewrite Hc.
    + intros l0 Hl0. rewrite Hres in Hl0. lia.
    + exact Hl.
Qed.

End FetchClaims.

Lemma fetch_only_declared_type_witness :
  exists st',
    fetch {| ss_resource_type := "Patient"; ss_params := 0 |} true
      (set_heap [ODict []] (example_state true [] [answer 200 "bundle-mixed"]))
      = Ret [0] st' /\
    map resource_type (st_resources st') = [VStr "Patient"; VStr "Observation"] /\
    forall l, In l [0] ->
      exists r, st_resources st' !! l = Some r /\ resource_type r = VStr "Patient".
Proof.
  eexists. split; [vm_compute; reflexivity|]. split; [reflexivity|].
  refine (proj1 (fetch_only_declared_type
                   {| ss_resource_type := "Patient"; ss_params := 0 |} true
                   (set_heap [ODict []] (example_state true [] [answer 200 "bundle-mixed"]))
                   _ [0] _)).
  vm_compute. reflexivity.
Defined.

Lemma fetch_caches_every_resource_witness :
  exists st',
    fetch {| ss_resource_type := "Patient"; ss_params := 0 |} false
      (set_heap [ODict []] (example_state true [] [answer 200 "bundle-mixed"]))
      = Ret [0] st' /\
    map resource_type (st_resources st') = [VStr "Patient"; VStr "Observation"] /\
    cache_lookup (SStr "Observation") (SStr "7") (resources_cache (st_client st')) = Some 1 /\
    forall l, 0 <= l < 2 -> cached st' l.
Proof.
  assert (exists st',
             fetch {| ss_resource_type := "Patient"; ss_params := 0 |} false
               (set_heap [ODict []] (example_state true [] [answer 200 "bundle-mixed"]))
               = Ret [0] st' /\
             map resource_type (st_resources st') = [VStr "Patient"; VStr "Observation"] /\
             cache_lookup (SStr "Observation") (SStr "7") (resources_cache (st_client st'))
               = Some 1) as (st' & Hfetch & Htypes & Hobs).
  { eexists. split; [vm_compute; reflexivity|]. split; reflexivity. }
  exists st'. split; [exact Hfetch|]. split; [exact Htypes|]. split; [exact Hobs|].
  destruct (fetch_caches_every_resource
              {| ss_resource_type := "Patient"; ss_params := 0 |}
              (set_heap [ODict []] (example_state true [] [answer 200 "bundle-mixed"]))
              st' [0] eq_refl Hfetch) as (_ & Hcached & _).
  intros l Hl. apply Hcached.
  apply (f_equal (@length value)) in Htypes. rewrite length_map in Htypes.
  rewrite Htypes. exact Hl.
Defined.

(** ** Fetching all pages *)

Section FetchAll.
Context {B : Binding}.

Lemma fetch_all_loop_pages (s : searchset) (skip_caching : bool) (n : Z) (st st' : state)
    (rss : list (list loc)) :
  pages_until_empty s skip_caching n st rss st' ->
  forall (fuel : nat) (acc : list loc),
    length rss < fuel ->
    fetch_all_loop fuel s skip_caching n acc st = Ret (acc ++ concat rss) st'.
Proof.
  induction 1 as [n st st' Hpage | n st st1 st' rs rss Hpage Hne _ IH];
    intros fuel acc Hfuel; (destruct fuel as [|fuel]; [cbn in Hfuel; lia|]);
    cbn [fetch_all_loop]; unfold page_fetch in Hpage;
    apply bind_Ret_inv in Hpage as (s' & st0 & Hs' & Hfetch);
    mstep Hs'; mstep Hfetch.
  - cbn. now rewrite app_nil_r.
  - destruct rs as [|l rs]; [contradiction|].
    rewrite IH by (cbn in Hfuel; lia). cbn [concat]. now rewrite app_assoc.
Qed.

Lemma fetch_all_loop_short (s : searchset) (skip_caching : bool) (n : Z) (st st' : state)
    (rss : list (list loc)) :
  pages_until_empty s skip_caching n st rss st' ->
  forall (fuel : nat) (acc : list loc),
    fuel <= length rss ->
    fetch_all_loop fuel s skip_caching n acc st = Diverge.
Proof.
  induction 1 as [n st st' Hpage | n st st1 st' rs rss Hpage Hne _ IH];
    intros fuel acc Hfuel; (destruct fuel as [|fuel]; [reflexivity|]);
    cbn in Hfuel; [lia|].
  cbn [fetch_all_loop]. unfold page_fetch in Hpage.
  apply bind_Ret_inv in Hpage as (s' & st0 & Hs' & Hfetch).
  mstep Hs'. mstep Hfetch.
  destruct rs as [|l rs]; [contradiction|]. apply IH. lia.
Qed.

(** C7: when the pages 1, 2, ... are fetched in turn and page
    [length rss + 1] is the first to come back empty, [fetch_all] stops
    there: it needs exactly [length rss + 1] turns of its loop, and returns
    the concatenation of the results of the pages before the empty one. *)
Theorem fetch_all_concat (s : searchset) (skip_caching : bool) (st st' : state)
    (rss : list (list loc)) :
  pages_until_empty s skip_caching 1 st rss st' ->
  (forall fuel, length rss < fuel ->
     fetch_all fuel s skip_caching st = Ret (concat rss) st') /\
  (forall fuel, fuel <= length rss ->
     fetch_all fuel s skip_caching st = Diverge).
Proof.
  intros Hpages. split; intros fuel Hfuel; unfold fetch_all.
  - now rewrite (fetch_all_loop_pages _ _ _ _ _ _ Hpages).
  - now apply (fetch_all_loop_short _ _ _ _ _ _ Hpages).
Qed.

End FetchAll.

Lemma fetch_all_concat_witness :
  exists st',
    fetch_all 3 {| ss_resource_type := "Patient"; ss_params := 0 |} true
      (set_heap [ODict []]
         (example_state true []
            [answer 200 "bundle-mixed"; answer 200 "bundle-mixed"; answer 200 "bundle-empty"]))
      = Ret [0; 2] st' /\
    length (st_sent st') = 3.
Proof.
  assert (exists st',
             pages_until_empty {| ss_resource_type := "Patient"; ss_params := 0 |} true 1
               (set_heap [ODict []]
                  (example_state true []
                     [answer 200 "bundle-mixed"; answer 200 "bundle-mixed";
                      answer 200 "bundle-empty"]))
               [[0]; [2]] st' /\
             length (st_sent st') = 3) as (st' & Hpages & Hsent).
  { eexists. split.
    - eapply pages_next; [vm_compute; reflexivity | discriminate |].
      eapply pages_next; [vm_compute; reflexivity | discriminate |].
      apply pages_stop. vm_compute. reflexivity.
    - reflexivity. }
  exists st'. split; [|exact Hsent].
  apply (proj1 (fetch_all_concat _ _ _ _ _ Hpages)). cbn. lia.
Defined.

(** ** The query builder: copies and the objects they leave alone *)

Section Builder.
Context {B : Binding}.

Lemma set_heap_same (st : state) : set_heap (st_heap st) st = st.
Proof. now destruct st. Qed.

Lemma alloc_Ret (o : qobj) (st : state) :
  alloc o st = Ret (length (st_heap st)) (set_heap (st_heap st ++ [o]) st).
Proof. reflexivity. Qed.

Lemma valid_list_app (h extra : list qobj) (l : loc) :
  valid_list h l -> valid_list (h ++ extra) l.
Proof. intros [xs H]. exists xs. now apply lookup_app_l_Some. Qed.

Lemma valid_list_insert_list (h : list qobj) (l t : loc) (ys : list scalar) :
  valid_list h l -> valid_list (<[t := OList ys]> h) l.
Proof.
  intros [xs H]. destruct (decide (l = t)) as [->|Hne].
  - exists ys. apply list_lookup_insert_eq. now apply lookup_lt_Some in H.
  - exists xs. now rewrite list_lookup_insert_ne.
Qed.

Lemma valid_list_insert_dict (h : list qobj) (l p : loc) (d d' : list (string * pval)) :
  h !! p = Some (ODict d) -> valid_list h l -> valid_list (<[p := ODict d']> h) l.
Proof.
  intros Hp [xs H]. exists xs. rewrite list_lookup_insert_ne; [exact H|].
  intros ->. congruence.
Qed.

Lemma heap_kept_refl (st : state) : heap_kept st st.
Proof. repeat split; auto. Qed.

Lemma heap_kept_app (st0 st : state) (extra : list qobj) :
  heap_kept st0 st -> heap_kept st0 (set_heap (st_heap st ++ extra) st).
Proof.
  intros (H1 & H2 & H3 & H4 & H5). repeat split; try assumption.
  intros l o Hl. cbn. apply lookup_app_l_Some. auto.
Qed.

(** A write to an object that did not exist at [st0] keeps [st0]. *)
Lemma heap_kept_insert (st0 st : state) (l : loc) (o : qobj) :
  heap_kept st0 st -> length (st_heap st0) <= l ->
  heap_kept st0 (set_heap (<[l := o]> (st_heap st)) st).
Proof.
  intros (H1 & H2 & H3 & H4 & H5) Hl. repeat split; try assumption.
  intros l0 o0 Hl0. cbn. rewrite list_lookup_insert_ne; [auto|].
  apply lookup_lt_Some in Hl0. lia.
Qed.

Lemma deepcopy_entries_spec (n : nat) (d : list (string * pval)) :
  forall (memo : list (loc * loc)) (st : state),
    n <= length (st_heap st) ->
    (forall k l, In (k, PList l) d -> valid_list (st_heap st) l) ->
    (forall l l', dict_get Nat.eqb l memo = Some l' ->
       n <= l' /\ exists xs, st_heap st !! l = Some (OList xs) /\
                             st_heap st !! l' = Some (OList xs)) ->
    exists d' extra,
      deepcopy_entries d memo st = Ret d' (set_heap (st_heap st ++ extra) st) /\
      Forall2 (copied n (st_heap st ++ extra)) d d'.
Proof.
  induction d as [|[k v] d IH]; intros memo st Hn Hwf Hmemo.
  - exists [], []. rewrite app_nil_r, set_heap_same. split; [reflexivity | constructor].
  - assert (forall k0 l, In (k0, PList l) d -> valid_list (st_heap st) l) as Hwf'
      by (intros k0 l Hin; apply (Hwf k0); now right).
    destruct v as [a|l]; cbn [deepcopy_entries].
    + destruct (IH memo st Hn Hwf' Hmemo) as (d' & extra & Hrun & Hcopy).
      exists ((k, PScalar a) :: d'), extra. mstep Hrun. split; [reflexivity|].
      constructor; [now split | exact Hcopy].
    + destruct (dict_get Nat.eqb l memo) as [l'|] eqn:Hget.
      * destruct (IH memo st Hn Hwf' Hmemo) as (d' & extra & Hrun & Hcopy).
        exists ((k, PList l') :: d'), extra. mstep Hrun. split; [reflexivity|].
        constructor; [|exact Hcopy]. split; [reflexivity|]. cbn.
        destruct (Hmemo l l' Hget) as (Hl' & xs & Hx & Hx').
        split; [exact Hl'|]. exists xs. split; now apply lookup_app_l_Some.
      * destruct (Hwf k l (or_introl eq_refl)) as [xs Hxs].
        mstep (read_list_Ret _ _ _ Hxs). mstep (alloc_Ret (OList xs) st).
        set (st1 := set_heap (st_heap st ++ [OList xs]) st).
        destruct (IH ((l, length (st_heap st)) :: memo) st1) as (d' & extra & Hrun & Hcopy).
        { cbn. rewrite length_app. lia. }
        { intros k0 l0 Hin. cbn. apply valid_list_app. now apply (Hwf' k0). }
        { intros l0 l0'. cbn. destruct (Nat.eqb l0 l) eqn:E.
          - apply Nat.eqb_eq in E as ->. intros [= <-]. split; [exact Hn|].
            exists xs. split; [now apply lookup_app_l_Some | apply lookup_new].
          - intros Hm. destruct (Hmemo l0 l0' Hm) as (Hl0 & ys & Hy & Hy').
            split; [exact Hl0|]. exists ys. split; now apply lookup_app_l_Some. }
        exists ((k, PList (length (st_heap st))) :: d'), (OList xs :: extra).
        mstep Hrun. cbn [st_heap st1 set_heap] in *.
        rewrite <- app_assoc in Hcopy. cbn [app] in Hcopy.
        split.
        { unfold ret, mret, M_ret. f_equal. unfold st1, set_heap. cbn.
          now rewrite <- app_assoc. }
        constructor; [|exact Hcopy]. split; [reflexivity|]. cbn.
        split; [exact Hn|]. exists xs. split.
        { now apply lookup_app_l_Some. }
        { change (OList xs :: extra) with ([OList xs] ++ extra). rewrite app_assoc.
          apply lookup_app_l_Some, lookup_new. }
Qed.

Lemma copied_entries (n : nat) (h : list qobj) (d d' : list (string * pval)) :
  Forall2 (copied n h) d d' ->
  forall k t, In (k, PList t) d' -> valid_list h t /\ n <= t.
Proof.
  induction 1 as [|e e' d d' [_ He] _ IH]; intros k t Hin; [contradiction|].
  destruct Hin as [->|Hin]; [|now apply (IH k)].
  cbn in He. destruct e.2 as [a|l]; [contradiction|].
  destruct He as (Hn & xs & _ & Hx). split; [now exists xs | exact Hn].
Qed.

Lemma deepcopy_spec (st : state) (p : loc) (d : list (string * pval)) :
  st_heap st !! p = Some (ODict d) ->
  (forall k l, In (k, PList l) d -> valid_list (st_heap st) l) ->
  exists np d' st1,
    deepcopy p st = Ret np st1 /\
    building st false np st1 /\
    st_heap st1 !! np = Some (ODict d') /\
    Forall2 (copied (length (st_heap st)) (st_heap st1)) d d' /\
    np < length (st_heap st1).
Proof.
  intros Hp Hwf.
  destruct (deepcopy_entries_spec (length (st_heap st)) d [] st) as (d' & extra & Hrun & Hcopy);
    [lia | exact Hwf | intros l l'; discriminate |].
  set (st1 := set_heap (st_heap st ++ extra) st) in *.
  exists (length (st_heap st1)), d', (set_heap (st_heap st1 ++ [ODict d']) st1).
  assert (Forall2 (copied (length (st_heap st)) (st_heap st1 ++ [ODict d'])) d d') as Hcopy'.
  { eapply Forall2_impl; [exact Hcopy|]. intros [k v] [k' v'] [Hk Hv]. split; [exact Hk|].
    cbn in *. destruct v as [a|l], v' as [a'|l']; try assumption.
    destruct Hv as (Hn & xs & Hx & Hx'). split; [exact Hn|].
    exists xs. split; now apply lookup_app_l_Some. }
  split; [|split; [|split; [|split]]].
  - unfold deepcopy. mstep (read_dict_Ret _ _ _ Hp). mstep Hrun. apply alloc_Ret.
  - split; [|split].
    + apply (heap_kept_app st st1 [ODict d']), (heap_kept_app st st extra), heap_kept_refl.
    + unfold st1. cbn. rewrite length_app. lia.
    + exists d'. split; [apply lookup_new|].
      intros k t Hin. destruct (copied_entries _ _ _ _ Hcopy' k t Hin) as [Hv Hn].
      split; [exact Hv | intros _; exact Hn].
  - apply lookup_new.
  - exact Hcopy'.
  - cbn. rewrite !length_app. cbn. lia.
Qed.

Lemma building_weaken (st0 st : state) (override : bool) (np : loc) :
  building st0 false np st -> building st0 override np st.
Proof.
  intros (Hk & Hnp & d & Hd & Hl). split; [exact Hk|]. split; [exact Hnp|].
  exists d. split; [exact Hd|]. intros k t Hin. destruct (Hl k t Hin) as [Hv Hn].
  split; [exact Hv | intros _; now apply Hn].
Qed.

Lemma In_sset (k key : string) (x v : pval) (d : list (string * pval)) :
  In (k, x) (sset key v d) -> x = v \/ In (k, x) d.
Proof.
  induction d as [|[k' v'] d IH]; cbn.
  - intros [[= _ <-]|[]]. now left.
  - destruct (String.eqb key k'); cbn.
    + intros [[= _ <-]|Hin]; [now left | right; now right].
    + intros [Heq|Hin]; [right; now left|].
      destruct (IH Hin) as [->|Hin']; [now left | right; now right].
Qed.

Lemma sget_In (key : string) (x : pval) (d : list (string * pval)) :
  sget key d = Some x -> exists k, In (k, x) d.
Proof.
  induction d as [|[k' v'] d IH]; cbn; [discriminate|].
  destruct (String.eqb key k').
  - intros [= <-]. exists k'. now left.
  - intros H. destruct (IH H) as [k Hin]. exists k. now right.
Qed.

(** The list that [clone] takes for an argument: the argument itself when
    it is a list, a new one-element list otherwise. *)
Lemma clone_value_spec (st0 st : state) (override : bool) (np : loc) (v : pval) :
  building st0 override np st ->
  wf_pval (st_heap st0) v ->
  exists value st1,
    (match v with
     | PList l => read_list l;; ret l
     | PScalar a => alloc (OList [a])
     end) st = Ret value st1 /\
    building st0 override np st1 /\
    st_heap st1 !! value = Some (OList (arg_items (st_heap st0) v)) /\
    (forall l o, st_heap st !! l = Some o -> st_heap st1 !! l = Some o) /\
    length (st_heap st) <= length (st_heap st1).
Proof.
  intros (Hk & Hnp & d & Hd & Hl) Hwf. destruct v as [a|l].
  - exists (length (st_heap st)), (set_heap (st_heap st ++ [OList [a]]) st).
    split; [apply alloc_Ret|]. split; [|split; [apply lookup_new|split]].
    + split; [now apply heap_kept_app|]. split; [exact Hnp|].
      exists d. split; [now apply lookup_app_l_Some|].
      intros k t Hin. destruct (Hl k t Hin) as [Hv Hn].
      split; [now apply valid_list_app | exact Hn].
    + intros l o H. now apply lookup_app_l_Some.
    + cbn. rewrite length_app. lia.
  - destruct Hwf as [xs Hxs]. exists l, st.
    assert (st_heap st !! l = Some (OList xs)) as Hxs' by now apply Hk.
    split; [now mstep (read_list_Ret _ _ _ Hxs')|].
    split; [split; [exact Hk|]; split; [exact Hnp|]; now exists d|].
    cbn. rewrite Hxs. split; [exact Hxs'|]. split; [auto | lia].
Qed.

Lemma building_app (st0 st : state) (override : bool) (np : loc) (extra : list qobj) :
  building st0 override np st ->
  building st0 override np (set_heap (st_heap st ++ extra) st).
Proof.
  intros (Hk & Hnp & d & Hd & Hl). split; [now apply heap_kept_app|]. split; [exact Hnp|].
  exists d. split; [now apply lookup_app_l_Some|].
  intros k t Hin. destruct (Hl k t Hin) as [Hv Hn].
  split; [now apply valid_list_app | exact Hn].
Qed.

Lemma building_insert_list (st0 st : state) (override : bool) (np t : loc)
    (ys : list scalar) :
  building st0 override np st ->
  length (st_heap st0) <= t ->
  valid_list (st_heap st) t ->
  building st0 override np (set_heap (<[t := OList ys]> (st_heap st)) st).
Proof.
  intros (Hk & Hnp & d & Hd & Hl) Ht [xs Hxs].
  split; [now apply heap_kept_insert|]. split; [exact Hnp|].
  exists d. split.
  - cbn. rewrite list_lookup_insert_ne; [exact Hd | intros ->; congruence].
  - intros k t' Hin. destruct (Hl k t' Hin) as [Hv Hn].
    split; [now apply valid_list_insert_list | exact Hn].
Qed.

Lemma building_insert_dict (st0 st : state) (override : bool) (np : loc)
    (d' : list (string * pval)) :
  building st0 override np st ->
  (forall k t, In (k, PList t) d' ->
     valid_list (st_heap st) t /\ (override = false -> length (st_heap st0) <= t)) ->
  building st0 override np (set_heap (<[np := ODict d']> (st_heap st)) st).
Proof.
  intros (Hk & Hnp & d & Hd & Hl) Hl'.
  split; [now apply heap_kept_insert|]. split; [exact Hnp|].
  exists d'. split.
  - cbn. apply list_lookup_insert_eq. now apply lookup_lt_Some in Hd.
  - intros k t Hin. destruct (Hl' k t Hin) as [Hv Hn].
    split; [now apply (valid_list_insert_dict _ _ _ d) | exact Hn].
Qed.

Lemma building_dict (st0 st : state) (override : bool) (np : loc) (d : list (string * pval)) :
  building st0 override np st ->
  st_heap st !! np = Some (ODict d) ->
  forall k t, In (k, PList t) d ->
    valid_list (st_heap st) t /\ (override = false -> length (st_heap st0) <= t).
Proof. intros (_ & _ & d0 & Hd0 & Hl) Hd. assert (d0 = d) as -> by congruence. exact Hl. Qed.

(** One turn of the loop of [clone]: it raises when it must extend a scalar
    entry; otherwise the entry for the key holds the argument's values, after
    the former values unless they are overridden. *)
Lemma clone_step_spec (st0 st : state) (override : bool) (np : loc) (key : string)
    (v : pval) (d : list (string * pval)) :
  building st0 override np st ->
  st_heap st !! np = Some (ODict d) ->
  wf_pval (st_heap st0) v ->
  match (if override then None else sget key d) with
  | Some (PScalar _) =>
      exists st', clone_step override np (key, v) st = Raise AttributeError st' /\
                  heap_kept st0 st'
  | _ =>
      exists st',
        clone_step override np (key, v) st = Ret tt st' /\
        building st0 override np st' /\
        (exists d', st_heap st' !! np = Some (ODict d') /\
                    (override = false -> forall k, scalar_entry d' k = scalar_entry d k)) /\
        lookup_items (st_heap st') np key =
          Some ((if override then []
                 else match lookup_items (st_heap st) np key with
                      | Some xs => xs
                      | None => []
                      end) ++ arg_items (st_heap st0) v)
  end.
Proof.
  intros Hb Hd Hwf.
  destruct (clone_value_spec st0 st override np v Hb Hwf)
    as (value & st1 & Hval & Hb1 & Hv1 & Hmono & Hlen).
  pose proof (Hmono _ _ Hd) as Hd1.
  pose proof (building_dict _ _ _ _ _ Hb1 Hd1) as Hl1.
  pose proof (lookup_lt_Some _ _ _ Hd1) as Hnplt.
  assert (value <> np) as Hvnp by (intros ->; congruence).
  assert (length (st_heap st0) <= np) as Hnp by apply Hb.
  unfold clone_step. cbn [fst snd]. rewrite (bind_Ret _ _ _ _ _ Hval).
  rewrite (bind_Ret _ _ _ _ _ (read_dict_Ret _ _ _ Hd1)).
  destruct override.
  - eexists. split; [eapply write_Ret; exact Hd1|]. split.
    + apply building_insert_dict; [exact Hb1|].
      intros k t Hin. apply In_sset in Hin as [[= ->]|Hin].
      * split; [eexists; exact Hv1 | discriminate].
      * now apply (Hl1 k).
    + split.
      { eexists. split; [cbn; now apply list_lookup_insert_eq | discriminate]. }
      unfold lookup_items. cbn [st_heap set_heap].
      rewrite list_lookup_insert_eq by exact Hnplt. rewrite sget_sset_same.
      rewrite list_lookup_insert_ne by auto. now rewrite Hv1.
  - destruct (sget key d) as [[a|t]|] eqn:Hs.
    + mret. cbv beta iota. eexists. split; [reflexivity | apply Hb1].
    + destruct (sget_In _ _ _ Hs) as [k' Hin].
      destruct (Hl1 k' t Hin) as [[cur Hcur] Ht]. specialize (Ht eq_refl).
      mret. cbv beta iota. rewrite (bind_Ret _ _ _ _ _ (read_list_Ret _ _ _ Hv1)).
      rewrite (bind_Ret _ _ _ _ _ (read_list_Ret _ _ _ Hcur)).
      eexists. split; [eapply write_Ret; exact Hcur|]. split.
      * apply building_insert_list; [exact Hb1 | exact Ht | now exists cur].
      * assert (t <> np) as Htnp by (intros ->; congruence).
        split.
        { exists d. split; [cbn; now rewrite list_lookup_insert_ne by auto | reflexivity]. }
        unfold lookup_items. cbn [st_heap set_heap].
        rewrite list_lookup_insert_ne by auto. rewrite Hd1, Hd, Hs.
        rewrite list_lookup_insert_eq by (now apply lookup_lt_Some in Hcur).
        destruct (building_dict _ _ _ _ _ Hb Hd k' t Hin) as [[cur0 Hcur0] _].
        rewrite Hcur0. apply Hmono in Hcur0. congruence.
    + set (st1a := set_heap (st_heap st1 ++ [OList []]) st1).
      assert (st_heap st1a !! np = Some (ODict d)) as Hd1a
        by (cbn; now apply lookup_app_l_Some).
      set (l0 := length (st_heap st1)).
      set (d2 := sset key (PList l0) d).
      set (st1b := set_heap (<[np := ODict d2]> (st_heap st1a)) st1a).
      assert ((l ← alloc (OList []);
               write np (ODict (sset key (PList l) d));; ret (PList l)) st1
              = Ret (PList l0) st1b) as Htarget.
      { rewrite (bind_Ret _ _ _ _ _ (alloc_Ret (OList []) st1)).
        now rewrite (bind_Ret _ _ _ _ _ (write_Ret _ _ _ _ Hd1a)). }
      rewrite (bind_Ret _ _ _ _ _ Htarget). cbv beta iota.
      assert (l0 <> np) as Hl0np by (unfold l0; lia).
      assert (st_heap st1b !! value = Some (OList (arg_items (st_heap st0) v))) as Hv1b.
      { cbn. rewrite list_lookup_insert_ne by auto. now apply lookup_app_l_Some. }
      assert (st_heap st1b !! l0 = Some (OList [])) as Hl0.
      { cbn. rewrite list_lookup_insert_ne by auto. apply lookup_new. }
      rewrite (bind_Ret _ _ _ _ _ (read_list_Ret _ _ _ Hv1b)).
      rewrite (bind_Ret _ _ _ _ _ (read_list_Ret _ _ _ Hl0)).
      eexists. split; [eapply write_Ret; exact Hl0|].
      assert (building st0 false np st1b) as Hb1b.
      { apply building_insert_dict; [now apply building_app|].
        intros k t Hin. apply In_sset in Hin as [[= ->]|Hin].
        - split; [exists []; apply lookup_new | intros _; unfold l0; lia].
        - destruct (Hl1 k t Hin) as [Hv Hn]. split; [now apply valid_list_app | exact Hn]. }
      split.
      * apply building_insert_list; [exact Hb1b | unfold l0; lia | now exists []].
      * assert (st_heap st1b !! np = Some (ODict d2)) as Hd1b.
        { cbn. apply list_lookup_insert_eq. rewrite length_app. lia. }
        split.
        { exists d2. split; [cbn; now rewrite list_lookup_insert_ne by auto|].
          intros _ k. unfold scalar_entry, d2.
          destruct (String.eqb_spec k key) as [->|Hne].
          - now rewrite sget_sset_same, Hs.
          - now rewrite sget_sset_other by exact Hne. }
        unfold lookup_items. cbn [st_heap set_heap].
        rewrite list_lookup_insert_ne by auto. rewrite Hd1b.
        unfold d2. rewrite sget_sset_same.
        rewrite list_lookup_insert_eq by (now apply lookup_lt_Some in Hl0).
        now rewrite Hd, Hs.
Qed.

Lemma existsb_pointwise {A : Type} (f g : A -> bool) (xs : list A) :
  (forall x, f x = g x) -> existsb f xs = existsb g xs.
Proof. intros H. induction xs as [|x xs IH]; cbn; [reflexivity|]. now rewrite H, IH. Qed.

Lemma clone_loop_spec (st0 : state) (override : bool) (np : loc)
    (kwargs : list (string * pval)) :
  forall (st : state) (d : list (string * pval)),
    building st0 override np st ->
    st_heap st !! np = Some (ODict d) ->
    wf_kwargs (st_heap st0) kwargs ->
    if negb override && extends_scalar d kwargs
    then exists st', for_each kwargs (clone_step override np) st = Raise AttributeError st' /\
                     heap_kept st0 st'
    else exists st', for_each kwargs (clone_step override np) st = Ret tt st' /\
                     building st0 override np st'.
Proof.
  induction kwargs as [|[key v] kwargs IH]; intros st d Hb Hd Hwf.
  - cbn. rewrite andb_false_r. now exists st.
  - apply Forall_cons in Hwf as [Hv Hwf]. cbn [snd] in Hv.
    pose proof (clone_step_spec st0 st override np key v d Hb Hd Hv) as Hstep.
    cbn [for_each extends_scalar existsb fst].
    destruct override; cbn [negb andb] in *.
    + destruct Hstep as (st1 & Hrun & Hb1 & (d1 & Hd1 & _) & _).
      destruct (IH st1 d1 Hb1 Hd1 Hwf) as (st' & Hrest & Hb').
      exists st'. rewrite (bind_Ret _ _ _ _ _ Hrun). now split.
    + unfold scalar_entry at 1. destruct (sget key d) as [[a|t]|] eqn:Hs; cbn [orb].
      * destruct Hstep as (st1 & Hrun & Hk). exists st1.
        rewrite (bind_Raise _ _ _ _ _ Hrun). now split.
      * destruct Hstep as (st1 & Hrun & Hb1 & (d1 & Hd1 & Hsame) & _).
        specialize (IH st1 d1 Hb1 Hd1 Hwf). cbn [negb andb] in IH.
        assert (extends_scalar d1 kwargs = extends_scalar d kwargs) as Hext.
        { unfold extends_scalar. apply existsb_pointwise. intros kv. now apply Hsame. }
        rewrite Hext in IH. rewrite (bind_Ret _ _ _ _ _ Hrun). exact IH.
      * destruct Hstep as (st1 & Hrun & Hb1 & (d1 & Hd1 & Hsame) & _).
        specialize (IH st1 d1 Hb1 Hd1 Hwf). cbn [negb andb] in IH.
        assert (extends_scalar d1 kwargs = extends_scalar d kwargs) as Hext.
        { unfold extends_scalar. apply existsb_pointwise. intros kv. now apply Hsame. }
        rewrite Hext in IH. rewrite (bind_Ret _ _ _ _ _ Hrun). exact IH.
Qed.

Lemma SearchSet_init_Ret (rt : string) (np : loc) (d : list (string * pval)) (st : state) :
  st_heap st !! np = Some (ODict d) ->
  SearchSet_init rt (Some np) st =
    Ret {| ss_resource_type := rt; ss_params := length (st_heap st) |}
        (set_heap (st_heap st ++ [ODict d]) st).
Proof.
  intros Hd. unfold SearchSet_init. rewrite (bind_Ret _ _ _ _ _ (read_dict_Ret _ _ _ Hd)).
  now rewrite (bind_Ret _ _ _ _ _ (alloc_Ret (ODict d) st)).
Qed.

Lemma copied_sget (n : nat) (h : list qobj) (d d' : list (string * pval)) (k : string) :
  Forall2 (copied n h) d d' ->
  match sget k d, sget k d' with
  | None, None => True
  | Some (PScalar a), Some (PScalar a') => a = a'
  | Some (PList l), Some (PList l') =>
      n <= l' /\ exists xs, h !! l = Some (OList xs) /\ h !! l' = Some (OList xs)
  | _, _ => False
  end.
Proof.
  induction 1 as [|[k1 v1] [k2 v2] d d' [Hk Hv] _ IH]; cbn; [exact I|].
  cbn in Hk, Hv. subst k2. destruct (String.eqb k k1); [|exact IH].
  destruct v1, v2; assumption.
Qed.

Lemma copied_scalar_entry (n : nat) (h : list qobj) (d d' : list (string * pval))
    (k : string) :
  Forall2 (copied n h) d d' -> scalar_entry d' k = scalar_entry d k.
Proof.
  intros H. pose proof (copied_sget n h d d' k H) as Hk. unfold scalar_entry.
  destruct (sget k d) as [[a|l]|], (sget k d') as [[a'|l']|]; tauto.
Qed.

(** [clone]: it raises exactly when it has to extend a scalar entry;
    otherwise it returns a SearchSet on a new dictionary. Every object that
    existed is as it was. *)
Lemma clone_spec (s : searchset) (override : bool) (kwargs : list (string * pval))
    (st : state) (d : list (string * pval)) :
  st_heap st !! ss_params s = Some (ODict d) ->
  (forall k l, In (k, PList l) d -> valid_list (st_heap st) l) ->
  wf_kwargs (st_heap st) kwargs ->
  refined st s (clone s override kwargs st) /\
  (negb override && extends_scalar d kwargs = false ->
   exists s' st', clone s override kwargs st = Ret s' st').
Proof.
  intros Hd Hwf Hkw.
  destruct (deepcopy_spec st (ss_params s) d Hd Hwf)
    as (np & d' & st1 & Hcopy & Hb & Hd' & Hcopied & _).
  pose proof (clone_loop_spec st override np kwargs st1 d'
                (building_weaken _ _ _ _ Hb) Hd' Hkw) as Hloop.
  assert (extends_scalar d' kwargs = extends_scalar d kwargs) as Hext.
  { unfold extends_scalar. apply existsb_pointwise. intros kv.
    now apply (copied_scalar_entry _ _ _ _ _ Hcopied). }
  rewrite Hext in Hloop. unfold clone. rewrite (bind_Ret _ _ _ _ _ Hcopy).
  destruct (negb override && extends_scalar d kwargs).
  - destruct Hloop as (st2 & Hrun & Hk). rewrite (bind_Raise _ _ _ _ _ Hrun).
    split; [|discriminate]. cbn. split; [exact Hk | now right].
  - destruct Hloop as (st2 & Hrun & Hb2). rewrite (bind_Ret _ _ _ _ _ Hrun).
    destruct Hb2 as (Hk2 & Hnp & d2 & Hd2 & Hl2).
    rewrite (SearchSet_init_Ret _ _ _ _ Hd2). split; [|intros _; eauto].
    cbn. split; [now apply heap_kept_app|].
    split; [apply lookup_lt_Some in Hd2; lia|]. split; [reflexivity|].
    exists d2. split; [apply lookup_new|].
    intros k l Hin. apply valid_list_app. now apply (Hl2 k).
Qed.

Lemma heap_kept_lookup_items (st st' : state) (s : searchset) (k : string) :
  wf_searchset (st_heap st) s ->
  heap_kept st st' ->
  lookup_items (st_heap st') (ss_params s) k = lookup_items (st_heap st) (ss_params s) k.
Proof.
  intros (d & Hd & Hwf) [Hk _]. unfold lookup_items.
  rewrite Hd, (Hk _ _ Hd). destruct (sget k d) as [[a|l]|] eqn:Hs; try reflexivity.
  destruct (sget_In _ _ _ Hs) as [k' Hin]. destruct (Hwf k' l Hin) as [xs Hxs].
  now rewrite Hxs, (Hk _ _ Hxs).
Qed.

Lemma wf_kwargs_drop_key (h : list qobj) (key : string) (kwargs : list (string * pval)) :
  wf_kwargs h kwargs -> wf_kwargs h (drop_key key kwargs).
Proof.
  unfold wf_kwargs, drop_key. rewrite !Forall_forall. intros H kv Hin.
  apply list_elem_of_In, filter_In in Hin as [Hin _]. now apply H, list_elem_of_In.
Qed.

Lemma wf_kwargs_has (h : list qobj) (args : list string) (kwargs : list (string * pval)) :
  wf_kwargs h kwargs -> wf_kwargs h (has_kwargs args kwargs).
Proof.
  unfold wf_kwargs, has_kwargs. intros H. apply Forall_map.
  eapply Forall_impl; [exact H|]. now intros [k v].
Qed.

Lemma truthy_pval_Ret (st : state) (v : pval) :
  wf_pval (st_heap st) v -> exists b, truthy_pval v st = Ret b st.
Proof.
  destruct v as [a|l]; cbn.
  - intros _. now eexists.
  - intros [xs Hxs]. eexists. now rewrite (bind_Ret _ _ _ _ _ (read_list_Ret _ _ _ Hxs)).
Qed.

(** C3: every refinement of a SearchSet either returns a SearchSet on a
    parameter dictionary that did not exist before, or raises; in both cases
    every object that existed before the call, the parameter dictionary of
    [s] and its value lists among them, is as it was.  The refinement returns
    whenever it has no scalar entry to extend and its arguments are
    admissible ([accepts]). *)
Theorem refine_never_mutates (r : refinement) (s : searchset) (st : state)
    (d : list (string * pval)) :
  st_heap st !! ss_params s = Some (ODict d) ->
  (forall k l, In (k, PList l) d -> valid_list (st_heap st) l) ->
  wf_refinement (st_heap st) r ->
  refined st s (refine r s st) /\
  (accepts d r = true -> exists s' st', refine r s st = Ret s' st') /\
  (forall st', final_state (refine r s st) = Some st' ->
     st_heap st' !! ss_params s = Some (ODict d) /\
     forall k, lookup_items (st_heap st') (ss_params s) k
               = lookup_items (st_heap st) (ss_params s) k).
Proof.
  intros Hd Hwf Hr.
  assert (refined st s (refine r s st) /\
          (accepts d r = true -> exists s' st', refine r s st = Ret s' st')) as [Href Hacc].
  { assert (forall k v, wf_pval (st_heap st) v -> wf_kwargs (st_heap st) [(k, v)]) as Hone
      by (intros k0 v0 Hkv; now constructor).
    assert (forall k a, wf_kwargs (st_heap st) [(k, PScalar a)]) as Hscalar
      by (intros k0 a0; now apply Hone).
    destruct r as [override kwargs|kwargs|v|v|keys|attrs exclude|rt attr target recursive
                  |args kwargs]; cbn [refine accepts wf_refinement] in *.
    - destruct (clone_spec s override kwargs st d Hd Hwf Hr) as [H1 H2].
      split; [exact H1|]. intros Ha. apply H2. now destruct override, (extends_scalar d kwargs).
    - unfold search. destruct (existsb _ kwargs).
      { split; [|discriminate]. cbn. split; [apply heap_kept_refl | now left]. }
      destruct (sget "override" kwargs) as [flag|] eqn:Hflag.
      + split; [|cbn; discriminate].
        destruct (sget_In _ _ _ Hflag) as [k' Hin].
        assert (wf_pval (st_heap st) flag) as Hwfflag.
        { unfold wf_kwargs in Hr. rewrite Forall_forall in Hr.
          apply (Hr (k', flag)). now apply list_elem_of_In. }
        destruct (truthy_pval_Ret st flag Hwfflag) as [b Hb].
        rewrite (bind_Ret _ _ _ _ _ Hb).
        apply (clone_spec s b _ st d Hd Hwf). now apply wf_kwargs_drop_key.
      + destruct (clone_spec s false kwargs st d Hd Hwf Hr) as [H1 H2].
        split; [exact H1|]. cbn. intros Ha. apply H2. cbn.
        now destruct (extends_scalar d kwargs).
    - unfold limit. destruct (clone_spec s true [("_count", v)] st d Hd Hwf (Hone _ _ Hr))
        as [H1 H2]. split; [exact H1 | intros _; now apply H2].
    - unfold page. destruct (clone_spec s true [("page", v)] st d Hd Hwf (Hone _ _ Hr))
        as [H1 H2]. split; [exact H1 | intros _; now apply H2].
    - unfold sort. destruct (clone_spec s true [("_sort", PScalar (SStr (join "," keys)))]
                               st d Hd Hwf (Hscalar _ _)) as [H1 H2].
      split; [exact H1 | intros _; now apply H2].
    - unfold elements. match goal with |- context [clone s true ?kw] =>
        destruct (clone_spec s true kw st d Hd Hwf (Hscalar _ _)) as [H1 H2] end.
      split; [exact H1 | intros _; now apply H2].
    - unfold include. match goal with |- context [clone s false ?kw] =>
        destruct (clone_spec s false kw st d Hd Hwf (Hscalar _ _)) as [H1 H2] end.
      split; [exact H1|]. intros Ha. apply H2.
      unfold extends_scalar. cbn [existsb fst negb andb]. rewrite orb_false_r.
      destruct (scalar_entry d (include_key recursive)); [discriminate | reflexivity].
    - unfold has. destruct (Nat.eqb (length args mod 2) 0); cbn [negb andb].
      + destruct (clone_spec s false (has_kwargs args kwargs) st d Hd Hwf
                    (wf_kwargs_has _ _ _ Hr)) as [H1 H2].
        split; [exact H1|]. intros Ha. apply H2. cbn.
        now destruct (extends_scalar d (has_kwargs args kwargs)).
      + split; [|discriminate]. cbn. split; [apply heap_kept_refl | now left]. }
  split; [exact Href|]. split; [exact Hacc|].
  intros st' Hfinal.
  assert (heap_kept st st') as Hk.
  { unfold refined in Href. destruct (refine r s st) as [s1 st1|e st1| |]; try contradiction;
      injection Hfinal as <-; apply Href. }
  split; [now apply Hk|]. intros k. apply heap_kept_lookup_items; [|exact Hk].
  now exists d.
Qed.

Lemma lookup_items_init (h : list qobj) (np : loc) (d : list (string * pval)) (k : string)
    (items : list scalar) :
  h !! np = Some (ODict d) ->
  lookup_items h np k = Some items ->
  lookup_items (h ++ [ODict d]) (length h) k = Some items.
Proof.
  intros Hd. unfold lookup_items. rewrite lookup_new, Hd.
  destruct (sget k d) as [[a|t]|]; try discriminate.
  destruct (h !! t) as [[xs|d0]|] eqn:Ht; try discriminate.
  intros [= <-]. now rewrite (lookup_app_l_Some _ _ _ _ Ht).
Qed.

(** The deep copy stores under [k] what the original stores under [k]. *)
Lemma lookup_items_copied (st st1 : state) (p np : loc) (d d' : list (string * pval))
    (k : string) :
  st_heap st !! p = Some (ODict d) ->
  (forall k l, In (k, PList l) d -> valid_list (st_heap st) l) ->
  heap_kept st st1 ->
  st_heap st1 !! np = Some (ODict d') ->
  Forall2 (copied (length (st_heap st)) (st_heap st1)) d d' ->
  lookup_items (st_heap st1) np k = lookup_items (st_heap st) p k.
Proof.
  intros Hd Hwf [Hk _] Hd' Hcopied. unfold lookup_items. rewrite Hd, Hd'.
  pose proof (copied_sget _ _ _ _ k Hcopied) as Hs.
  destruct (sget k d) as [[a|l]|] eqn:E, (sget k d') as [[a'|l']|]; try tauto.
  destruct Hs as (_ & xs & Hx & Hx'). rewrite Hx'.
  destruct (sget_In _ _ _ E) as [k' Hin]. destruct (Hwf k' l Hin) as [xs0 Hxs0].
  rewrite Hxs0. apply Hk in Hxs0. congruence.
Qed.

(** C4: [clone] with [override] true stores under [k] exactly the values of
    the argument (a scalar as a one-element list); with [override] false it
    stores the former values of [k] followed by the values of the argument,
    provided that what [k] held, if anything, was a list. *)
Theorem clone_override_or_append (s : searchset) (st : state) (d : list (string * pval))
    (k : string) (v : pval) :
  st_heap st !! ss_params s = Some (ODict d) ->
  (forall k l, In (k, PList l) d -> valid_list (st_heap st) l) ->
  wf_pval (st_heap st) v ->
  (exists s' st',
     clone s true [(k, v)] st = Ret s' st' /\
     lookup_items (st_heap st') (ss_params s') k = Some (arg_items (st_heap st) v)) /\
  (scalar_entry d k = false ->
   exists s' st',
     clone s false [(k, v)] st = Ret s' st' /\
     lookup_items (st_heap st') (ss_params s') k =
       Some (match lookup_items (st_heap st) (ss_params s) k with
             | Some xs => xs
             | None => []
             end ++ arg_items (st_heap st) v)).
Proof.
  intros Hd Hwf Hv.
  destruct (deepcopy_spec st (ss_params s) d Hd Hwf)
    as (np & d' & st1 & Hcopy & Hb & Hd' & Hcopied & _).
  pose proof (lookup_items_copied st st1 _ np d d' k Hd Hwf (proj1 Hb) Hd' Hcopied) as Hprior.
  assert (forall override st2 items,
             clone_step override np (k, v) st1 = Ret tt st2 ->
             building st override np st2 ->
             lookup_items (st_heap st2) np k = Some items ->
             exists s' st',
               clone s override [(k, v)] st = Ret s' st' /\
               lookup_items (st_heap st') (ss_params s') k = Some items) as Hfinish.
  { intros override st2 items Hstep (_ & _ & d2 & Hd2 & _) Hitems.
    eexists. eexists. split.
    - assert (for_each [(k, v)] (clone_step override np) st1 = Ret tt st2) as Hloop
        by (cbn [for_each]; now rewrite (bind_Ret _ _ _ _ _ Hstep)).
      unfold clone. rewrite (bind_Ret _ _ _ _ _ Hcopy), (bind_Ret _ _ _ _ _ Hloop).
      apply (SearchSet_init_Ret _ _ _ _ Hd2).
    - cbn. now apply (lookup_items_init _ np). }
  split.
  - pose proof (clone_step_spec st st1 true np k v d' (building_weaken _ _ _ _ Hb) Hd' Hv)
      as (st2 & Hstep & Hb2 & _ & Hitems).
    now apply (Hfinish true st2).
  - intros Hscalar.
    pose proof (clone_step_spec st st1 false np k v d' Hb Hd' Hv) as Hstep.
    cbn beta iota in Hstep.
    assert (scalar_entry d' k = false) as Hscalar'
      by (rewrite <- Hscalar; now apply (copied_scalar_entry _ _ _ _ _ Hcopied)).
    unfold scalar_entry in Hscalar'. rewrite Hprior in Hstep.
    destruct (sget k d') as [[a|t]|]; [discriminate| |];
      destruct Hstep as (st2 & Hrun & Hb2 & _ & Hitems); now apply (Hfinish false st2).
Qed.

End Builder.

Lemma refine_never_mutates_witness :
  exists s' st',
    refine (RSearch [("name", PScalar (SStr "Bob"))])
      {| ss_resource_type := "Patient"; ss_params := 0 |}
      (set_heap [ODict [("name", PList 1)]; OList [SStr "Ann"]] (example_state true [] []))
      = Ret s' st' /\
    2 <= ss_params s' /\
    st_heap st' !! 0 = Some (ODict [("name", PList 1)]) /\
    lookup_items (st_heap st') 0 "name" = Some [SStr "Ann"] /\
    lookup_items (st_heap st') (ss_params s') "name" = Some [SStr "Ann"; SStr "Bob"].
Proof.
  destruct (refine_never_mutates (RSearch [("name", PScalar (SStr "Bob"))])
              {| ss_resource_type := "Patient"; ss_params := 0 |}
              (set_heap [ODict [("name", PList 1)]; OList [SStr "Ann"]]
                 (example_state true [] []))
              [("name", PList 1)] eq_refl) as (Href & Hacc & Hsame).
  - intros k l [[= _ <-]|[]]. now exists [SStr "Ann"].
  - repeat constructor.
  - destruct (Hacc eq_refl) as (s' & st' & Hrun).
    rewrite Hrun in Href, Hsame. destruct (Hsame st' eq_refl) as [Hd Hitems].
    exists s', st'. split; [exact Hrun|]. split; [apply Href|]. split; [exact Hd|].
    split; [apply Hitems|]. revert Hrun. vm_compute. now intros [= <- <-].
Defined.

Lemma clone_override_or_append_witness :
  (exists s' st',
     clone {| ss_resource_type := "Patient"; ss_params := 0 |} true
       [("name", PScalar (SStr "Bob"))]
       (set_heap [ODict [("name", PList 1)]; OList [SStr "Ann"]] (example_state true [] []))
       = Ret s' st' /\
     lookup_items (st_heap st') (ss_params s') "name" = Some [SStr "Bob"]) /\
  (exists s' st',
     clone {| ss_resource_type := "Patient"; ss_params := 0 |} false
       [("name", PList 2)]
       (set_heap [ODict [("name", PList 1)]; OList [SStr "Ann"]; OList [SStr "Bob"; SStr "Cy"]]
          (example_state true [] []))
       = Ret s' st' /\
     lookup_items (st_heap st') (ss_params s') "name"
       = Some [SStr "Ann"; SStr "Bob"; SStr "Cy"]).
Proof.
  split.
  - refine (proj1 (clone_override_or_append
                     {| ss_resource_type := "Patient"; ss_params := 0 |}
                     (set_heap [ODict [("name", PList 1)]; OList [SStr "Ann"]]
                        (example_state true [] []))
                     [("name", PList 1)] "name" (PScalar (SStr "Bob")) eq_refl _ I)).
    intros k l [[= _ <-]|[]]. now exists [SStr "Ann"].
  - refine (proj2 (clone_override_or_append
                     {| ss_resource_type := "Patient"; ss_params := 0 |}
                     (set_heap [ODict [("name", PList 1)]; OList [SStr "Ann"];
                                OList [SStr "Bob"; SStr "Cy"]]
                        (example_state true [] []))
                     [("name", PList 1)] "name" (PList 2) eq_refl _ _) eq_refl).
    + intros k l [[= _ <-]|[]]. now exists [SStr "Ann"].
    + now exists [SStr "Bob"; SStr "Cy"].
Defined.

(** Unlike the refinements, [fetch] writes to the parameter dictionary of
    its SearchSet when that is not empty: [_do_request] updates the very
    dictionary it is given with the scalar entry [_format]; a later
    [search] on that key then finds no list to extend. *)
Remark fetch_writes_format_entry :
  exists rs st',
    fetch {| ss_resource_type := "Patient"; ss_params := 0 |} false
      (set_heap [ODict [("name", PList 1)]; OList [SStr "Ann"]]
         (example_state true [] [answer 200 "bundle-empty"]))
      = Ret rs st' /\
    st_heap st' !! 0
      = Some (ODict [("name", PList 1); ("_format", PScalar (SStr "json"))]) /\
    exists st'',
      search {| ss_resource_type := "Patient"; ss_params := 0 |}
        [("_format", PScalar (SStr "xml"))] st' = Raise AttributeError st''.
Proof.
  eexists. eexists. split; [vm_compute; reflexivity|]. split; [reflexivity|].
  eexists. vm_compute. reflexivity.
Qed.

(** * Further properties of the module *)

(** ** Field access through the schema gate *)

Lemma str_in_In (k : string) (ks : list string) : str_in k ks = true <-> In k ks.
Proof.
  unfold str_in. rewrite existsb_exists. split.
  - intros (x & Hin & Heq). apply String.eqb_eq in Heq. now subst.
  - intros Hin. exists k. split; [exact Hin | apply String.eqb_refl].
Qed.

(** X1: without a schema every key is accepted; with a schema a key is
    accepted exactly when it is an identity field or is declared for the
    resource's type, every other key is a key error, and a resource whose
    type is not hashable cannot be accessed at all. *)
Theorem gate_accepts (c : client) (r : resource) (key : string) :
  (schema_truthy (schema c) = false -> _raise_error_if_invalid_key c r key = Ok tt) /\
  (schema_truthy (schema c) = true ->
   match resource_type r with
   | VScalar k =>
       (_raise_error_if_invalid_key c r key = Ok tt <->
        In key always_root_keys \/
        exists name sch declared,
          k = SStr name /\ schema c = Some sch /\ sget name sch = Some declared /\
          In key declared) /\
       (_raise_error_if_invalid_key c r key = Ok tt \/
        _raise_error_if_invalid_key c r key = Err KeyError)
   | _ => _raise_error_if_invalid_key c r key = Err TypeError
   end).
Proof.
  unfold _raise_error_if_invalid_key, _raise_error_if_invalid_keys, get_root_keys, _get_schema.
  split; intros Hs; rewrite Hs; cbn [negb]; [reflexivity|].
  destruct (schema c) as [[|e sch]|] eqn:Hsch; try discriminate.
  destruct (resource_type r) as [k| |]; [|reflexivity|reflexivity].
  unfold schema_get. cbn [as_key result_bind forallb].
  set (declared := match k with SStr name => get_default name (e :: sch) [] | _ => [] end).
  assert (In key declared <->
          exists name sch' declared',
            k = SStr name /\ Some (e :: sch) = Some sch' /\ sget name sch' = Some declared' /\
            In key declared') as Hdecl.
  { unfold declared. split.
    - destruct k as [| | |name]; try contradiction. unfold get_default.
      destruct (sget name (e :: sch)) as [ds|] eqn:Hget; [|contradiction].
      intros Hin. now exists name, (e :: sch), ds.
    - intros (name & sch' & ds & -> & [= <-] & Hget & Hin).
      unfold get_default. now rewrite Hget. }
  assert ((match k with
           | SStr name => Ok (get_default name (e :: sch) [])
           | _ => Ok []
           end) = Ok declared) as -> by (unfold declared; now destruct k).
  cbn [result_bind]. rewrite andb_true_r, str_in_app.
  destruct (str_in key declared) eqn:Hd, (str_in key always_root_keys) eqn:Ha; cbn [orb].
  - split; [|now left]. split; [intros _; left; now apply str_in_In | reflexivity].
  - split; [|now left]. split; [|reflexivity].
    intros _. right. apply Hdecl. now apply str_in_In.
  - split; [|now left]. split; [intros _; left; now apply str_in_In | reflexivity].
  - split; [|now right]. split; [discriminate|].
    intros [Hin|Hin].
    + apply str_in_In in Hin. congruence.
    + apply Hdecl, str_in_In in Hin. congruence.
Qed.

Lemma gate_accepts_witness :
  let c := Client_init "http://fhir.test" None true (Some [("Patient", ["name"; "active"])]) in
  _raise_error_if_invalid_key c patient_1 "name" = Ok tt /\
  _raise_error_if_invalid_key c patient_1 "id" = Ok tt /\
  _raise_error_if_invalid_key c patient_1 "nickname" = Err KeyError.
Proof.
  pose proof (gate_accepts
                (Client_init "http://fhir.test" None true (Some [("Patient", ["name"; "active"])]))
                patient_1) as H.
  cbv zeta. split; [|split].
  - destruct (H "name") as [_ Hs]. specialize (Hs eq_refl). cbn in Hs.
    apply Hs. right. exists "Patient", [("Patient", ["name"; "active"])], ["name"; "active"].
    split; [reflexivity|]. split; [reflexivity|]. split; [reflexivity|]. now left.
  - destruct (H "id") as [_ Hs]. specialize (Hs eq_refl). cbn in Hs.
    apply Hs. left. cbn. tauto.
  - reflexivity.
Defined.

Section Fields.
Context {B : Binding}.

(** X2: an assignment to a key that the gate accepts can be read back with
    [get] and with indexing, changes no other field, no other resource and
    nothing else of the state; an assignment that the gate refuses raises and
    changes nothing. *)
Theorem setitem_then_read (st : state) (l : loc) (r : resource) (key : string)
    (v default : value) :
  st_resources st !! l = Some r ->
  match _raise_error_if_invalid_key (st_client st) r key with
  | Ok _ =>
      exists r',
        AbstractResource_setitem l key v st
          = Ret tt (set_resources (<[l := r']> (st_resources st)) st) /\
        resource_type r' = resource_type r /\
        AbstractResource_get (st_client st) r' key default = Ok v /\
        AbstractResource_getitem (st_client st) r' key = Ok v /\
        forall key', key' <> key -> sget key' (fields r') = sget key' (fields r)
  | Err e => AbstractResource_setitem l key v st = Raise e st
  end.
Proof.
  intros Hl. destruct (_raise_error_if_invalid_key (st_client st) r key) as [[]|e] eqn:Hgate.
  - exists {| resource_type := resource_type r; fields := sset key v (fields r) |}.
    split; [now apply AbstractResource_setitem_Ret|]. split; [reflexivity|].
    assert (_raise_error_if_invalid_key (st_client st)
              {| resource_type := resource_type r; fields := sset key v (fields r) |} key
            = Ok tt) as Hgate'.
    { unfold _raise_error_if_invalid_key. now rewrite (gate_resource_type _ _ r). }
    unfold AbstractResource_get, AbstractResource_getitem. rewrite Hgate'. cbn.
    unfold get_default. rewrite sget_sset_same.
    repeat split. intros key' Hne. now apply sget_sset_other.
  - unfold AbstractResource_setitem. mret. mstep (read_resource_Ret _ _ _ Hl).
    now rewrite (bind_Raise _ _ _ _ _ (lift_Err _ _ st Hgate)).
Qed.

(** X3: [setdefault] returns the stored value and changes nothing when the
    key is present; it stores and returns the default when the key is
    missing; either way the key then holds the returned value, and calling
    [setdefault] again, with any default, returns it and changes nothing. *)
Theorem setdefault_settles (st : state) (l : loc) (r : resource) (key : string)
    (default other : value) :
  st_resources st !! l = Some r ->
  _raise_error_if_invalid_key (st_client st) r key = Ok tt ->
  exists v st' r',
    setdefault l key default st = Ret v st' /\
    v = match sget key (fields r) with Some x => x | None => default end /\
    (sget key (fields r) <> None -> st' = st) /\
    st_resources st' !! l = Some r' /\
    AbstractResource_getitem (st_client st') r' key = Ok v /\
    setdefault l key other st' = Ret v st'.
Proof.
  intros Hl Hgate.
  assert (forall st1 r1 x dflt,
             st_resources st1 !! l = Some r1 -> st_client st1 = st_client st ->
             resource_type r1 = resource_type r -> sget key (fields r1) = Some x ->
             setdefault l key dflt st1 = Ret x st1 /\
             AbstractResource_getitem (st_client st1) r1 key = Ok x) as Hpresent.
  { intros st1 r1 x dflt Hl1 Hc Hrt Hx.
    assert (_raise_error_if_invalid_key (st_client st1) r1 key = Ok tt) as Hg
      by (rewrite Hc; unfold _raise_error_if_invalid_key;
          now rewrite (gate_resource_type _ _ r)).
    split.
    - unfold setdefault. mret. mstep (read_resource_Ret _ _ _ Hl1).
      mstep (lift_Ok _ _ st1 Hg). now rewrite Hx.
    - unfold AbstractResource_getitem. rewrite Hg. cbn. now rewrite Hx. }
  destruct (sget key (fields r)) as [x|] eqn:Hx.
  - destruct (Hpresent st r x default Hl eq_refl eq_refl Hx) as [H1 H2].
    destruct (Hpresent st r x other Hl eq_refl eq_refl Hx) as [H3 _].
    exists x, st, r. repeat split; assumption.
  - set (r' := {| resource_type := resource_type r; fields := sset key default (fields r) |}).
    set (st' := set_resources (<[l := r']> (st_resources st)) st).
    assert (st_resources st' !! l = Some r') as Hl'
      by (cbn; apply list_lookup_insert_eq; now apply lookup_lt_Some in Hl).
    destruct (Hpresent st' r' default other Hl' eq_refl eq_refl (sget_sset_same _ _ _))
      as [H3 H2].
    exists default, st', r'. repeat split; try assumption; [|congruence].
    unfold setdefault. mret. mstep (read_resource_Ret _ _ _ Hl).
    mstep (lift_Ok _ _ st Hgate). rewrite Hx.
    now rewrite (bind_Ret _ _ _ _ _ (write_resource_Ret l r r' st Hl)).
Qed.

(** X4: constructing a resource either adds exactly one resource to the
    store, of the given type and with fields that all pass the schema gate,
    or raises and leaves the state as it was; it never sends a request and
    never touches the cache. Without a resource type it raises. *)
Theorem Client_resource_outcome (rt : value) (kwargs : list (string * value)) (st : state) :
  match Client_resource rt kwargs st with
  | Ret l st' =>
      rt <> VNone /\
      l = length (st_resources st) /\
      exists fs,
        convert_kwargs (sset "resourceType" rt kwargs) = Ok fs /\
        st' = set_resources (st_resources st ++ [{| resource_type := rt; fields := fs |}]) st /\
        _raise_error_if_invalid_keys (st_client st) {| resource_type := rt; fields := fs |}
          (map fst fs) = Ok tt
  | Raise e st' => st' = st /\ (rt = VNone -> e = TypeError)
  | _ => False
  end.
Proof.
  assert (match Resource_init rt kwargs st with
          | Ret l st' =>
              l = length (st_resources st) /\
              exists fs,
                convert_kwargs (sset "resourceType" rt kwargs) = Ok fs /\
                st' = set_resources
                        (st_resources st ++ [{| resource_type := rt; fields := fs |}]) st /\
                _raise_error_if_invalid_keys (st_client st)
                  {| resource_type := rt; fields := fs |} (map fst fs) = Ok tt
          | Raise e st' => st' = st
          | _ => False
          end) as Hinit.
  { unfold Resource_init.
    destruct (convert_kwargs (sset "resourceType" rt kwargs)) as [fs|e] eqn:Hconv;
      [|now rewrite (bind_Raise _ _ _ _ _ (lift_Err _ _ st eq_refl))].
    rewrite (bind_Ret _ _ _ _ _ (lift_Ok _ _ st eq_refl)).
    destruct (collides ["self"; "client"] fs); [reflexivity|]. mret.
    destruct (_raise_error_if_invalid_keys (st_client st)
                {| resource_type := rt; fields := fs |} (map fst fs)) as [[]|e] eqn:Hgate.
    - rewrite (bind_Ret _ _ _ _ _ (lift_Ok _ _ st eq_refl)). cbn.
      split; [reflexivity|]. now exists fs.
    - now rewrite (bind_Raise _ _ _ _ _ (lift_Err _ _ st eq_refl)). }
  unfold Client_resource.
  destruct rt as [[| | |]| |];
    try (cbn; split; [reflexivity | reflexivity]);
    (destruct (collides ["self"; "client"; "resource_type"] kwargs);
     [cbn; split; [reflexivity | discriminate]|]);
    (destruct (Resource_init _ kwargs st) as [l st'|e st'| |];
     [split; [discriminate | exact Hinit] | split; [exact Hinit | discriminate]
     | exact Hinit | exact Hinit]).
Qed.

End Fields.

Lemma setitem_then_read_witness :
  exists r',
    AbstractResource_setitem 0 "name" (VStr "Bo") (example_state true [unsaved_patient] [])
      = Ret tt (set_resources [r'] (example_state true [unsaved_patient] [])) /\
    AbstractResource_getitem (example_client true) r' "name" = Ok (VStr "Bo") /\
    sget "resourceType" (fields r') = Some (VStr "Patient").
Proof.
  pose proof (setitem_then_read (example_state true [unsaved_patient] []) 0 unsaved_patient
                "name" (VStr "Bo") VNone eq_refl) as H.
  cbn in H. destruct H as (r' & Hset & _ & _ & Hget & Hother).
  exists r'. split; [exact Hset|]. split; [exact Hget|].
  rewrite (Hother "resourceType") by discriminate. reflexivity.
Defined.

Lemma setdefault_settles_witness :
  exists st',
    setdefault 0 "active" (VBool true) (example_state true [unsaved_patient] [])
      = Ret (VBool true) st' /\
    setdefault 0 "active" (VBool false) st' = Ret (VBool true) st'.
Proof.
  destruct (setdefault_settles (example_state true [unsaved_patient] []) 0 unsaved_patient
              "active" (VBool true) (VBool false) eq_refl eq_refl)
    as (v & st' & r' & Hrun & -> & _ & _ & _ & Hagain).
  exists st'. split; [exact Hrun | exact Hagain].
Defined.

(** ** The resource cache as a map *)

Lemma dict_get_equal_keys {V : Type} (a b : scalar) (d : list (scalar * V)) :
  scalar_eqb a b = true -> dict_get scalar_eqb a d = dict_get scalar_eqb b d.
Proof.
  intros Hab. induction d as [|[k v] d IH]; cbn; [reflexivity|].
  destruct (scalar_eqb a k) eqn:E1, (scalar_eqb b k) eqn:E2; auto.
  - rewrite scalar_eqb_sym in Hab. rewrite (scalar_eqb_trans _ _ _ Hab E1) in E2. discriminate.
  - rewrite (scalar_eqb_trans _ _ _ Hab E2) in E1. discriminate.
Qed.

Lemma dict_get_filter_other {V : Type} (k k' : scalar) (d : list (scalar * V)) :
  scalar_eqb k' k = false ->
  dict_get scalar_eqb k' (List.filter (fun kv => negb (scalar_eqb k kv.1)) d)
    = dict_get scalar_eqb k' d.
Proof.
  intros Hne. induction d as [|[k0 v] d IH]; cbn; [reflexivity|].
  destruct (scalar_eqb k k0) eqn:E; cbn.
  - destruct (scalar_eqb k' k0) eqn:E'; [|exact IH].
    rewrite scalar_eqb_sym in E. rewrite (scalar_eqb_trans _ _ _ E' E) in Hne. discriminate.
  - now rewrite IH.
Qed.

Lemma cache_lookup_vivify (kt kt' ki' : scalar) (cache : list (scalar * list (scalar * loc))) :
  cache_lookup kt' ki' (vivify kt cache) = cache_lookup kt' ki' cache.
Proof.
  unfold vivify, cache_lookup.
  destruct (dict_get scalar_eqb kt cache) eqn:E; [reflexivity|].
  destruct (dict_get scalar_eqb kt' cache) eqn:E'.
  - now rewrite (dict_get_app_some _ _ _ _ _ E').
  - rewrite (dict_get_app_none _ _ _ _ E'). cbn. now destruct (scalar_eqb kt' kt).
Qed.

Lemma cache_lookup_del_other (kt ki kt' ki' : scalar)
    (cache : list (scalar * list (scalar * loc))) :
  same_key (kt', ki') (kt, ki) = false ->
  cache_lookup kt' ki' (cache_del kt ki cache) = cache_lookup kt' ki' cache.
Proof.
  unfold same_key, cache_lookup, cache_del. cbn [fst snd]. intros Hne.
  destruct (dict_get scalar_eqb kt cache) as [inner|] eqn:E; [|reflexivity].
  destruct (scalar_eqb kt' kt) eqn:Ht; cbn [andb] in Hne.
  - rewrite (dict_get_set_eqb _ scalar_eqb_sym scalar_eqb_trans) by exact Ht.
    rewrite (dict_get_equal_keys kt' kt) by exact Ht. rewrite E.
    now apply dict_get_filter_other.
  - now rewrite (dict_get_set_other _ scalar_eqb_sym scalar_eqb_trans) by exact Ht.
Qed.

Section CacheMap.
Context {B : Binding}.

(** X5: with caching disabled no operation of the cache does anything: adding,
    removing and clearing return at once and a lookup finds nothing, all
    without a change of state. *)
Theorem cache_disabled (st : state) (l : loc) (rt i : value) :
  without_cache (st_client st) = true ->
  _add_resource_to_cache l st = Ret tt st /\
  _remove_resource_from_cache l st = Ret tt st /\
  _get_resource_from_cache rt i st = Ret None st /\
  clear_resources_cache rt st = Ret tt st.
Proof.
  intros Hoff. split; [now apply _add_resource_to_cache_off|].
  split; [|split; [now apply _get_resource_from_cache_off|]].
  - unfold _remove_resource_from_cache. mret. now rewrite Hoff.
  - unfold clear_resources_cache. mret. now rewrite Hoff.
Qed.

(** X6: after a resource has been added, a lookup under a key equal to its
    (type, id) finds it, and a lookup under any other key finds what it found
    before. *)
Theorem add_then_lookup (st : state) (l : loc) (r : resource) (kt ki : scalar) :
  without_cache (st_client st) = false ->
  st_resources st !! l = Some r ->
  resource_type r = VScalar kt ->
  Resource_id (st_client st) r = Ok (VScalar ki) ->
  exists st1,
    _add_resource_to_cache l st = Ret tt st1 /\
    st_resources st1 = st_resources st /\
    forall kt' ki',
      exists st2,
        _get_resource_from_cache (VScalar kt') (VScalar ki') st1 =
          Ret (if same_key (kt', ki') (kt, ki) then Some l
               else cache_lookup kt' ki' (resources_cache (st_client st))) st2.
Proof.
  intros Hon Hl Hrt Hid. eexists. split; [now apply (_add_resource_to_cache_Ret l r kt ki)|].
  split; [reflexivity|]. intros kt' ki'. eexists.
  rewrite _get_resource_from_cache_Ret by exact Hon. f_equal. cbn.
  unfold same_key. cbn [fst snd].
  destruct (scalar_eqb kt' kt && scalar_eqb ki' ki) eqn:Hs.
  - apply andb_true_iff in Hs as [H1 H2]. now apply cache_lookup_put_same.
  - now apply cache_lookup_put_other.
Qed.

(** X7: a lookup returns what the cache holds under the key and is not
    observable afterwards: although the [defaultdict] gains an empty entry
    for a type it has not seen, every lookup gives what it gave before, and
    nothing else of the state changes. *)
Theorem lookup_is_read_only (st : state) (kt ki : scalar) :
  without_cache (st_client st) = false ->
  exists st1,
    _get_resource_from_cache (VScalar kt) (VScalar ki) st =
      Ret (cache_lookup kt ki (resources_cache (st_client st))) st1 /\
    (forall a b, cache_lookup a b (resources_cache (st_client st1))
                 = cache_lookup a b (resources_cache (st_client st))) /\
    st_resources st1 = st_resources st /\ st_heap st1 = st_heap st /\
    st_sent st1 = st_sent st /\ st_server st1 = st_server st.
Proof.
  intros Hon. eexists. split; [now apply _get_resource_from_cache_Ret|].
  split; [|repeat split]. intros a b. cbn. apply cache_lookup_vivify.
Qed.

(** X8: removing a resource succeeds exactly when something is cached under
    its (type, id): then that key is emptied and every other key keeps its
    entry; otherwise a key error is raised and every key keeps its entry. *)
Theorem remove_exactly (st : state) (l : loc) (r : resource) (kt ki : scalar) :
  without_cache (st_client st) = false ->
  st_resources st !! l = Some r ->
  resource_type r = VScalar kt ->
  Resource_id (st_client st) r = Ok (VScalar ki) ->
  match cache_lookup kt ki (resources_cache (st_client st)) with
  | Some _ =>
      exists st1,
        _remove_resource_from_cache l st = Ret tt st1 /\
        forall kt' ki',
          cache_lookup kt' ki' (resources_cache (st_client st1)) =
            if same_key (kt', ki') (kt, ki) then None
            else cache_lookup kt' ki' (resources_cache (st_client st))
  | None =>
      exists st1,
        _remove_resource_from_cache l st = Raise KeyError st1 /\
        forall kt' ki',
          cache_lookup kt' ki' (resources_cache (st_client st1)) =
            cache_lookup kt' ki' (resources_cache (st_client st))
  end.
Proof.
  intros Hon Hl Hrt Hid.
  destruct (cache_lookup kt ki (resources_cache (st_client st))) as [l0|] eqn:Hhit.
  - eexists. split; [now apply (_remove_resource_from_cache_Ret l l0 r kt ki)|].
    intros kt' ki'. cbn. destruct (same_key (kt', ki') (kt, ki)) eqn:Hs.
    + unfold same_key in Hs. cbn [fst snd] in Hs. apply andb_true_iff in Hs as [H1 H2].
      pose proof (cache_lookup_del kt ki (resources_cache (st_client st))) as Hdel.
      unfold cache_lookup in *. rewrite (dict_get_equal_keys kt' kt) by exact H1.
      destruct (dict_get scalar_eqb kt (cache_del kt ki (resources_cache (st_client st))));
        [|reflexivity].
      now rewrite (dict_get_equal_keys ki' ki) by exact H2.
    + now apply cache_lookup_del_other.
  - exists (with_cache (vivify kt (resources_cache (st_client st))) st). split.
    + unfold _remove_resource_from_cache. mret. rewrite Hon.
      mstep (read_resource_Ret _ _ _ Hl). rewrite Hrt. mstep (cache_getitem_Ret kt st).
      erewrite bind_Ret by (apply lift_Ok; exact Hid). mret.
      unfold cache_lookup in Hhit. unfold dict_del. cbn [fst snd].
      destruct (dict_get scalar_eqb kt (resources_cache (st_client st))) as [inner|].
      * now rewrite Hhit.
      * reflexivity.
    + intros kt' ki'. cbn. apply cache_lookup_vivify.
Qed.

(** X9: clearing the cache for a type (a truthy, hashable one) empties the
    keys of that type and keeps every other entry; clearing it with a falsy
    argument ([None], the empty string, 0) empties it altogether. *)
Theorem clear_drops (st : state) (rt : value) :
  without_cache (st_client st) = false ->
  (truthy rt = false -> clear_resources_cache rt st = Ret tt (with_cache [] st)) /\
  (forall kt, rt = VScalar kt -> truthy rt = true ->
     exists st1,
       clear_resources_cache rt st = Ret tt st1 /\
       forall kt' ki',
         cache_lookup kt' ki' (resources_cache (st_client st1)) =
           if scalar_eqb kt' kt then None
           else cache_lookup kt' ki' (resources_cache (st_client st))).
Proof.
  intros Hon. split.
  - intros Hf. unfold clear_resources_cache. mret. now rewrite Hon, Hf.
  - intros kt -> Ht. eexists. split.
    + unfold clear_resources_cache. mret. rewrite Hon, Ht. cbn [as_key]. now mret.
    + intros kt' ki'. cbn. unfold cache_lookup. destruct (scalar_eqb kt' kt) eqn:E.
      * now rewrite (dict_get_set_eqb _ scalar_eqb_sym scalar_eqb_trans) by exact E.
      * now rewrite (dict_get_set_other _ scalar_eqb_sym scalar_eqb_trans) by exact E.
Qed.

End CacheMap.

Lemma cache_disabled_witness :
  let st := set_client (Client_init "http://fhir.test" None false None)
              (example_state true [patient_1] []) in
  _add_resource_to_cache 0 st = Ret tt st /\
  _remove_resource_from_cache 0 st = Ret tt st /\
  _get_resource_from_cache (VStr "Patient") (VStr "1") st = Ret None st /\
  clear_resources_cache VNone st = Ret tt st.
Proof.
  cbv zeta.
  destruct (cache_disabled
              (set_client (Client_init "http://fhir.test" None false None)
                 (example_state true [patient_1] []))
              0 (VStr "Patient") (VStr "1") eq_refl) as (Ha & Hr & Hg & _).
  destruct (cache_disabled
              (set_client (Client_init "http://fhir.test" None false None)
                 (example_state true [patient_1] []))
              0 VNone VNone eq_refl) as (_ & _ & _ & Hc).
  repeat split; assumption.
Defined.

Lemma add_then_lookup_witness :
  exists st1,
    _add_resource_to_cache 0 (example_state true [patient_1] []) = Ret tt st1 /\
    (exists st2,
       _get_resource_from_cache (VStr "Patient") (VStr "1") st1 = Ret (Some 0) st2) /\
    (exists st2,
       _get_resource_from_cache (VStr "Patient") (VStr "2") st1 = Ret None st2).
Proof.
  destruct (add_then_lookup (example_state true [patient_1] []) 0 patient_1
              (SStr "Patient") (SStr "1") eq_refl eq_refl eq_refl eq_refl)
    as (st1 & Hadd & _ & Hlook).
  exists st1. split; [exact Hadd|]. split.
  - exact (Hlook (SStr "Patient") (SStr "1")).
  - exact (Hlook (SStr "Patient") (SStr "2")).
Defined.

Lemma lookup_is_read_only_witness :
  exists st1,
    _get_resource_from_cache (VStr "Observation") (VStr "7")
      (with_cache [(SStr "Patient", [(SStr "1", 0)])] (example_state true [patient_1] []))
      = Ret None st1 /\
    cache_lookup (SStr "Patient") (SStr "1") (resources_cache (st_client st1)) = Some 0 /\
    cache_lookup (SStr "Observation") (SStr "7") (resources_cache (st_client st1)) = None.
Proof.
  destruct (lookup_is_read_only
              (with_cache [(SStr "Patient", [(SStr "1", 0)])]
                 (example_state true [patient_1] []))
              (SStr "Observation") (SStr "7") eq_refl)
    as (st1 & Hget & Hsame & _).
  exists st1. split; [exact Hget|]. split; [exact (Hsame _ _) | exact (Hsame _ _)].
Defined.

Lemma remove_exactly_witness :
  (exists st1,
     _remove_resource_from_cache 0
       (with_cache [(SStr "Patient", [(SStr "1", 0); (SStr "2", 1)])]
          (example_state true [patient_1] []))
       = Ret tt st1 /\
     cache_lookup (SStr "Patient") (SStr "1") (resources_cache (st_client st1)) = None /\
     cache_lookup (SStr "Patient") (SStr "2") (resources_cache (st_client st1)) = Some 1) /\
  (exists st1,
     _remove_resource_from_cache 0 (example_state true [patient_1] []) = Raise KeyError st1).
Proof.
  split.
  - destruct (remove_exactly
                (with_cache [(SStr "Patient", [(SStr "1", 0); (SStr "2", 1)])]
                   (example_state true [patient_1] []))
                0 patient_1 (SStr "Patient") (SStr "1") eq_refl eq_refl eq_refl eq_refl)
      as (st1 & Hrem & Hother).
    exists st1. split; [exact Hrem|]. split; [exact (Hother _ _) | exact (Hother _ _)].
  - destruct (remove_exactly (example_state true [patient_1] []) 0 patient_1
                (SStr "Patient") (SStr "1") eq_refl eq_refl eq_refl eq_refl)
      as (st1 & Hrem & _).
    exists st1. exact Hrem.
Defined.

Lemma clear_drops_witness :
  exists st1,
    clear_resources_cache (VStr "Patient")
      (with_cache [(SStr "Patient", [(SStr "1", 0)]); (SStr "Observation", [(SStr "7", 1)])]
         (example_state true [patient_1; unsaved_observation] []))
      = Ret tt st1 /\
    cache_lookup (SStr "Patient") (SStr "1") (resources_cache (st_client st1)) = None /\
    cache_lookup (SStr "Observation") (SStr "7") (resources_cache (st_client st1)) = Some 1.
Proof.
  destruct (clear_drops
              (with_cache [(SStr "Patient", [(SStr "1", 0)]);
                           (SStr "Observation", [(SStr "7", 1)])]
                 (example_state true [patient_1; unsaved_observation] []))
              (VStr "Patient") eq_refl) as [_ Htype].
  destruct (Htype (SStr "Patient") eq_refl eq_refl) as (st1 & Hclear & Hother).
  exists st1. split; [exact Hclear|]. split; [exact (Hother _ _) | exact (Hother _ _)].
Defined.

(** ** The request layer, with parameters *)

Section RequestParams.
Context {B : Binding}.

Lemma view_of_ext (h h' : list qobj) (d : list (string * pval)) :
  (forall k l, In (k, PList l) d -> h' !! l = h !! l) ->
  view_of h' d = view_of h d.
Proof.
  intros H. unfold view_of. apply map_ext_in. intros [k [a|l]] Hin; cbn; [reflexivity|].
  now rewrite (H k l Hin).
Qed.

Lemma map_m_view_entry (st : state) (d : list (string * pval)) :
  (forall k l, In (k, PList l) d -> valid_list (st_heap st) l) ->
  map_m view_entry d st = Ret (view_of (st_heap st) d) st.
Proof.
  induction d as [|[k v] d IH]; intros Hwf; [reflexivity|].
  cbn [map_m]. unfold view_entry at 1. cbn [fst snd].
  assert (map_m view_entry d st = Ret (view_of (st_heap st) d) st) as Hrest
    by (apply IH; intros k0 l0 Hin; apply (Hwf k0); now right).
  destruct v as [a|l].
  - mret. now rewrite (bind_Ret _ _ _ _ _ Hrest).
  - destruct (Hwf k l (or_introl eq_refl)) as [xs Hxs].
    rewrite (bind_Ret _ _ _ _ _
               (bind_Ret _ _ _ _ _ (read_list_Ret _ _ _ Hxs) : (xs0 ← read_list l; ret (k, Many xs0)) st = Ret (k, Many xs) st)).
    rewrite (bind_Ret _ _ _ _ _ Hrest). cbn. now rewrite Hxs.
Qed.

Lemma view_dict_Ret (st : state) (p : loc) (d : list (string * pval)) :
  st_heap st !! p = Some (ODict d) ->
  (forall k l, In (k, PList l) d -> valid_list (st_heap st) l) ->
  view_dict p st = Ret (view_of (st_heap st) d) st.
Proof.
  intros Hd Hwf. unfold view_dict. rewrite (bind_Ret _ _ _ _ _ (read_dict_Ret _ _ _ Hd)).
  now apply map_m_view_entry.
Qed.

Lemma In_sset_scalar (k key : string) (l : loc) (a : scalar) (d : list (string * pval)) :
  In (k, PList l) (sset key (PScalar a) d) -> In (k, PList l) d.
Proof. intros H. apply In_sset in H as [H|H]; [discriminate | exact H]. Qed.

(** [_do_request] on the dictionary at [p]: the dictionary it updates and
    encodes is [p] itself when [p] is not empty, a new one otherwise. *)
Lemma _do_request_params (method : string) (path : value) (data : option value) (p : loc)
    (d : list (string * pval)) (st : state) :
  st_heap st !! p = Some (ODict d) ->
  (forall k l, In (k, PList l) d -> valid_list (st_heap st) l) ->
  let d1 := sset "_format" (PScalar (SStr "json")) d in
  let h1 := match d with
            | [] => st_heap st ++ [ODict d1]
            | _ :: _ => <[p := ODict d1]> (st_heap st)
            end in
  let req := request_for (st_client st) method path data (view_of (st_heap st) d1) in
  let ans := requests_request req (st_server st) in
  _do_request method path data (Some p) st =
    match ans.1 with
    | Ok r => lift (decode_reply r) (after_request st h1 req ans.2)
    | Err e => Raise e (after_request st h1 req ans.2)
    end.
Proof.
  intros Hd Hwf d1 h1 req ans.
  pose proof (lookup_lt_Some _ _ _ Hd) as Hlt.
  assert (exists q,
             params_or_new (Some p) st = Ret q (set_heap (match d with
                                                          | [] => st_heap st ++ [ODict []]
                                                          | _ :: _ => st_heap st
                                                          end) st) /\
             match d with
             | [] => st_heap st ++ [ODict []]
             | _ :: _ => st_heap st
             end !! q = Some (ODict d) /\
             <[q := ODict d1]> (match d with
                                | [] => st_heap st ++ [ODict []]
                                | _ :: _ => st_heap st
                                end) = h1) as (q & Hq & Hqd & Hh1).
  { unfold params_or_new. rewrite (bind_Ret _ _ _ _ _ (read_dict_Ret _ _ _ Hd)).
    destruct d as [|e d].
    - exists (length (st_heap st)). split; [apply alloc_Ret|].
      split; [apply lookup_new | apply insert_alloc].
    - exists p. rewrite set_heap_same. now split. }
  set (st0 := set_heap _ st) in Hq.
  assert (forall k l, In (k, PList l) d1 -> valid_list h1 l) as Hwf1.
  { intros k l Hin. apply In_sset_scalar in Hin. destruct (Hwf k l Hin) as [xs Hxs].
    exists xs. unfold h1. destruct d as [|e d]; [now apply lookup_app_l_Some|].
    rewrite list_lookup_insert_ne; [exact Hxs | intros ->; congruence]. }
  assert (view_of h1 d1 = view_of (st_heap st) d1) as Hview.
  { apply view_of_ext. intros k l Hin. apply In_sset_scalar in Hin.
    destruct (Hwf k l Hin) as [xs Hxs]. rewrite Hxs. unfold h1.
    destruct d as [|e d]; [now apply lookup_app_l_Some|].
    rewrite list_lookup_insert_ne; [exact Hxs | intros ->; congruence]. }
  unfold _do_request. rewrite (bind_Ret _ _ _ _ _ Hq).
  assert (st_heap st0 !! q = Some (ODict d)) as Hqd0 by exact Hqd.
  rewrite (bind_Ret _ _ _ _ _ (read_dict_Ret _ _ _ Hqd0)).
  rewrite (bind_Ret _ _ _ _ _ (write_Ret _ _ _ _ Hqd0)).
  fold d1. unfold st0 at 1. cbn [st_heap set_heap]. rewrite Hh1.
  set (st1 := set_heap h1 st0).
  assert (st_heap st1 !! q = Some (ODict d1)) as Hq1.
  { cbn. rewrite <- Hh1. apply list_lookup_insert_eq. now apply lookup_lt_Some in Hqd. }
  rewrite (bind_Ret _ _ _ _ _ (view_dict_Ret st1 q d1 Hq1 Hwf1)). mret.
  cbn [st_heap st1 set_heap]. rewrite Hview.
  unfold send, mbind, M_bind, request_for, after_request in *. cbn.
  subst ans req. unfold request_for.
  destruct (requests_request _ (st_server st)) as [[r|e] srv']; reflexivity.
Qed.

(** X10: [_do_request] writes the entry [_format] into the very dictionary it
    is given, unless that dictionary is empty, in which case it works on a
    new one; it sends exactly one request, whose query string encodes the
    given parameters overlaid with [_format=json]; it changes neither the
    client nor the resources. *)
Theorem _do_request_writes_format (method : string) (path : value) (data : option value)
    (p : loc) (d : list (string * pval)) (st : state) :
  st_heap st !! p = Some (ODict d) ->
  (forall k l, In (k, PList l) d -> valid_list (st_heap st) l) ->
  let d1 := sset "_format" (PScalar (SStr "json")) d in
  exists st',
    final_state (_do_request method path data (Some p) st) = Some st' /\
    st_heap st' = match d with
                  | [] => st_heap st ++ [ODict d1]
                  | _ :: _ => <[p := ODict d1]> (st_heap st)
                  end /\
    st_heap st' !! p = Some (ODict (match d with [] => [] | _ :: _ => d1 end)) /\
    st_sent st' =
      st_sent st ++
      [request_for (st_client st) method path data (view_of (st_heap st) d1)] /\
    st_client st' = st_client st /\
    st_resources st' = st_resources st.
Proof.
  intros Hd Hwf d1. rewrite (_do_request_params method path data p d st Hd Hwf). cbv zeta.
  fold d1.
  set (req := request_for (st_client st) method path data (view_of (st_heap st) d1)).
  eexists (after_request st _ req (requests_request req (st_server st)).2).
  split; [|split; [reflexivity|split; [|repeat split]]].
  - destruct (requests_request req (st_server st)).1 as [r|e]; [|reflexivity].
    unfold lift. now destruct (decode_reply r).
  - cbn. destruct d as [|e d]; [now apply lookup_app_l_Some|].
    apply list_lookup_insert_eq. now apply lookup_lt_Some in Hd.
Qed.

(** X11: what [_do_request] makes of the answer: a status of 404 raises
    [ResourceNotFound] and any other status outside 200..299 raises
    [OperationOutcome], both carrying the body; a successful answer with an
    empty body gives [None], with a body its JSON document, or a value error
    when the body is not JSON. *)
Theorem _do_request_status (method : string) (path : value) (data : option value)
    (st : state) (rep : reply) (srv' : server) :
  let req := plain_request (st_client st) method path data in
  requests_request req (st_server st) = (Ok rep, srv') ->
  let run := _do_request method path data None st in
  let st1 := requested st req srv' in
  ((status_code rep = 404)%Z -> run = Raise (ResourceNotFound (content rep)) st1) /\
  ((status_code rep < 200 \/ 300 <= status_code rep)%Z -> (status_code rep <> 404)%Z ->
   run = Raise (OperationOutcome (content rep)) st1) /\
  ((200 <= status_code rep < 300)%Z -> content rep = EmptyString -> run = Ret VNone st1) /\
  ((200 <= status_code rep < 300)%Z -> content rep <> EmptyString ->
   run = match json_loads (content rep) with
         | Some doc => Ret doc st1
         | None => Raise ValueError st1
         end).
Proof.
  intros req Hans run st1. unfold run. rewrite _do_request_no_params. cbv zeta.
  fold req. rewrite Hans. cbn [fst snd]. fold st1. unfold decode_reply.
  repeat split.
  - intros H. rewrite H. reflexivity.
  - intros Hout Hne.
    assert ((200 <=? status_code rep)%Z && (status_code rep <? 300)%Z = false) as ->
      by (apply andb_false_iff; destruct Hout; [left; apply Z.leb_gt | right; apply Z.ltb_ge];
          lia).
    apply Z.eqb_neq in Hne. now rewrite Hne.
  - intros [H1 H2] Hc.
    apply Z.leb_le in H1. apply Z.ltb_lt in H2. rewrite H1, H2, Hc. reflexivity.
  - intros [H1 H2] Hc.
    apply Z.leb_le in H1. apply Z.ltb_lt in H2. rewrite H1, H2.
    apply String.eqb_neq in Hc. cbn [andb]. rewrite Hc.
    now destruct (json_loads (content rep)).
Qed.

End RequestParams.

Lemma _do_request_writes_format_witness :
  exists st',
    final_state
      (_do_request "get" (VStr "Patient") None (Some 0)
         (set_heap [ODict [("name", PList 1)]; OList [SStr "Ann"]]
            (example_state true [] [answer 200 "bundle-empty"])))
      = Some st' /\
    st_heap st' = [ODict [("name", PList 1); ("_format", PScalar (SStr "json"))];
                   OList [SStr "Ann"]] /\
    map req_url (st_sent st') = ["http://fhir.test/Patient?name=Ann&_format=json"].
Proof.
  assert (forall k l, In (k, PList l) [("name", PList 1)] ->
                      valid_list [ODict [("name", PList 1)]; OList [SStr "Ann"]] l) as Hwf.
  { intros k l [[= _ <-]|[]]. now exists [SStr "Ann"]. }
  destruct (_do_request_writes_format "get" (VStr "Patient") None 0 [("name", PList 1)]
              (set_heap [ODict [("name", PList 1)]; OList [SStr "Ann"]]
                 (example_state true [] [answer 200 "bundle-empty"]))
              eq_refl Hwf)
    as (st' & Hrun & Hheap & _ & Hsent & _).
  exists st'. split; [exact Hrun|]. split; [exact Hheap|]. now rewrite Hsent.
Defined.

Lemma _do_request_status_witness :
  _do_request "get" (VStr "Patient/9") None None (example_state true [] [answer 404 "outcome"])
    = Raise (ResourceNotFound "outcome")
        (requested (example_state true [] [answer 404 "outcome"])
           (plain_request (example_client true) "get" (VStr "Patient/9") None) []) /\
  _do_request "delete" (VStr "Patient/9") None None (example_state true [] [answer 204 EmptyString])
    = Ret VNone
        (requested (example_state true [] [answer 204 EmptyString])
           (plain_request (example_client true) "delete" (VStr "Patient/9") None) []).
Proof.
  split.
  - destruct (_do_request_status "get" (VStr "Patient/9") None
                (example_state true [] [answer 404 "outcome"])
                {| status_code := 404; content := "outcome" |} [] eq_refl) as (H404 & _).
    exact (H404 eq_refl).
  - destruct (_do_request_status "delete" (VStr "Patient/9") None
                (example_state true [] [answer 204 EmptyString])
                {| status_code := 204; content := EmptyString |} [] eq_refl)
      as (_ & _ & Hempty & _).
    apply Hempty; [cbn; lia | reflexivity].
Defined.

(** ** Fetching one resource by id *)

Section GetById.
Context {B : Binding}.

Lemma cached_new (st : state) (r : resource) (k : scalar * scalar) :
  cache_key (st_client st) r = Some k ->
  cached (with_cache (cache_put k.1 k.2 (length (st_resources st))
                        (resources_cache (st_client st)))
            (set_resources (st_resources st ++ [r]) st))
         (length (st_resources st)).
Proof. intros Hk. now apply (cached_step st r k Hk). Qed.

(** X12: [get] fetches the document at "{resource_type}/{id}". A document
    without [resourceType] is a key error, a document of another type is an
    [InvalidResponse]; in both cases no resource has been made and the cache
    is as before. A document of the declared type is materialised: when
    [get] returns, its result is the one resource added to the store, it has
    the declared type, and with caching it is filed in the cache. *)
Theorem get_outcome (s : searchset) (id doc : value) (skip_caching : bool) (st st1 : state) :
  _fetch_resource (VStr (format2 (VStr (ss_resource_type s)) id)) None st = Ret doc st1 ->
  st_client st1 = st_client st /\ st_resources st1 = st_resources st /\
  match doc with
  | VDict kvs =>
      match sget "resourceType" kvs with
      | None => SearchSet_get s id skip_caching st = Raise KeyError st1
      | Some received =>
          if is_str received (ss_resource_type s) then
            SearchSet_get s id skip_caching st = _perform_resource s doc skip_caching st1 /\
            forall l st',
              SearchSet_get s id skip_caching st = Ret l st' ->
              l = length (st_resources st) /\
              (exists r, st_resources st' = st_resources st ++ [r] /\
                         resource_type r = VStr (ss_resource_type s)) /\
              (skip_caching = false -> without_cache (st_client st) = false ->
               cached st' l)
          else
            exists msg, SearchSet_get s id skip_caching st = Raise (InvalidResponse msg) st1
      end
  | _ => SearchSet_get s id skip_caching st = Raise TypeError st1
  end.
Proof.
  intros Hdoc.
  assert (same_entities st st1) as [Hc Hres].
  { apply (keeps_entities_do_request "get" (VStr (format2 (VStr (ss_resource_type s)) id))
             None None).
    unfold _fetch_resource in Hdoc. now rewrite Hdoc. }
  split; [exact Hc|]. split; [exact Hres|].
  unfold SearchSet_get. rewrite (bind_Ret _ _ _ _ _ Hdoc).
  destruct doc as [a|xs|kvs]; try reflexivity.
  cbn [getitem]. destruct (sget "resourceType" kvs) as [received|] eqn:Hrt; [|reflexivity].
  rewrite (bind_Ret _ _ _ _ _ (lift_Ok _ _ st1 eq_refl)).
  destruct (is_str received (ss_resource_type s)) eqn:Hsame; cbn [negb]; [|now eexists].
  split; [reflexivity|]. intros l st' Hrun.
  apply _perform_resource_inv in Hrun as (r & -> & (kvs' & [= <-] & Hrtr) & Hst').
  unfold get_default in Hrtr. rewrite Hrt in Hrtr. apply is_str_true in Hsame. subst received.
  rewrite Hres. split; [reflexivity|]. split.
  - exists r. split; [|exact Hrtr].
    destruct Hst' as [[_ ->]|(_ & _ & k & _ & ->)]; cbn; now rewrite Hres.
  - intros Hskip Hon. destruct Hst' as [[Hor _]|(_ & _ & k & Hk & ->)].
    + rewrite Hskip, Hc, Hon in Hor. discriminate.
    + rewrite <- Hres. now apply cached_new.
Qed.

End GetById.

Lemma get_outcome_witness :
  exists st',
    SearchSet_get {| ss_resource_type := "Patient"; ss_params := 0 |} (VStr "42") false
      (set_heap [ODict []] (example_state true [] [answer 200 "patient-42"]))
      = Ret 0 st' /\
    cached st' 0 /\
    exists msg st1,
      SearchSet_get {| ss_resource_type := "Observation"; ss_params := 0 |} (VStr "42") false
        (set_heap [ODict []] (example_state true [] [answer 200 "patient-42"]))
        = Raise (InvalidResponse msg) st1 /\
      st_resources st1 = [] /\ resources_cache (st_client st1) = [].
Proof.
  assert (exists doc st1,
             _fetch_resource (VStr "Patient/42") None
               (set_heap [ODict []] (example_state true [] [answer 200 "patient-42"]))
               = Ret doc st1 /\ sget "patient-42" documents = Some doc)
    as (doc & st1 & Hdoc & Hdocs) by (eexists; eexists; split; vm_compute; reflexivity).
  pose proof (get_outcome {| ss_resource_type := "Patient"; ss_params := 0 |} (VStr "42") doc
                false _ st1 Hdoc) as (_ & _ & Hp).
  assert (exists doc' st1',
             _fetch_resource (VStr "Observation/42") None
               (set_heap [ODict []] (example_state true [] [answer 200 "patient-42"]))
               = Ret doc' st1' /\ sget "patient-42" documents = Some doc')
    as (doc' & st1' & Hdoc' & Hdocs') by (eexists; eexists; split; vm_compute; reflexivity).
  pose proof (get_outcome {| ss_resource_type := "Observation"; ss_params := 0 |} (VStr "42")
                doc' false _ st1' Hdoc') as (Hc' & Hr' & Ho).
  injection Hdocs as <-. injection Hdocs' as <-. cbn in Hp, Ho.
  destruct Hp as [Hrun Hprop]. destruct Ho as [msg Hraise].
  assert (exists st',
             SearchSet_get {| ss_resource_type := "Patient"; ss_params := 0 |} (VStr "42") false
               (set_heap [ODict []] (example_state true [] [answer 200 "patient-42"]))
               = Ret 0 st') as [st' Hret] by (eexists; vm_compute; reflexivity).
  exists st'. split; [exact Hret|]. split.
  - now apply (Hprop 0 st' Hret).
  - exists msg, st1'. split; [exact Hraise|]. rewrite Hc', Hr'. now split.
Defined.

(** ** Counting *)

Lemma view_of_sset_scalar (h : list qobj) (key : string) (a : scalar)
    (d : list (string * pval)) :
  view_of h (sset key (PScalar a) d) = sset key (One a) (view_of h d).
Proof.
  unfold view_of. induction d as [|[k v] d IH]; cbn; [reflexivity|].
  destruct (String.eqb key k); cbn; [reflexivity | now rewrite IH].
Qed.

Lemma dict_set_cons {K V : Type} (eqb : K -> K -> bool) (k : K) (v : V) (d : list (K * V)) :
  exists e d0, dict_set eqb k v d = e :: d0.
Proof. destruct d as [|[k' v'] d]; cbn; [|destruct (eqb k k')]; eauto. Qed.

(** The deep copy of a dictionary is seen as the original is. *)
Lemma view_of_copied (n : nat) (h h1 : list qobj) (d d' : list (string * pval)) :
  (forall l o, h !! l = Some o -> h1 !! l = Some o) ->
  (forall k l, In (k, PList l) d -> valid_list h l) ->
  Forall2 (copied n h1) d d' ->
  view_of h1 d' = view_of h d.
Proof.
  intros Hk Hwf Hc. induction Hc as [|[k v] [k' v'] d d' [Hkey Hv] _ IH]; [reflexivity|].
  cbn in Hkey, Hv. subst k'. unfold view_of in *. cbn [map fst snd].
  rewrite IH by (intros k0 l0 Hin; apply (Hwf k0); now right). f_equal.
  destruct v as [a|l], v' as [a'|l']; try contradiction; [now subst|].
  destruct Hv as (_ & xs & Hx & Hx'). rewrite Hx'.
  destruct (Hwf k l (or_introl eq_refl)) as [xs0 Hxs0]. rewrite Hxs0.
  apply Hk in Hxs0. congruence.
Qed.

Section Counting.
Context {B : Binding}.

Lemma setitem_scalar_Ret (p : loc) (key : string) (a : scalar) (d : list (string * pval))
    (st : state) :
  st_heap st !! p = Some (ODict d) ->
  setitem_scalar p key a st
    = Ret tt (set_heap (<[p := ODict (sset key (PScalar a) d)]> (st_heap st)) st).
Proof.
  intros Hd. unfold setitem_scalar. rewrite (bind_Ret _ _ _ _ _ (read_dict_Ret _ _ _ Hd)).
  apply (write_Ret _ _ _ _ Hd).
Qed.

(** X13: [count] works on a deep copy of the parameters: every query object
    that existed, the dictionary of [s] and its lists among them, is as it
    was.  It sends exactly one request, for the parameters of [s] overlaid
    with [_count=1], [_totalMethod=count] and [_format=json], and returns the
    [total] of the document received; an exception of the request layer is
    passed on; client and resources are as before. *)
Theorem count_request_and_total (s : searchset) (st : state) (d : list (string * pval)) :
  st_heap st !! ss_params s = Some (ODict d) ->
  (forall k l, In (k, PList l) d -> valid_list (st_heap st) l) ->
  let q := sset "_format" (PScalar (SStr "json"))
             (sset "_totalMethod" (PScalar (SStr "count"))
                (sset "_count" (PScalar (SInt 1)) d)) in
  let req := request_for (st_client st) "get" (VStr (ss_resource_type s)) None
               (view_of (st_heap st) q) in
  let ans := requests_request req (st_server st) in
  exists h,
    objects_kept st (after_request st h req ans.2) /\
    count s st =
      match ans.1 with
      | Ok r =>
          match decode_reply r with
          | Ok doc => lift (getitem doc "total") (after_request st h req ans.2)
          | Err e => Raise e (after_request st h req ans.2)
          end
      | Err e => Raise e (after_request st h req ans.2)
      end.
Proof.
  intros Hd Hwf q req ans.
  destruct (deepcopy_spec st (ss_params s) d Hd Hwf)
    as (np & d' & st1 & Hcopy & (Hkept & Hnp & _) & Hd' & Hcopied & Hlt).
  destruct Hkept as (Hobj & Hres & Hcl & Hsrv & Hsent).
  set (d1 := sset "_count" (PScalar (SInt 1)) d').
  set (d2 := sset "_totalMethod" (PScalar (SStr "count")) d1).
  set (d3 := sset "_format" (PScalar (SStr "json")) d2).
  set (st2 := set_heap (<[np := ODict d1]> (st_heap st1)) st1).
  set (st3 := set_heap (<[np := ODict d2]> (st_heap st2)) st2).
  assert (st_heap st2 !! np = Some (ODict d1)) as Hd1
    by (cbn; now apply list_lookup_insert_eq).
  assert (st_heap st3 !! np = Some (ODict d2)) as Hd2.
  { cbn. apply list_lookup_insert_eq. now rewrite length_insert. }
  assert (forall k l, In (k, PList l) d' -> l <> np /\ valid_list (st_heap st1) l) as Hl'.
  { intros k l Hin. destruct (copied_entries _ _ _ _ Hcopied k l Hin) as [[xs Hxs] _].
    split; [intros ->; congruence | now exists xs]. }
  assert (forall l, l <> np -> st_heap st3 !! l = st_heap st1 !! l) as Hsame.
  { intros l Hne. cbn. now rewrite !list_lookup_insert_ne by auto. }
  assert (forall k l, In (k, PList l) d2 -> valid_list (st_heap st3) l) as Hwf3.
  { intros k l Hin. do 2 apply In_sset_scalar in Hin.
    destruct (Hl' k l Hin) as [Hne [xs Hxs]]. exists xs. now rewrite Hsame. }
  pose proof (_do_request_params "get" (VStr (ss_resource_type s)) None np d2 st3 Hd2 Hwf3)
    as Hreq.
  cbv zeta in Hreq. fold d3 in Hreq.
  assert (view_of (st_heap st3) d3 = view_of (st_heap st) q) as Hview.
  { unfold d3, d2, d1, q. rewrite !view_of_sset_scalar. do 3 f_equal.
    transitivity (view_of (st_heap st1) d').
    - apply view_of_ext. intros k l Hin. apply Hsame. now apply (Hl' k).
    - now apply (view_of_copied (length (st_heap st))). }
  rewrite Hview in Hreq.
  assert (st_client st3 = st_client st) as Hcl3 by exact Hcl.
  assert (st_server st3 = st_server st) as Hsrv3 by exact Hsrv.
  rewrite Hcl3, Hsrv3 in Hreq. fold req in Hreq. fold ans in Hreq.
  set (h := <[np := ODict d3]> (st_heap st3)).
  assert (match d2 with
          | [] => st_heap st3 ++ [ODict d3]
          | _ :: _ => <[np := ODict d3]> (st_heap st3)
          end = h) as Hh.
  { destruct (dict_set_cons String.eqb "_totalMethod" (PScalar (SStr "count")) d1)
      as (e & d0 & Hcons).
    fold d2 in Hcons. now rewrite Hcons. }
  rewrite Hh in Hreq.
  assert (after_request st3 h req ans.2 = after_request st h req ans.2) as Hafter.
  { unfold after_request. cbn [st_resources st_client st_sent st3 st2 set_heap].
    now rewrite Hres, Hcl, Hsent. }
  rewrite Hafter in Hreq.
  exists h. split.
  - intros l o Hl. cbn. unfold h. pose proof (lookup_lt_Some _ _ _ Hl) as Hlt0.
    rewrite list_lookup_insert_ne by lia. rewrite Hsame by lia. now apply Hobj.
  - unfold count. rewrite (bind_Ret _ _ _ _ _ Hcopy).
    rewrite (bind_Ret _ _ _ _ _ (setitem_scalar_Ret np "_count" (SInt 1) d' st1 Hd')).
    fold d1 st2.
    rewrite (bind_Ret _ _ _ _ _ (setitem_scalar_Ret np "_totalMethod" (SStr "count") d1 st2 Hd1)).
    fold d2 st3. unfold mbind, M_bind, _fetch_resource. rewrite Hreq.
    destruct ans.1 as [r|e0]; [|reflexivity].
    unfold lift. destruct (decode_reply r); reflexivity.
Qed.

End Counting.

Lemma count_request_and_total_witness :
  exists st',
    @count summaries {| ss_resource_type := "Patient"; ss_params := 0 |}
      (@Build_state summaries [ODict [("name", PList 1)]; OList [SStr "Ann"]] []
         (example_client true) [answer 200 "total-abc"] [])
      = Ret (VInt 3) st' /\
    st_heap st' !! 0 = Some (ODict [("name", PList 1)]) /\
    map req_url (st_sent st')
      = ["http://fhir.test/Patient?name=Ann&_count=1&_totalMethod=count&_format=json"].
Proof.
  assert (forall k l, In (k, PList l) [("name", PList 1)] ->
                      valid_list [ODict [("name", PList 1)]; OList [SStr "Ann"]] l) as Hwf.
  { intros k l [[= _ <-]|[]]. now exists [SStr "Ann"]. }
  destruct (@count_request_and_total summaries
              {| ss_resource_type := "Patient"; ss_params := 0 |}
              (@Build_state summaries [ODict [("name", PList 1)]; OList [SStr "Ann"]] []
                 (example_client true) [answer 200 "total-abc"] [])
              [("name", PList 1)] eq_refl Hwf) as (h & Hkept & Hrun).
  eexists. split; [exact Hrun|]. split; [exact (Hkept 0 _ eq_refl) | reflexivity].
Defined.

(** ** What a fetch does to the state *)

Lemma sset_idem {V : Type} (k : string) (v : V) (d : list (string * V)) :
  sset k v (sset k v d) = sset k v d.
Proof.
  induction d as [|[k' v'] d IH]; cbn.
  - now rewrite String.eqb_refl.
  - destruct (String.eqb k k') eqn:E; cbn; rewrite E; [reflexivity | now rewrite IH].
Qed.

Section FetchRun.
Context {B : Binding}.

Lemma materialised_refl (skip_caching : bool) (st : state) : materialised skip_caching st st.
Proof. repeat split; try reflexivity. exists []. now rewrite app_nil_r. Qed.

Lemma materialised_trans (skip_caching : bool) (a b c : state) :
  materialised skip_caching a b -> materialised skip_caching b c ->
  materialised skip_caching a c.
Proof.
  intros (H1 & H2 & H3 & [n1 H4] & H5 & H6) (K1 & K2 & K3 & [n2 K4] & K5 & K6).
  split; [congruence|]. split; [congruence|]. split; [congruence|].
  split; [exists (n1 ++ n2); rewrite K4, H4; now rewrite app_assoc|].
  split; [congruence|].
  intros Hoff. specialize (H6 Hoff). rewrite K6; [exact H6|]. now rewrite H6.
Qed.

Lemma materialised_new (skip_caching : bool) (st : state) (r : resource) :
  materialised skip_caching st (set_resources (st_resources st ++ [r]) st).
Proof. repeat split; try reflexivity. now exists [r]. Qed.

Lemma materialised_with_cache (skip_caching : bool) (st : state)
    (cache : list (scalar * list (scalar * loc))) :
  (skip_caching || without_cache (st_client st) = true ->
   cache = resources_cache (st_client st)) ->
  materialised skip_caching st (with_cache cache st).
Proof.
  intros H. repeat split; try reflexivity; [exists []; cbn; now rewrite app_nil_r|].
  intros Hoff. rewrite (H Hoff). now destruct st as [h rs [] srv sent].
Qed.

(** Constructing a resource ends: with the new resource at the end of the
    store, or with an exception and the state as it was. *)
Lemma Client_resource_cases (rt : value) (kwargs : list (string * value)) (st : state) :
  match Client_resource rt kwargs st with
  | Ret l st' =>
      l = length (st_resources st) /\
      exists r, st' = set_resources (st_resources st ++ [r]) st
  | Raise e st' => st' = st
  | _ => False
  end.
Proof.
  assert (match Resource_init rt kwargs st with
          | Ret l st' =>
              l = length (st_resources st) /\
              exists r, st' = set_resources (st_resources st ++ [r]) st
          | Raise e st' => st' = st
          | _ => False
          end) as Hinit.
  { unfold Resource_init.
    destruct (convert_kwargs (sset "resourceType" rt kwargs)) as [fs|e] eqn:Hconv;
      [|now rewrite (bind_Raise _ _ _ _ _ (lift_Err _ _ st eq_refl))].
    rewrite (bind_Ret _ _ _ _ _ (lift_Ok _ _ st eq_refl)).
    destruct (collides ["self"; "client"] fs); [reflexivity|]. mret.
    destruct (_raise_error_if_invalid_keys (st_client st)
                {| resource_type := rt; fields := fs |} (map fst fs)) as [[]|e] eqn:Hgate.
    - rewrite (bind_Ret _ _ _ _ _ (lift_Ok _ _ st eq_refl)). cbn.
      split; [reflexivity | now eexists].
    - now rewrite (bind_Raise _ _ _ _ _ (lift_Err _ _ st eq_refl)). }
  unfold Client_resource.
  destruct rt as [[| | |]| |]; try reflexivity;
    (destruct (collides ["self"; "client"; "resource_type"] kwargs);
     [reflexivity | exact Hinit]).
Qed.

(** Filing a resource that is in the store ends, and changes at most the
    cache. *)
Lemma _add_resource_to_cache_cases (l : loc) (r : resource) (st : state) :
  st_resources st !! l = Some r ->
  exists cache,
    (without_cache (st_client st) = true -> cache = resources_cache (st_client st)) /\
    match _add_resource_to_cache l st with
    | Ret _ st' => st' = with_cache cache st
    | Raise _ st' => st' = with_cache cache st
    | _ => False
    end.
Proof.
  intros Hl. destruct (without_cache (st_client st)) eqn:Hoff.
  - exists (resources_cache (st_client st)). split; [reflexivity|].
    rewrite _add_resource_to_cache_off by exact Hoff. now rewrite with_cache_same.
  - unfold _add_resource_to_cache. mret. rewrite Hoff. mstep (read_resource_Ret _ _ _ Hl).
    destruct (resource_type r) as [kt| |].
    2,3: exists (resources_cache (st_client st)); split; [discriminate|];
         unfold cache_getitem; cbn [as_key]; erewrite bind_Raise by reflexivity;
         now rewrite with_cache_same.
    mstep (cache_getitem_Ret kt st).
    destruct (Resource_id (st_client st) r) as [i|e] eqn:Hid.
    + mret. destruct i as [ki| |]; cbn [as_key].
      * mret. mret. eexists. split; [discriminate|]. unfold put_cache, with_cache. cbn.
        reflexivity.
      * eexists. split; [discriminate|]. erewrite bind_Raise by reflexivity. reflexivity.
      * eexists. split; [discriminate|]. erewrite bind_Raise by reflexivity. reflexivity.
    + eexists. split; [discriminate|].
      erewrite bind_Raise by reflexivity. reflexivity.
Qed.

(** Making a resource of one document ends; when it returns, the result is
    the one resource it has added. *)
Lemma _perform_resource_cases (s : searchset) (data : value) (skip_caching : bool)
    (st : state) :
  match _perform_resource s data skip_caching st with
  | Ret l st' =>
      (exists r, st_resources st' !! l = Some r) /\ materialised skip_caching st st'
  | Raise e st' => materialised skip_caching st st'
  | _ => False
  end.
Proof.
  unfold _perform_resource. destruct data as [a|xs|kvs]; try apply materialised_refl.
  pose proof (Client_resource_cases (get_default "resourceType" kvs VNone) kvs st) as Hnew.
  unfold mbind at 1, M_bind at 1.
  destruct (Client_resource _ kvs st) as [l st1|e st1| |]; try contradiction.
  2: subst st1; apply materialised_refl.
  destruct Hnew as (-> & r & ->).
  set (st1 := set_resources (st_resources st ++ [r]) st).
  assert (st_resources st1 !! length (st_resources st) = Some r) as Hl by apply lookup_new.
  destruct skip_caching.
  - mret. cbn. split; [now exists r | apply materialised_new].
  - destruct (_add_resource_to_cache_cases _ r st1 Hl) as (cache & Hcache & Hadd).
    assert (materialised false st (with_cache cache st1)) as Hm.
    { apply (materialised_trans _ _ st1); [apply materialised_new|].
      apply materialised_with_cache. cbn [orb]. exact Hcache. }
    unfold mbind at 1, M_bind at 1.
    destruct (_add_resource_to_cache _ st1) as [[] st2|e st2| |]; try contradiction;
      subst st2; [|exact Hm].
    cbn. split; [now exists r | exact Hm].
Qed.

(** The loop of [fetch] ends, whatever the documents are. *)
Lemma fetch_loop_ends (s : searchset) (skip_caching : bool) (datas : list value) :
  forall (acc : list loc) (st : state),
    ends (materialised skip_caching) (fetch_loop s skip_caching datas acc) st.
Proof.
  induction datas as [|data datas IH]; intros acc st.
  - exists st. split; [reflexivity | apply materialised_refl].
  - unfold ends. cbn [fetch_loop].
    pose proof (_perform_resource_cases s data skip_caching st) as Hp.
    unfold mbind at 1, M_bind at 1.
    destruct (_perform_resource s data skip_caching st) as [l st1|e st1| |];
      try contradiction.
    + destruct Hp as [[r Hr] Hm]. mstep (read_resource_Ret _ _ _ Hr).
      destruct (IH (if is_str (resource_type r) (ss_resource_type s) then acc ++ [l] else acc)
                  st1) as (st' & Hrun & Hm').
      exists st'. split; [exact Hrun | now apply (materialised_trans _ _ st1)].
    + exists st1. now split.
Qed.

(** [fetch] ends in a state that differs from the one right after the
    request only by the resources made. *)
Lemma fetch_ends (s : searchset) (skip_caching : bool) (st : state)
    (d : list (string * pval)) :
  st_heap st !! ss_params s = Some (ODict d) ->
  (forall k l, In (k, PList l) d -> valid_list (st_heap st) l) ->
  let d1 := sset "_format" (PScalar (SStr "json")) d in
  let h1 := match d with
            | [] => st_heap st ++ [ODict d1]
            | _ :: _ => <[ss_params s := ODict d1]> (st_heap st)
            end in
  let req := request_for (st_client st) "get" (VStr (ss_resource_type s)) None
               (view_of (st_heap st) d1) in
  exists st',
    final_state (fetch s skip_caching st) = Some st' /\
    materialised skip_caching
      (after_request st h1 req (requests_request req (st_server st)).2) st'.
Proof.
  intros Hd Hwf d1 h1 req.
  pose proof (_do_request_params "get" (VStr (ss_resource_type s)) None (ss_params s) d st
                Hd Hwf) as Hreq.
  cbv zeta in Hreq. fold d1 h1 req in Hreq.
  set (st1 := after_request st h1 req (requests_request req (st_server st)).2) in *.
  unfold fetch, _fetch_resource. unfold mbind at 1, M_bind at 1. rewrite Hreq.
  destruct (requests_request req (st_server st)).1 as [r|e];
    [|exists st1; split; [reflexivity | apply materialised_refl]].
  unfold lift at 1. destruct (decode_reply r) as [doc|e];
    [|exists st1; split; [reflexivity | apply materialised_refl]].
  cbn [ret mret M_ret].
  destruct doc as [a|xs|bd]; try (exists st1; split; [reflexivity | apply materialised_refl]).
  destruct (negb (is_str (get_default "resourceType" bd VNone) "Bundle"));
    [exists st1; split; [reflexivity | apply materialised_refl]|].
  destruct (iterate (get_default "entry" bd (VList []))) as [entries|e];
    [|exists st1; split; [reflexivity | apply materialised_refl]].
  rewrite (bind_Ret _ _ _ _ _ (lift_Ok _ _ st1 eq_refl)).
  destruct (map_result (fun res => getitem res "resource") entries) as [datas|e];
    [|exists st1; split; [reflexivity | apply materialised_refl]].
  rewrite (bind_Ret _ _ _ _ _ (lift_Ok _ _ st1 eq_refl)).
  apply fetch_loop_ends.
Qed.

(** X14: [fetch] on a SearchSet with well-formed parameters always ends, by
    return or by exception.  It sends exactly one request, for the parameters
    overlaid with [_format=json], which it writes into the SearchSet's own
    dictionary (into a new one if that is empty); after the request it only
    adds resources at the end of the store and files them in the cache, and
    with [skip_caching] or with caching disabled it leaves the client as it
    was.  A second [fetch] sends the same request once more. *)
Theorem fetch_run (s : searchset) (skip_caching : bool) (st : state)
    (d : list (string * pval)) :
  st_heap st !! ss_params s = Some (ODict d) ->
  (forall k l, In (k, PList l) d -> valid_list (st_heap st) l) ->
  let d1 := sset "_format" (PScalar (SStr "json")) d in
  let h1 := match d with
            | [] => st_heap st ++ [ODict d1]
            | _ :: _ => <[ss_params s := ODict d1]> (st_heap st)
            end in
  let req := request_for (st_client st) "get" (VStr (ss_resource_type s)) None
               (view_of (st_heap st) d1) in
  exists st',
    final_state (fetch s skip_caching st) = Some st' /\
    materialised skip_caching
      (after_request st h1 req (requests_request req (st_server st)).2) st' /\
    exists st'',
      final_state (fetch s skip_caching st') = Some st'' /\
      st_sent st'' = st_sent st ++ [req; req].
Proof.
  intros Hd Hwf d1 h1 req.
  destruct (fetch_ends s skip_caching st d Hd Hwf) as (st' & Hrun & Hm).
  cbv zeta in Hm. fold d1 h1 req in Hm.
  exists st'. split; [exact Hrun|]. split; [exact Hm|].
  destruct Hm as (Hheap & _ & Hsent & _ & Hclient & _).
  cbn [after_request st_heap st_sent st_client] in Hheap, Hsent, Hclient.
  pose proof (lookup_lt_Some _ _ _ Hd) as Hlt.
  set (d' := match d with [] => [] | _ :: _ => d1 end).
  assert (st_heap st' !! ss_params s = Some (ODict d')) as Hd'.
  { rewrite Hheap. unfold h1, d'. destruct d as [|e d0]; [now apply lookup_app_l_Some|].
    now apply list_lookup_insert_eq. }
  assert (forall k l, In (k, PList l) d -> h1 !! l = st_heap st !! l) as Hlists.
  { intros k l Hin. destruct (Hwf k l Hin) as [xs Hxs]. rewrite Hxs. unfold h1.
    destruct d as [|e d0]; [now apply lookup_app_l_Some|].
    rewrite list_lookup_insert_ne; [exact Hxs | intros Heq; congruence]. }
  assert (forall k l, In (k, PList l) d' -> In (k, PList l) d) as Hin'.
  { intros k l. unfold d'. destruct d as [|e d0]; [contradiction|]. apply In_sset_scalar. }
  assert (forall k l, In (k, PList l) d' -> valid_list (st_heap st') l) as Hwf'.
  { intros k l Hin. apply Hin' in Hin. destruct (Hwf k l Hin) as [xs Hxs].
    exists xs. rewrite Hheap, (Hlists k l Hin). exact Hxs. }
  destruct (fetch_ends s skip_caching st' d' Hd' Hwf') as (st'' & Hrun' & Hm').
  cbv zeta in Hm'. exists st''. split; [exact Hrun'|].
  destruct Hm' as (_ & _ & Hsent' & _).
  cbn [after_request st_sent] in Hsent'. rewrite Hsent', Hsent, <- app_assoc. cbn [app].
  do 3 f_equal.
  assert (sset "_format" (PScalar (SStr "json")) d' = d1) as ->
    by (unfold d', d1; destruct d as [|e d0]; [reflexivity | apply sset_idem]).
  assert (view_of (st_heap st') d1 = view_of (st_heap st) d1) as Hview.
  { rewrite Hheap. apply view_of_ext. intros k l Hin.
    apply In_sset_scalar in Hin. now apply (Hlists k). }
  pose proof (f_equal url Hclient) as Hurl.
  pose proof (f_equal authorization Hclient) as Hauth.
  cbn in Hurl, Hauth. unfold req, request_for. now rewrite Hview, Hurl, Hauth.
Qed.

End FetchRun.

Lemma fetch_run_witness :
  exists st' st'',
    final_state
      (fetch {| ss_resource_type := "Patient"; ss_params := 0 |} false
         (set_heap [ODict [("name", PList 1)]; OList [SStr "Ann"]]
            (example_state true [] [answer 200 "bundle-mixed"; answer 200 "bundle-empty"])))
      = Some st' /\
    st_heap st' = [ODict [("name", PList 1); ("_format", PScalar (SStr "json"))];
                   OList [SStr "Ann"]] /\
    final_state (fetch {| ss_resource_type := "Patient"; ss_params := 0 |} false st')
      = Some st'' /\
    map req_url (st_sent st'')
      = ["http://fhir.test/Patient?name=Ann&_format=json";
         "http://fhir.test/Patient?name=Ann&_format=json"].
Proof.
  assert (forall k l, In (k, PList l) [("name", PList 1)] ->
                      valid_list [ODict [("name", PList 1)]; OList [SStr "Ann"]] l) as Hwf.
  { intros k l [[= _ <-]|[]]. now exists [SStr "Ann"]. }
  destruct (fetch_run {| ss_resource_type := "Patient"; ss_params := 0 |} false
              (set_heap [ODict [("name", PList 1)]; OList [SStr "Ann"]]
                 (example_state true [] [answer 200 "bundle-mixed"; answer 200 "bundle-empty"]))
              [("name", PList 1)] eq_refl Hwf)
    as (st' & Hrun & (Hheap & _) & st'' & Hrun' & Hsent).
  exists st', st''. split; [exact Hrun|]. split; [exact Hheap|]. split; [exact Hrun'|].
  now rewrite Hsent.
Defined.

(** ** Refinements that replace an entry, and [first] *)

Lemma view_of_sset_list (h : list qobj) (key : string) (l : loc) (xs : list scalar)
    (d : list (string * pval)) :
  h !! l = Some (OList xs) ->
  view_of h (sset key (PList l) d) = sset key (Many xs) (view_of h d).
Proof.
  intros Hl. unfold view_of. induction d as [|[k v] d IH]; cbn.
  - now rewrite Hl.
  - destruct (String.eqb key k); cbn; [now rewrite Hl | now rewrite IH].
Qed.

Lemma sset_sset_same {V : Type} (k : string) (v v' : V) (d : list (string * V)) :
  sset k v' (sset k v d) = sset k v' d.
Proof.
  induction d as [|[k0 v0] d IH]; cbn.
  - now rewrite String.eqb_refl.
  - destruct (String.eqb k k0) eqn:E; cbn; rewrite E; [reflexivity | now rewrite IH].
Qed.

Section Replacing.
Context {B : Binding}.

(** [clone] with [override] and one scalar argument: the result is seen as
    [s] is, but for the entry of the key, which holds the argument alone. *)
Lemma clone_override_scalar (s : searchset) (key : string) (a : scalar) (st : state)
    (d : list (string * pval)) :
  st_heap st !! ss_params s = Some (ODict d) ->
  (forall k l, In (k, PList l) d -> valid_list (st_heap st) l) ->
  exists s' st' d',
    clone s true [(key, PScalar a)] st = Ret s' st' /\
    refined st s (Ret s' st') /\
    st_heap st' !! ss_params s' = Some (ODict d') /\
    (forall k l, In (k, PList l) d' -> valid_list (st_heap st') l) /\
    view_of (st_heap st') d' = sset key (Many [a]) (view_of (st_heap st) d).
Proof.
  intros Hd Hwf.
  destruct (deepcopy_spec st (ss_params s) d Hd Hwf)
    as (np & d0 & st1 & Hcopy & (Hkept & Hnp & _) & Hd0 & Hcopied & Hlt).
  set (value := length (st_heap st1)).
  set (st1a := set_heap (st_heap st1 ++ [OList [a]]) st1).
  set (d2 := sset key (PList value) d0).
  set (st2 := set_heap (<[np := ODict d2]> (st_heap st1a)) st1a).
  assert (st_heap st1a !! np = Some (ODict d0)) as Hd0a by (cbn; now apply lookup_app_l_Some).
  assert (st_heap st2 !! np = Some (ODict d2)) as Hd2.
  { cbn. apply list_lookup_insert_eq. rewrite length_app. lia. }
  assert (clone_step true np (key, PScalar a) st1 = Ret tt st2) as Hstep.
  { unfold clone_step. cbn [fst snd]. rewrite (bind_Ret _ _ _ _ _ (alloc_Ret (OList [a]) st1)).
    fold st1a value. rewrite (bind_Ret _ _ _ _ _ (read_dict_Ret _ _ _ Hd0a)).
    apply (write_Ret _ _ _ _ Hd0a). }
  set (s' := {| ss_resource_type := ss_resource_type s; ss_params := length (st_heap st2) |}).
  set (st' := set_heap (st_heap st2 ++ [ODict d2]) st2).
  assert (clone s true [(key, PScalar a)] st = Ret s' st') as Hclone.
  { unfold clone. rewrite (bind_Ret _ _ _ _ _ Hcopy). cbn [for_each].
    rewrite (bind_Ret _ _ _ _ _
               (bind_Ret _ _ _ _ _ Hstep : (clone_step true np (key, PScalar a);; ret tt) st1
                                            = Ret tt st2)).
    apply (SearchSet_init_Ret _ _ _ _ Hd2). }
  assert (wf_kwargs (st_heap st) [(key, PScalar a)]) as Hkw by now constructor.
  destruct (clone_spec s true [(key, PScalar a)] st d Hd Hwf Hkw) as [Href _].
  rewrite Hclone in Href.
  assert (value <> np) as Hvnp by (unfold value; lia).
  assert (st_heap st' !! value = Some (OList [a])) as Hvalue.
  { cbn. apply lookup_app_l_Some. rewrite list_lookup_insert_ne by auto. apply lookup_new. }
  assert (forall k l, In (k, PList l) d0 ->
            st_heap st' !! l = st_heap st1 !! l /\ valid_list (st_heap st1) l) as Hold.
  { intros k l Hin. destruct (copied_entries _ _ _ _ Hcopied k l Hin) as [[xs Hxs] _].
    split; [|now exists xs]. rewrite Hxs. cbn. apply lookup_app_l_Some.
    rewrite list_lookup_insert_ne by (intros ->; congruence).
    now apply lookup_app_l_Some. }
  exists s', st', d2. split; [exact Hclone|]. split; [exact Href|].
  split; [apply lookup_new|]. split.
  - intros k l Hin. apply In_sset in Hin as [[= ->]|Hin]; [now exists [a]|].
    destruct (Hold k l Hin) as [Heq [xs Hxs]]. exists xs. now rewrite Heq.
  - unfold d2. rewrite (view_of_sset_list _ _ _ _ _ Hvalue). f_equal.
    transitivity (view_of (st_heap st1) d0).
    + apply view_of_ext. intros k l Hin. now apply (Hold k l).
    + apply (view_of_copied (length (st_heap st))); [|exact Hwf|exact Hcopied].
      apply Hkept.
Qed.

(** What is seen of [s] is not changed by a refinement of [s]. *)
Lemma params_view_kept (st st' : state) (s : searchset) (d : list (string * pval)) :
  st_heap st !! ss_params s = Some (ODict d) ->
  (forall k l, In (k, PList l) d -> valid_list (st_heap st) l) ->
  (forall l o, st_heap st !! l = Some o -> st_heap st' !! l = Some o) ->
  params_view (st_heap st') s = Some (view_of (st_heap st) d).
Proof.
  intros Hd Hwf Hk. unfold params_view. rewrite (Hk _ _ Hd). f_equal.
  apply view_of_ext. intros k l Hin. destruct (Hwf k l Hin) as [xs Hxs].
  now rewrite Hxs, (Hk _ _ Hxs).
Qed.

(** X15: [limit], [page] and [sort] return a SearchSet whose parameters are
    those of [s] but for the one entry [_count], [page] or [_sort], which
    holds the argument alone (for [sort], the keys joined by commas), at the
    position the entry had, or at the end; [s] is seen as before.  A later
    [limit] replaces an earlier one. *)
Theorem override_replaces (s : searchset) (st : state) (d : list (string * pval))
    (a b : scalar) (keys : list string) :
  st_heap st !! ss_params s = Some (ODict d) ->
  (forall k l, In (k, PList l) d -> valid_list (st_heap st) l) ->
  let v := view_of (st_heap st) d in
  (exists s1 st1,
     limit s (PScalar a) st = Ret s1 st1 /\
     params_view (st_heap st1) s1 = Some (sset "_count" (Many [a]) v) /\
     params_view (st_heap st1) s = Some v /\
     exists s2 st2,
       limit s1 (PScalar b) st1 = Ret s2 st2 /\
       params_view (st_heap st2) s2 = Some (sset "_count" (Many [b]) v) /\
       params_view (st_heap st2) s1 = Some (sset "_count" (Many [a]) v)) /\
  (exists s1 st1,
     page s (PScalar a) st = Ret s1 st1 /\
     params_view (st_heap st1) s1 = Some (sset "page" (Many [a]) v) /\
     params_view (st_heap st1) s = Some v) /\
  (exists s1 st1,
     sort s keys st = Ret s1 st1 /\
     params_view (st_heap st1) s1 = Some (sset "_sort" (Many [SStr (join "," keys)]) v) /\
     params_view (st_heap st1) s = Some v).
Proof.
  intros Hd Hwf v.
  assert (forall key x,
             exists s1 st1 d1,
               clone s true [(key, PScalar x)] st = Ret s1 st1 /\
               st_heap st1 !! ss_params s1 = Some (ODict d1) /\
               (forall k l, In (k, PList l) d1 -> valid_list (st_heap st1) l) /\
               view_of (st_heap st1) d1 = sset key (Many [x]) v /\
               params_view (st_heap st1) s1 = Some (sset key (Many [x]) v) /\
               params_view (st_heap st1) s = Some v) as Hone.
  { intros key x.
    destruct (clone_override_scalar s key x st d Hd Hwf)
      as (s1 & st1 & d1 & Hrun & Href & Hd1 & Hwf1 & Hview).
    exists s1, st1, d1. split; [exact Hrun|]. split; [exact Hd1|]. split; [exact Hwf1|].
    split; [exact Hview|]. split.
    - unfold params_view. now rewrite Hd1, Hview.
    - apply (params_view_kept st); [exact Hd | exact Hwf | apply Href]. }
  split; [|split].
  - destruct (Hone "_count" a) as (s1 & st1 & d1 & Hrun & Hd1 & Hwf1 & Hview & Hv1 & Hv).
    exists s1, st1. split; [exact Hrun|]. split; [exact Hv1|]. split; [exact Hv|].
    destruct (clone_override_scalar s1 "_count" b st1 d1 Hd1 Hwf1)
      as (s2 & st2 & d2 & Hrun2 & Href2 & Hd2 & Hwf2 & Hview2).
    exists s2, st2. split; [exact Hrun2|]. split.
    + unfold params_view. rewrite Hd2, Hview2, Hview. now rewrite sset_sset_same.
    + rewrite <- Hview. apply (params_view_kept st1); [exact Hd1 | exact Hwf1 | apply Href2].
  - destruct (Hone "page" a) as (s1 & st1 & d1 & Hrun & _ & _ & _ & Hv1 & Hv).
    now exists s1, st1.
  - destruct (Hone "_sort" (SStr (join "," keys))) as (s1 & st1 & d1 & Hrun & _ & _ & _ & Hv1 & Hv).
    now exists s1, st1.
Qed.

Lemma final_state_map {A C : Type} (m : M A) (f : A -> C) (st : state) :
  final_state ((x ← m; ret (f x)) st) = final_state (m st).
Proof. unfold mbind, M_bind. now destruct (m st). Qed.

(** X16: [first] always ends; it sends exactly one request, for the
    parameters of [s] with [_count] set to 1 and with [_format=json]; the
    parameters of [s] and all other query objects are as they were, since
    the request layer writes to the copy; resources are only added; when
    [first] returns, the result is the first of the added resources that has
    the declared type, and [None] when there is none. *)
Theorem first_run (s : searchset) (st : state) (d : list (string * pval)) :
  st_heap st !! ss_params s = Some (ODict d) ->
  (forall k l, In (k, PList l) d -> valid_list (st_heap st) l) ->
  let v := sset "_format" (One (SStr "json"))
             (sset "_count" (Many [SInt 1]) (view_of (st_heap st) d)) in
  let req := request_for (st_client st) "get" (VStr (ss_resource_type s)) None v in
  exists st',
    final_state (first s st) = Some st' /\
    st_sent st' = st_sent st ++ [req] /\
    st_server st' = (requests_request req (st_server st)).2 /\
    objects_kept st st' /\
    params_view (st_heap st') s = Some (view_of (st_heap st) d) /\
    (exists news, st_resources st' = st_resources st ++ news) /\
    forall o, first s st = Ret o st' ->
      o = head (List.filter (declared_at s (st_resources st'))
                  (seq (length (st_resources st))
                       (length (st_resources st') - length (st_resources st)))).
Proof.
  intros Hd Hwf v req.
  destruct (clone_override_scalar s "_count" (SInt 1) st d Hd Hwf)
    as (s1 & st1 & d1 & Hrun & Href & Hd1 & Hwf1 & Hview).
  destruct Href as ((Hobj & Hres & Hcl & Hsrv & Hsent) & Hnew & Hrt & _).
  destruct (fetch_ends s1 false st1 d1 Hd1 Hwf1) as (st' & Hfetch & Hm).
  cbv zeta in Hm. rewrite view_of_sset_scalar, Hview, Hcl, Hrt, Hsrv in Hm.
  fold v req in Hm.
  destruct Hm as (Hheap' & Hsrv' & Hsent' & [news Hres'] & _).
  cbn [after_request st_heap st_server st_sent st_resources] in Hheap', Hsrv', Hsent', Hres'.
  assert (objects_kept st st') as Hkept.
  { intros l o Hl. rewrite Hheap'. pose proof (lookup_lt_Some _ _ _ Hl) as Hlt.
    apply Hobj in Hl. destruct d1 as [|e d1]; [now apply lookup_app_l_Some|].
    rewrite list_lookup_insert_ne by lia. exact Hl. }
  assert (forall o st2, first s st = Ret o st2 ->
            exists rs, fetch s1 false st1 = Ret rs st2 /\ o = head rs) as Hinv.
  { unfold first, limit. rewrite (bind_Ret _ _ _ _ _ Hrun). unfold mbind, M_bind.
    intros o st2. destruct (fetch s1 false st1) as [rs st3|e st3| |]; try discriminate.
    intros [= <- <-]. now exists rs. }
  exists st'. split.
  { unfold first, limit. rewrite (bind_Ret _ _ _ _ _ Hrun).
    now rewrite final_state_map. }
  split; [now rewrite Hsent', Hsent|]. split; [exact Hsrv'|]. split; [exact Hkept|].
  split; [now apply (params_view_kept st)|].
  split; [exists news; now rewrite Hres', Hres|].
  intros o Ho. destruct (Hinv o st' Ho) as (rs & Hrs & ->).
  apply fetch_result in Hrs. rewrite Hres in Hrs. rewrite Hrs. f_equal.
  apply filter_ext. intros l. unfold declared_at. now rewrite Hrt.
Qed.

End Replacing.

Lemma override_replaces_witness :
  exists s1 st1,
    limit {| ss_resource_type := "Patient"; ss_params := 0 |} (PScalar (SInt 10))
      (set_heap [ODict [("name", PList 1)]; OList [SStr "Ann"]] (example_state true [] []))
      = Ret s1 st1 /\
    params_view (st_heap st1) s1
      = Some [("name", Many [SStr "Ann"]); ("_count", Many [SInt 10])] /\
    exists s2 st2,
      limit s1 (PScalar (SInt 20)) st1 = Ret s2 st2 /\
      params_view (st_heap st2) s2
        = Some [("name", Many [SStr "Ann"]); ("_count", Many [SInt 20])].
Proof.
  assert (forall k l, In (k, PList l) [("name", PList 1)] ->
                      valid_list [ODict [("name", PList 1)]; OList [SStr "Ann"]] l) as Hwf.
  { intros k l [[= _ <-]|[]]. now exists [SStr "Ann"]. }
  destruct (override_replaces {| ss_resource_type := "Patient"; ss_params := 0 |}
              (set_heap [ODict [("name", PList 1)]; OList [SStr "Ann"]]
                 (example_state true [] []))
              [("name", PList 1)] (SInt 10) (SInt 20) [] eq_refl Hwf)
    as ((s1 & st1 & Hrun & Hv1 & _ & s2 & st2 & Hrun2 & Hv2 & _) & _).
  exists s1, st1. split; [exact Hrun|]. split; [exact Hv1|].
  exists s2, st2. split; [exact Hrun2 | exact Hv2].
Defined.

Lemma first_run_witness :
  exists st',
    final_state
      (first {| ss_resource_type := "Observation"; ss_params := 0 |}
         (set_heap [ODict [("name", PList 1)]; OList [SStr "Ann"]]
            (example_state true [] [answer 200 "bundle-mixed"])))
      = Some st' /\
    map req_url (st_sent st') = ["http://fhir.test/Observation?name=Ann&_count=1&_format=json"] /\
    st_heap st' !! 0 = Some (ODict [("name", PList 1)]) /\
    first {| ss_resource_type := "Observation"; ss_params := 0 |}
      (set_heap [ODict [("name", PList 1)]; OList [SStr "Ann"]]
         (example_state true [] [answer 200 "bundle-mixed"]))
      = Ret (Some 1) st'.
Proof.
  assert (forall k l, In (k, PList l) [("name", PList 1)] ->
                      valid_list [ODict [("name", PList 1)]; OList [SStr "Ann"]] l) as Hwf.
  { intros k l [[= _ <-]|[]]. now exists [SStr "Ann"]. }
  destruct (first_run {| ss_resource_type := "Observation"; ss_params := 0 |}
              (set_heap [ODict [("name", PList 1)]; OList [SStr "Ann"]]
                 (example_state true [] [answer 200 "bundle-mixed"]))
              [("name", PList 1)] eq_refl Hwf)
    as (st' & Hrun & Hsent & _ & Hkept & _).
  exists st'. split; [exact Hrun|]. split; [now rewrite Hsent|].
  split; [exact (Hkept 0 _ eq_refl)|].
  revert Hrun. vm_compute. now intros [= <-].
Defined.

(** ** The path and the reference of a resource *)

(** X17: a resource whose id is truthy has the reference
    "{resource_type}/{id}", and its path is that reference; a resource whose
    id is missing or falsy has no reference, and its path is its resource
    type, or the empty path for a Bundle; when the id cannot be read, the
    reference and the path fail with the same error. *)
Theorem path_follows_reference (c : client) (r : resource) :
  match reference c r with
  | Ok (Some p) =>
      _get_path c r = Ok (VStr p) /\
      exists i, Resource_id c r = Ok i /\ truthy i = true /\ p = format2 (resource_type r) i
  | Ok None =>
      _get_path c r =
        Ok (if is_str (resource_type r) "Bundle" then VStr EmptyString else resource_type r) /\
      exists i, Resource_id c r = Ok i /\ truthy i = false
  | Err e => _get_path c r = Err e /\ Resource_id c r = Err e
  end.
Proof.
  destruct (Resource_id c r) as [i|e] eqn:Hid.
  - rewrite (reference_of_id c r i Hid), (_get_path_of_id c r i Hid).
    destruct (truthy i) eqn:Ht.
    + split; [reflexivity|]. now exists i.
    + split; [reflexivity|]. now exists i.
  - unfold reference, _get_path. rewrite Hid. cbn. now split.
Qed.

(** ** A saved resource *)

Lemma cache_lookup_del_same (kt ki kt' ki' : scalar)
    (cache : list (scalar * list (scalar * loc))) :
  same_key (kt', ki') (kt, ki) = true ->
  cache_lookup kt' ki' (cache_del kt ki cache) = None.
Proof.
  unfold same_key. cbn [fst snd]. intros Hs. apply andb_true_iff in Hs as [H1 H2].
  pose proof (cache_lookup_del kt ki cache) as Hdel.
  unfold cache_lookup in *. rewrite (dict_get_equal_keys kt' kt) by exact H1.
  destruct (dict_get scalar_eqb kt (cache_del kt ki cache)); [|reflexivity].
  now rewrite (dict_get_equal_keys ki' ki) by exact H2.
Qed.

Section Saved.
Context {B : Binding}.

(** [save] up to the filing: the request and the two assignments. *)
Lemma save_run (st : state) (l : loc) (r : resource) (i body : value)
    (rep : reply) (srv' : server) (d : list (string * value)) :
  st_resources st !! l = Some r ->
  Resource_id (st_client st) r = Ok i ->
  serialize r = Ok body ->
  let c := st_client st in
  let verb := if truthy i then "put" else "post" in
  let path := if truthy i then VStr (format2 (resource_type r) i)
              else if is_str (resource_type r) "Bundle" then VStr EmptyString
              else resource_type r in
  let req := plain_request c verb path (Some body) in
  requests_request req (st_server st) = (Ok rep, srv') ->
  decode_reply rep = Ok (VDict d) ->
  let id' := get_default "id" d VNone in
  let r' := {| resource_type := resource_type r;
               fields := sset "id" id' (sset "meta" (get_default "meta" d (VDict []))
                                          (fields r)) |} in
  let st3 := set_resources (<[l := r']> (st_resources st)) (requested st req srv') in
  save l st = _add_resource_to_cache l st3 /\
  st_resources st3 !! l = Some r' /\
  Resource_id (st_client st) r' = Ok id'.
Proof.
  intros Hl Hid Hser c verb path req Hans Hdoc id' r' st3.
  set (meta' := get_default "meta" d (VDict [])) in *.
  pose proof (lookup_lt_Some _ _ _ Hl) as Hlt.
  set (st1 := requested st req srv').
  set (r1 := {| resource_type := resource_type r;
                fields := sset "meta" meta' (fields r) |}).
  set (st2 := set_resources (<[l := r1]> (st_resources st)) st1).
  assert (Resource_setitem l "meta" meta' st1 = Ret tt st2) as Hmeta.
  { apply (Resource_setitem_Ret st1 l r); [exact Hl | reflexivity |].
    now apply (gate_of_id _ r r i). }
  assert (Resource_setitem l "id" id' st2 = Ret tt st3) as Hset.
  { unfold st3. rewrite <- (list_insert_insert_eq (st_resources st) l r' r1).
    apply (Resource_setitem_Ret st2 l r1).
    - cbn. now apply list_lookup_insert_eq.
    - reflexivity.
    - now apply (gate_of_id _ r r1 i). }
  assert (forall k : M unit,
             (_do_request verb path (Some body) None ≫=
                fun data => match data with
                            | VDict d => Resource_setitem l "meta" (get_default "meta" d (VDict []));;
                                         Resource_setitem l "id" (get_default "id" d VNone);; k
                            | _ => raise AttributeError
                            end) st = k st3) as Hrun.
  { intros k. unfold mbind at 1, M_bind at 1.
    rewrite _do_request_no_params. cbv zeta.
    change (plain_request (st_client st) verb path (Some body)) with req.
    rewrite Hans. cbn [fst snd]. fold st1. rewrite (lift_Ok _ _ st1 Hdoc).
    mstep Hmeta. now mstep Hset. }
  split; [|split].
  - unfold save. mret. mstep (read_resource_Ret _ _ _ Hl).
    mstep (lift_Ok _ _ st Hid).
    mstep (lift_Ok _ _ st (_get_path_of_id _ _ _ Hid)).
    mstep (lift_Ok _ _ st Hser). apply Hrun.
  - cbn. now apply list_lookup_insert_eq.
  - unfold Resource_id, AbstractResource_get.
    rewrite (gate_of_id (st_client st) r r' i) by (assumption || reflexivity).
    cbn. unfold get_default. now rewrite sget_sset_same.
Qed.

(** X18: after a [save] that the server answers with a document carrying a
    truthy id, the resource has the reference "{resource_type}/{id}" with the
    id received; a [delete] that follows evicts it without a key error and
    sends its request to that path, from a state in which the cache holds
    nothing under the key of the resource and, under every other key, what
    it held before the [save]; with caching disabled the client is never
    touched. *)
Theorem save_then_delete (st : state) (l : loc) (r : resource) (i body : value)
    (rep : reply) (srv' : server) (d : list (string * value)) :
  st_resources st !! l = Some r ->
  Resource_id (st_client st) r = Ok i ->
  serialize r = Ok body ->
  let c := st_client st in
  let verb := if truthy i then "put" else "post" in
  let path := if truthy i then VStr (format2 (resource_type r) i)
              else if is_str (resource_type r) "Bundle" then VStr EmptyString
              else resource_type r in
  let req := plain_request c verb path (Some body) in
  requests_request req (st_server st) = (Ok rep, srv') ->
  decode_reply rep = Ok (VDict d) ->
  let id' := get_default "id" d VNone in
  truthy id' = true ->
  (without_cache c = false ->
   exists kt ki, resource_type r = VScalar kt /\ id' = VScalar ki) ->
  exists st' r' st1,
    save l st = Ret tt st' /\
    st_resources st' !! l = Some r' /\
    reference (st_client st') r' = Ok (Some (format2 (resource_type r) id')) /\
    _remove_resource_from_cache l st' = Ret tt st1 /\
    delete l st' = _do_request "delete" (VStr (format2 (resource_type r) id')) None None st1 /\
    st_sent st1 = st_sent st ++ [req] /\
    (without_cache c = true -> st_client st1 = st_client st) /\
    (forall kt ki, resource_type r = VScalar kt -> id' = VScalar ki ->
       without_cache c = false ->
       forall kt' ki',
         cache_lookup kt' ki' (resources_cache (st_client st1)) =
           if same_key (kt', ki') (kt, ki) then None
           else cache_lookup kt' ki' (resources_cache (st_client st))).
Proof.
  intros Hl Hid Hser c verb path req Hans Hdoc id' Htruthy Hkeys.
  destruct (save_run st l r i body rep srv' d Hl Hid Hser Hans Hdoc) as (Hsave & Hl3 & Hid3).
  fold c verb path req id' in Hsave, Hl3, Hid3.
  set (r' := {| resource_type := resource_type r;
                fields := sset "id" id' (sset "meta" (get_default "meta" d (VDict []))
                                           (fields r)) |}) in *.
  set (st3 := set_resources (<[l := r']> (st_resources st)) (requested st req srv')) in *.
  assert (forall st2, st_resources st2 = st_resources st3 ->
            schema (st_client st2) = schema c ->
            forall st4, _remove_resource_from_cache l st2 = Ret tt st4 ->
            st_resources st4 = st_resources st2 -> schema (st_client st4) = schema c ->
            delete l st2
              = _do_request "delete" (VStr (format2 (resource_type r) id')) None None st4)
    as Hdelete.
  { intros st2 Hres2 Hsch2 st4 Hrm Hres4 Hsch4. unfold delete. mstep Hrm. mret.
    assert (st_resources st4 !! l = Some r') as Hl4 by (rewrite Hres4, Hres2; exact Hl3).
    mstep (read_resource_Ret _ _ _ Hl4).
    assert (Resource_id (st_client st4) r' = Ok id') as Hid4.
    { rewrite <- Hid3. unfold Resource_id, AbstractResource_get,
        _raise_error_if_invalid_key, _raise_error_if_invalid_keys, get_root_keys, _get_schema.
      now rewrite Hsch4. }
    pose proof (_get_path_of_id _ _ _ Hid4) as Hpath. rewrite Htruthy in Hpath.
    now mstep (lift_Ok _ _ st4 Hpath). }
  assert (forall c', schema c' = schema c ->
            reference c' r' = Ok (Some (format2 (resource_type r) id'))) as Href.
  { intros c' Hsch.
    assert (Resource_id c' r' = Ok id') as Hid'.
    { rewrite <- Hid3. unfold Resource_id, AbstractResource_get,
        _raise_error_if_invalid_key, _raise_error_if_invalid_keys, get_root_keys, _get_schema.
      now rewrite Hsch. }
    rewrite (reference_of_id _ _ _ Hid'). now rewrite Htruthy. }
  destruct (without_cache c) eqn:Hoff.
  - exists st3, r', st3.
    assert (_remove_resource_from_cache l st3 = Ret tt st3) as Hrm
      by (unfold _remove_resource_from_cache; mret;
          now rewrite (Hoff : without_cache (st_client st3) = true)).
    split; [rewrite Hsave; now apply _add_resource_to_cache_off|].
    split; [exact Hl3|]. split; [now apply Href|]. split; [exact Hrm|].
    split; [now apply Hdelete|]. split; [reflexivity|]. split; [reflexivity|].
    discriminate.
  - destruct (Hkeys eq_refl) as (kt & ki & Hkt & Hki).
    set (cache := resources_cache (st_client st)).
    set (st' := with_cache (cache_put kt ki l cache) st3).
    set (st1 := with_cache (cache_del kt ki (cache_put kt ki l cache)) st').
    assert (save l st = Ret tt st') as Hsave'.
    { rewrite Hsave. apply (_add_resource_to_cache_Ret l r'); try assumption.
      now rewrite <- Hki. }
    assert (_remove_resource_from_cache l st' = Ret tt st1) as Hrm.
    { apply (_remove_resource_from_cache_Ret l l r' kt ki st').
      - exact Hoff.
      - exact Hl3.
      - exact Hkt.
      - rewrite <- Hki. exact Hid3.
      - cbn. apply cache_lookup_put_same; apply scalar_eqb_refl. }
    exists st', r', st1. split; [exact Hsave'|]. split; [exact Hl3|].
    split; [now apply Href|]. split; [exact Hrm|].
    split; [now apply Hdelete|]. split; [reflexivity|]. split; [discriminate|].
    intros kt0 ki0 Hkt0 Hki0 _ kt' ki'.
    assert (kt0 = kt) as -> by congruence. assert (ki0 = ki) as -> by congruence.
    cbn. destruct (same_key (kt', ki') (kt, ki)) eqn:Hs.
    + now apply cache_lookup_del_same.
    + rewrite cache_lookup_del_other by exact Hs.
      apply cache_lookup_put_other. exact Hs.
Qed.

End Saved.

Lemma save_then_delete_witness :
  exists st' st1,
    save 0 (example_state true [unsaved_patient]
              [answer 201 "patient-42"; answer 204 EmptyString]) = Ret tt st' /\
    _get_resource_from_cache (VStr "Patient") (VStr "42") st' = Ret (Some 0) st' /\
    delete 0 st' = Ret VNone st1 /\
    map method (st_sent st1) = ["post"; "delete"] /\
    map req_url (st_sent st1)
      = ["http://fhir.test/Patient?_format=json"; "http://fhir.test/Patient/42?_format=json"] /\
    cache_lookup (SStr "Patient") (SStr "42") (resources_cache (st_client st1)) = None.
Proof.
  destruct (save_then_delete
              (example_state true [unsaved_patient]
                 [answer 201 "patient-42"; answer 204 EmptyString]) 0
              unsaved_patient VNone (VDict (fields unsaved_patient))
              {| status_code := 201; content := "patient-42" |} [answer 204 EmptyString]
              [("resourceType", VStr "Patient"); ("id", VStr "42");
               ("meta", VDict [("versionId", VStr "1")])]
              eq_refl eq_refl eq_refl eq_refl eq_refl eq_refl)
    as (st' & r' & st1 & Hsave & _ & _ & Hrm & Hdel & _ & _ & Hcache).
  - intros _. exists (SStr "Patient"), (SStr "42"). split; reflexivity.
  - assert (exists st0, save 0 (example_state true [unsaved_patient]
                                 [answer 201 "patient-42"; answer 204 EmptyString])
                        = Ret tt st0 /\
                        _get_resource_from_cache (VStr "Patient") (VStr "42") st0
                        = Ret (Some 0) st0 /\
                        exists st2, delete 0 st0 = Ret VNone st2 /\
                          map method (st_sent st2) = ["post"; "delete"] /\
                          map req_url (st_sent st2)
                          = ["http://fhir.test/Patient?_format=json";
                             "http://fhir.test/Patient/42?_format=json"])
      as (st0 & Hsave0 & Hget0 & st2 & Hdel0 & Hm & Hu).
    { eexists. split; [vm_compute; reflexivity|]. split; [vm_compute; reflexivity|].
      eexists. split; [vm_compute; reflexivity|]. split; reflexivity. }
    rewrite Hsave in Hsave0. injection Hsave0 as <-.
    exists st', st2. split; [exact Hsave|]. split; [exact Hget0|]. split; [exact Hdel0|].
    split; [exact Hm|]. split; [exact Hu|].
    (* the state in which the request of [delete] is made is the evicted one *)
    rewrite Hdel in Hdel0.
    assert (same_entities st1 st2) as [-> _].
    { eapply keeps_entities_do_request. exact (f_equal final_state Hdel0). }
    exact (Hcache (SStr "Patient") (SStr "42") eq_refl eq_refl eq_refl
             (SStr "Patient") (SStr "42")).
Defined.

(** ** A new SearchSet *)

Section NewSearchSet.
Context {B : Binding}.

(** X19: [Client.resources] returns a SearchSet of the given type on a new,
    empty parameter dictionary and changes nothing that existed.  A [fetch]
    on it always ends and sends exactly one request, whose query carries
    [_format=json] only; the request layer works on a dictionary of its own,
    so the SearchSet's parameters are empty afterwards too. *)
Theorem resources_then_fetch (rt : string) (skip_caching : bool) (st : state) :
  exists s st1,
    resources rt st = Ret s st1 /\
    ss_resource_type s = rt /\
    length (st_heap st) <= ss_params s /\
    params_view (st_heap st1) s = Some [] /\
    heap_kept st st1 /\
    exists st',
      final_state (fetch s skip_caching st1) = Some st' /\
      st_sent st' = st_sent st ++ [plain_request (st_client st) "get" (VStr rt) None] /\
      objects_kept st1 st' /\
      params_view (st_heap st') s = Some [].
Proof.
  set (s := {| ss_resource_type := rt; ss_params := length (st_heap st) |}).
  set (st1 := set_heap (st_heap st ++ [ODict []]) st).
  assert (st_heap st1 !! ss_params s = Some (ODict [])) as Hd by apply lookup_new.
  exists s, st1. split; [reflexivity|]. split; [reflexivity|]. split; [cbn; lia|].
  split; [unfold params_view; now rewrite Hd|].
  split; [apply heap_kept_app, heap_kept_refl|].
  destruct (fetch_ends s skip_caching st1 [] Hd) as (st' & Hrun & Hm); [contradiction|].
  cbv zeta in Hm. destruct Hm as (Hheap & _ & Hsent & _).
  cbn [after_request st_heap st_sent] in Hheap, Hsent.
  exists st'. split; [exact Hrun|]. split; [exact Hsent|].
  assert (objects_kept st1 st') as Hkept.
  { intros l o Hl. rewrite Hheap. now apply lookup_app_l_Some. }
  split; [exact Hkept|]. unfold params_view. now rewrite (Hkept _ _ Hd).
Qed.

End NewSearchSet.
